(** * ESP32 I2C master driver (drivers/i2c/i2c_esp32.c): transfer engine

    A shallow embedding of the driver's transfer engine: clock-source
    selection, configuration, the interrupt handler, segment transmission,
    the read and write message paths and the transaction entry point.

    The peripheral and the kernel are external: every HAL or kernel call the
    driver makes is recorded, in program order, in a call log, and the two
    answers the driver depends on (is the bus busy; does an interrupt arrive
    while the driver waits) are read from the environment. *)

From Stdlib Require Import ZArith List Bool Lia.
From Stdlib Require String.
Import ListNotations.
Open Scope Z_scope.

(** ** Constants of headers that are not part of the driver file *)

(** Values the driver takes from [soc/soc_caps.h], [hal/i2c_types.h] and
    [drivers/i2c.h].  They are parameters of the development. *)
Class Headers := {
  SOC_I2C_FIFO_LEN : Z;
  SOC_I2C_SUPPORT_APB : bool;
  SOC_I2C_SUPPORT_XTAL : bool;
  SOC_I2C_SUPPORT_RTC : bool;
  SOC_I2C_SUPPORT_REF_TICK : bool;
  I2C_MSG_RW_MASK : Z;
  I2C_MSG_READ : Z;
  I2C_MSG_STOP : Z;
  I2C_MSG_RESTART : Z;
  I2C_ADDR_10_BITS : Z;
  I2C_MODE_MASTER : Z
}.

(** [BIT(n)] and [BIT_MASK(n)] of [sys/util.h]. *)
Definition BIT (n : Z) : Z := Z.shiftl 1 n.
Definition BIT_MASK (n : Z) : Z := BIT n - 1.

(** Truncation to the unsigned C types of the driver. *)
Definition u8 (z : Z) : Z := z mod 2 ^ 8.
Definition u16 (z : Z) : Z := z mod 2 ^ 16.
Definition u32 (z : Z) : Z := z mod 2 ^ 32.

(** The ESP32 with the flag values of Zephyr's I2C API: a FIFO of 32 bytes,
    clocked from APB. *)
Definition esp32_headers : Headers := {|
  SOC_I2C_FIFO_LEN := 32;
  SOC_I2C_SUPPORT_APB := true;
  SOC_I2C_SUPPORT_XTAL := false;
  SOC_I2C_SUPPORT_RTC := false;
  SOC_I2C_SUPPORT_REF_TICK := false;
  I2C_MSG_RW_MASK := BIT 0;
  I2C_MSG_READ := BIT 0;
  I2C_MSG_STOP := BIT 1;
  I2C_MSG_RESTART := BIT 2;
  I2C_ADDR_10_BITS := BIT 0;
  I2C_MODE_MASTER := BIT 4
|}.

(** The ESP32-C3: its I2C block is clocked from XTAL or the RTC clock. *)
Definition esp32c3_headers : Headers := {|
  SOC_I2C_FIFO_LEN := 32;
  SOC_I2C_SUPPORT_APB := false;
  SOC_I2C_SUPPORT_XTAL := true;
  SOC_I2C_SUPPORT_RTC := true;
  SOC_I2C_SUPPORT_REF_TICK := false;
  I2C_MSG_RW_MASK := BIT 0;
  I2C_MSG_READ := BIT 0;
  I2C_MSG_STOP := BIT 1;
  I2C_MSG_RESTART := BIT 2;
  I2C_ADDR_10_BITS := BIT 0;
  I2C_MODE_MASTER := BIT 4
|}.

(** ** Constants of the driver file *)

Definition I2C_FILTER_CYC_NUM_DEF : Z := 7.
Definition I2C_TRANSFER_TIMEOUT_MSEC : Z := 500.

Definition I2C_CLK_LIMIT_REF_TICK : Z := 1 * 1000 * 1000 / 20.
Definition I2C_CLK_LIMIT_APB : Z := 80 * 1000 * 1000 / 20.
Definition I2C_CLK_LIMIT_RTC : Z := 20 * 1000 * 1000 / 20.
Definition I2C_CLK_LIMIT_XTAL : Z := 40 * 1000 * 1000 / 20.

(** ** Data model *)

Inductive i2c_status_t :=
| I2C_STATUS_READ
| I2C_STATUS_WRITE
| I2C_STATUS_IDLE
| I2C_STATUS_ACK_ERROR
| I2C_STATUS_DONE
| I2C_STATUS_TIMEOUT.

Definition status_eqb (a b : i2c_status_t) : bool :=
  match a, b with
  | I2C_STATUS_READ, I2C_STATUS_READ
  | I2C_STATUS_WRITE, I2C_STATUS_WRITE
  | I2C_STATUS_IDLE, I2C_STATUS_IDLE
  | I2C_STATUS_ACK_ERROR, I2C_STATUS_ACK_ERROR
  | I2C_STATUS_DONE, I2C_STATUS_DONE
  | I2C_STATUS_TIMEOUT, I2C_STATUS_TIMEOUT => true
  | _, _ => false
  end.

(** Event classes the HAL reports to the interrupt handler
    ([i2c_intr_event_t]). *)
Inductive i2c_intr_event_t :=
| I2C_INTR_EVENT_ERR
| I2C_INTR_EVENT_ARBIT_LOST
| I2C_INTR_EVENT_NACK
| I2C_INTR_EVENT_TOUT
| I2C_INTR_EVENT_END_DET
| I2C_INTR_EVENT_TRANS_DONE
| I2C_INTR_EVENT_RXFIFO_FULL
| I2C_INTR_EVENT_TXFIFO_EMPTY.

Inductive i2c_op_code :=
| I2C_LL_CMD_RESTART
| I2C_LL_CMD_WRITE
| I2C_LL_CMD_READ
| I2C_LL_CMD_STOP
| I2C_LL_CMD_END.

(** A command-queue entry.  Fields a C initializer does not name are zero. *)
Record i2c_hw_cmd_t := mk_cmd {
  op_code : i2c_op_code;
  ack_en : bool;
  ack_exp : Z;
  ack_val : Z;
  byte_num : Z
}.

Definition cmd_of (op : i2c_op_code) : i2c_hw_cmd_t :=
  {| op_code := op; ack_en := false; ack_exp := 0; ack_val := 0; byte_num := 0 |}.

Definition with_byte_num (c : i2c_hw_cmd_t) (n : Z) : i2c_hw_cmd_t :=
  {| op_code := op_code c; ack_en := ack_en c; ack_exp := ack_exp c;
     ack_val := ack_val c; byte_num := n |}.

(** [struct i2c_msg]: [buf] is the cursor into the caller's buffer (an
    address), [len] a [uint32_t], [flags] a [uint8_t]. *)
Record i2c_msg := mk_msg {
  buf : Z;
  len : Z;
  flags : Z
}.

Definition set_len (m : i2c_msg) (n : Z) : i2c_msg :=
  {| buf := buf m; len := n; flags := flags m |}.
Definition set_buf (m : i2c_msg) (p : Z) : i2c_msg :=
  {| buf := p; len := len m; flags := flags m |}.
Definition set_flags (m : i2c_msg) (f : Z) : i2c_msg :=
  {| buf := buf m; len := len m; flags := f |}.

(** The fields of [struct i2c_esp32_data] the engine reads or writes. *)
Record i2c_esp32_data := mk_data {
  status : i2c_status_t;
  dev_config : Z;
  cmd_idx : Z;
  irq_line : Z
}.

Record i2c_esp32_config := mk_config {
  index : Z;
  tx_lsb_first : bool;
  rx_lsb_first : bool;
  default_config : Z;
  bitrate : Z
}.

(** Return codes: [OK] is 0, [ERR e] is [-e]. *)
Inductive errno := EINVAL | EFAULT | ETIMEDOUT | ENOTSUP | EAGAIN.
Inductive ret_t := OK | ERR (e : errno).

Definition is_err (r : ret_t) : bool :=
  match r with OK => false | ERR _ => true end.

(** ** External calls *)

Inductive sem_id := cmd_sem | transfer_sem.
Inductive k_timeout_t := K_FOREVER | K_MSEC (ms : Z).
Inductive i2c_trans_mode_t := I2C_DATA_MODE_MSB_FIRST | I2C_DATA_MODE_LSB_FIRST.

(** Source of the bytes pushed to the transmit FIFO: a local byte (the
    address) or a span of the caller's buffer starting at an address. *)
Inductive tx_src := tx_byte (b : Z) | tx_buf (ptr : Z).

Inductive call :=
| i2c_hal_write_cmd_reg (cmd : i2c_hw_cmd_t) (idx : Z)
| i2c_hal_write_txfifo (src : tx_src) (n : Z)
| i2c_hal_read_rxfifo (ptr : Z) (n : Z)
| i2c_hal_enable_master_rx_it
| i2c_hal_enable_master_tx_it
| i2c_hal_update_config
| i2c_hal_trans_start
| i2c_hal_txfifo_rst
| i2c_hal_rxfifo_rst
| i2c_hal_disable_intr_mask
| i2c_hal_clr_intsts_mask
| i2c_hal_is_bus_busy (answer : bool)
| i2c_hal_master_handle_tx_event (evt : i2c_intr_event_t)
| i2c_hal_master_handle_rx_event (evt : i2c_intr_event_t)
| i2c_hal_master_init (idx : Z)
| i2c_hal_set_data_mode (tx rx : i2c_trans_mode_t)
| i2c_hal_set_filter (n : Z)
| i2c_hal_set_bus_timing (freq : Z) (clk : Z)
| irq_enable (line : Z)
| hw_fsm_reset
| k_sem_take (s : sem_id) (t : k_timeout_t)
| k_sem_give (s : sem_id).

(** ** The driver monad *)

(** The driver's view of the world: its own data, and what the environment
    will answer.  [bus_busy] holds the coming answers of
    [i2c_hal_is_bus_busy]; [irq] holds, for each coming wait on [cmd_sem],
    either the event class the HAL reports to the interrupt handler that
    fires during the wait, or [None] when no interrupt fires before the
    deadline.  An exhausted list answers not busy and no interrupt. *)
Record world := mk_world {
  drv : i2c_esp32_data;
  bus_busy : list bool;
  irq : list (option i2c_intr_event_t)
}.

Record run (A : Type) := mk_run {
  value : A;
  after : world;
  calls : list call
}.
Arguments mk_run {A}.
Arguments value {A}.
Arguments after {A}.
Arguments calls {A}.

(** [None] is a loop that does not end. *)
Definition M (A : Type) : Type := world -> option (run A).

Definition ret {A} (a : A) : M A :=
  fun w => Some (mk_run a w []).

Definition bind {A B} (m : M A) (f : A -> M B) : M B :=
  fun w =>
    match m w with
    | None => None
    | Some r =>
      match f (value r) (after r) with
      | None => None
      | Some r' => Some (mk_run (value r') (after r') (calls r ++ calls r'))
      end
    end.

Definition diverge {A} : M A := fun _ => None.

Declare Scope drv_scope.
Delimit Scope drv_scope with drv.
Notation "x <- c ;; k" := (bind c (fun x => k))
  (at level 61, c at next level, right associativity) : drv_scope.
Notation "' pat <- c ;; k" := (bind c (fun x => match x with pat => k end))
  (at level 61, pat pattern, c at next level, right associativity) : drv_scope.
Notation "c ;; k" := (bind c (fun _ => k))
  (at level 61, right associativity) : drv_scope.
Open Scope drv_scope.

Definition emit (c : call) : M unit :=
  fun w => Some (mk_run tt w [c]).

Definition get_data : M i2c_esp32_data :=
  fun w => Some (mk_run (drv w) w []).

Definition put_data (d : i2c_esp32_data) : M unit :=
  fun w => Some (mk_run tt (mk_world d (bus_busy w) (irq w)) []).

Definition set_status (s : i2c_status_t) : M unit :=
  d <- get_data ;;
  put_data (mk_data s (dev_config d) (cmd_idx d) (irq_line d)).

Definition set_dev_config (c : Z) : M unit :=
  d <- get_data ;;
  put_data (mk_data (status d) c (cmd_idx d) (irq_line d)).

Definition set_cmd_idx (i : Z) : M unit :=
  d <- get_data ;;
  put_data (mk_data (status d) (dev_config d) i (irq_line d)).

(** [data->cmd_idx++]: the value before the increment. *)
Definition cmd_idx_post_inc : M Z :=
  d <- get_data ;;
  set_cmd_idx (cmd_idx d + 1) ;;
  ret (cmd_idx d).

(** [i2c_hal_write_cmd_reg(&data->hal, cmd, data->cmd_idx++)]. *)
Definition write_cmd (cmd : i2c_hw_cmd_t) : M unit :=
  i <- cmd_idx_post_inc ;;
  emit (i2c_hal_write_cmd_reg cmd i).

Definition ask_bus_busy : M bool :=
  fun w =>
    match bus_busy w with
    | [] => Some (mk_run false w [i2c_hal_is_bus_busy false])
    | b :: rest =>
      Some (mk_run b (mk_world (drv w) rest (irq w)) [i2c_hal_is_bus_busy b])
    end.

Definition next_irq : M (option i2c_intr_event_t) :=
  fun w =>
    match irq w with
    | [] => Some (mk_run None w [])
    | a :: rest => Some (mk_run a (mk_world (drv w) (bus_busy w) rest) [])
    end.

(** ** Clock-source selection *)

Section Driver.
Context {H : Headers}.

(** [i2c_clk_alloc]: entry 0 belongs to [I2C_SCLK_DEFAULT]; the others are
    present when the SoC supports the source, in the order of
    [i2c_sclk_t]. *)
Definition i2c_clk_alloc : list Z :=
  0 ::
  (if SOC_I2C_SUPPORT_APB then [I2C_CLK_LIMIT_APB] else []) ++
  (if SOC_I2C_SUPPORT_XTAL then [I2C_CLK_LIMIT_XTAL] else []) ++
  (if SOC_I2C_SUPPORT_RTC then [I2C_CLK_LIMIT_RTC] else []) ++
  (if SOC_I2C_SUPPORT_REF_TICK then [I2C_CLK_LIMIT_REF_TICK] else []).

(** [i2c_sclk_t] has one enumerator per table entry, then [I2C_SCLK_MAX]. *)
Definition I2C_SCLK_DEFAULT : Z := 0.
Definition I2C_SCLK_MAX : Z := Z.of_nat (length i2c_clk_alloc).

(** The [for] loop of [i2c_get_clk_src], from [clk] on; [n] counts the
    sources left. *)
Fixpoint get_clk_src_from (n : nat) (clk : Z) (clk_freq : Z) : Z :=
  match n with
  | O => I2C_SCLK_MAX
  | S n' =>
    if clk_freq <=? nth (Z.to_nat clk) i2c_clk_alloc 0%Z
    then clk
    else get_clk_src_from n' (clk + 1) clk_freq
  end.

Definition i2c_get_clk_src (clk_freq : Z) : Z :=
  get_clk_src_from (Z.to_nat (I2C_SCLK_MAX - (I2C_SCLK_DEFAULT + 1)))
                   (I2C_SCLK_DEFAULT + 1) clk_freq.

(** ** Bus recovery *)

(** [i2c_hw_fsm_reset] saves the bus timing, clears the bus and restores the
    timing through HAL, GPIO and clock calls only; it touches neither the
    driver status, the command index nor any message.  It is one call of the
    log. *)
Definition i2c_hw_fsm_reset : M unit := emit hw_fsm_reset.

(** ** Configuration *)

Definition i2c_esp32_configure (config : i2c_esp32_config) (dev_cfg : Z) : M ret_t :=
  if Z.land dev_cfg I2C_MODE_MASTER =? 0 then ret (ERR ENOTSUP)
  else
    set_dev_config dev_cfg ;;
    let tx_mode := if tx_lsb_first config then I2C_DATA_MODE_LSB_FIRST
                   else I2C_DATA_MODE_MSB_FIRST in
    let rx_mode := if rx_lsb_first config then I2C_DATA_MODE_LSB_FIRST
                   else I2C_DATA_MODE_MSB_FIRST in
    emit (i2c_hal_master_init (index config)) ;;
    emit (i2c_hal_set_data_mode tx_mode rx_mode) ;;
    emit (i2c_hal_set_filter I2C_FILTER_CYC_NUM_DEF) ;;
    emit i2c_hal_update_config ;;
    if bitrate config =? 0 then ret (ERR ENOTSUP)
    else
      emit (i2c_hal_set_bus_timing (bitrate config)
                                   (i2c_get_clk_src (bitrate config))) ;;
      emit i2c_hal_update_config ;;
      d <- get_data ;;
      emit (irq_enable (irq_line d)) ;;
      ret OK.

Definition i2c_esp32_reset_fifo : M unit :=
  emit i2c_hal_txfifo_rst ;;
  emit i2c_hal_rxfifo_rst.

(** ** Interrupt handler *)

(** What the handler does that can be seen from outside, in program order:
    the calls it makes and its stores to the volatile [status]. *)
Inductive isr_action :=
| isr_call (c : call)
| isr_store_status (s : i2c_status_t).

(** [hw_evt] is the event class the HAL would report; the handler asks for
    it only while the status is WRITE or READ, and otherwise keeps the
    initial [I2C_INTR_EVENT_ERR].  The result is [evt_type] and the call
    made to get it. *)
Definition isr_evt_type (st : i2c_status_t) (hw_evt : i2c_intr_event_t)
  : i2c_intr_event_t * list isr_action :=
  if status_eqb st I2C_STATUS_WRITE then
    (hw_evt, [isr_call (i2c_hal_master_handle_tx_event hw_evt)])
  else if status_eqb st I2C_STATUS_READ then
    (hw_evt, [isr_call (i2c_hal_master_handle_rx_event hw_evt)])
  else (I2C_INTR_EVENT_ERR, []).

(** The actions of one run of the handler that finds the status [st]. *)
Definition i2c_esp32_isr_actions (st : i2c_status_t)
    (hw_evt : i2c_intr_event_t) : list isr_action :=
  let (evt_type, asked) := isr_evt_type st hw_evt in
  asked
  ++ match evt_type with
     | I2C_INTR_EVENT_NACK => [isr_store_status I2C_STATUS_ACK_ERROR]
     | I2C_INTR_EVENT_TOUT => [isr_store_status I2C_STATUS_TIMEOUT]
     | I2C_INTR_EVENT_ARBIT_LOST => [isr_store_status I2C_STATUS_TIMEOUT]
     | I2C_INTR_EVENT_TRANS_DONE => [isr_store_status I2C_STATUS_DONE]
     | _ => []
     end
  ++ [isr_call (k_sem_give cmd_sem)].

(** Carries the actions out one after the other: a call goes to the log, a
    store changes the driver data. *)
Fixpoint perform (l : list isr_action) : M unit :=
  match l with
  | [] => ret tt
  | isr_call c :: l' => emit c ;; perform l'
  | isr_store_status s :: l' => set_status s ;; perform l'
  end.

Definition i2c_esp32_isr (hw_evt : i2c_intr_event_t) : M unit :=
  d <- get_data ;;
  perform (i2c_esp32_isr_actions (status d) hw_evt).

(** ** Segment transmission *)

(** [k_sem_take(&data->cmd_sem, timeout)]: the handler runs if an interrupt
    fires during the wait, and the take then returns 0; with no interrupt
    the take returns [-EAGAIN] at the deadline.  A give left over from an
    earlier segment is not modelled. *)
Definition k_sem_take_cmd_sem (timeout : k_timeout_t) : M ret_t :=
  emit (k_sem_take cmd_sem timeout) ;;
  a <- next_irq ;;
  match a with
  | Some hw_evt => i2c_esp32_isr hw_evt ;; ret OK
  | None => ret (ERR EAGAIN)
  end.

Definition i2c_esp32_transmit : M ret_t :=
  emit i2c_hal_update_config ;;
  emit i2c_hal_trans_start ;;
  r <- k_sem_take_cmd_sem (K_MSEC I2C_TRANSFER_TIMEOUT_MSEC) ;;
  if is_err r then
    i2c_hw_fsm_reset ;;
    ret (ERR ETIMEDOUT)
  else
    d <- get_data ;;
    if status_eqb (status d) I2C_STATUS_TIMEOUT then
      i2c_hw_fsm_reset ;;
      ret (ERR ETIMEDOUT)
    else if status_eqb (status d) I2C_STATUS_ACK_ERROR then
      ret (ERR EFAULT)
    else ret OK.

(** ** Address phase *)

Definition i2c_esp32_write_addr (addr : Z) : M unit :=
  let addr_byte := Z.land addr 255 in
  write_cmd (cmd_of I2C_LL_CMD_RESTART) ;;
  emit (i2c_hal_write_txfifo (tx_byte addr_byte) 1) ;;
  d <- get_data ;;
  addr_len <-
    (if Z.land (dev_config d) I2C_ADDR_10_BITS =? 0 then ret 1
     else
       let addr_byte := Z.land (Z.shiftr addr 8) 255 in
       emit (i2c_hal_write_txfifo (tx_byte addr_byte) 1) ;;
       ret (u8 (1 + 1))) ;;
  write_cmd {| op_code := I2C_LL_CMD_WRITE; ack_en := true; ack_exp := 0;
               ack_val := 0; byte_num := addr_len |}.

(** ** Read path *)

(** The READ command for the bytes before the last one of a chunk. *)
Definition read_cmd (rd_filled : Z) : i2c_hw_cmd_t :=
  {| op_code := I2C_LL_CMD_READ; ack_en := false; ack_exp := 0;
     ack_val := 0; byte_num := rd_filled |}.

(** The READ command for the last byte of the message. *)
Definition read_last_cmd : i2c_hw_cmd_t :=
  {| op_code := I2C_LL_CMD_READ; ack_en := false; ack_exp := 0;
     ack_val := 1; byte_num := 1 |}.

Definition stop_cmd : i2c_hw_cmd_t :=
  {| op_code := I2C_LL_CMD_STOP; ack_en := false; ack_exp := 0;
     ack_val := 0; byte_num := 0 |}.

Definition hw_end_cmd : i2c_hw_cmd_t := cmd_of I2C_LL_CMD_END.

(** The body of [while (msg->len)] up to and including the transfer: the
    commands of one chunk are queued and transmitted.  The result is the
    return code of the transmission, the message and [rd_filled]. *)
Definition read_chunk (msg : i2c_msg) : M (ret_t * i2c_msg * Z) :=
  let rd_filled :=
    u8 (if len msg >? SOC_I2C_FIFO_LEN then SOC_I2C_FIFO_LEN else len msg - 1) in
  let msg := set_len msg (u32 (len msg - rd_filled)) in
  (if rd_filled =? 0 then ret tt else write_cmd (read_cmd rd_filled)) ;;
  '(msg, rd_filled) <-
    (if len msg =? 1 then
       let msg := set_len msg 0 in
       let rd_filled := u8 (rd_filled + 1) in
       write_cmd read_last_cmd ;;
       ret (msg, rd_filled)
     else ret (msg, rd_filled)) ;;
  (if len msg =? 0 then write_cmd stop_cmd else ret tt) ;;
  write_cmd hw_end_cmd ;;
  emit i2c_hal_enable_master_rx_it ;;
  r <- i2c_esp32_transmit ;;
  ret (r, msg, rd_filled).

(** [while (msg->len) { ... }]; [fuel] bounds the number of chunks. *)
Fixpoint read_loop (fuel : nat) (msg : i2c_msg) : M (ret_t * i2c_msg) :=
  if len msg =? 0 then ret (OK, msg)
  else
    match fuel with
    | O => diverge
    | S fuel' =>
      '(r, msg, rd_filled) <- read_chunk msg ;;
      if is_err r then ret (r, msg)
      else
        emit (i2c_hal_read_rxfifo (buf msg) rd_filled) ;;
        let msg := set_buf msg (buf msg + rd_filled) in
        set_cmd_idx 0 ;;
        read_loop fuel' msg
    end.

Definition i2c_esp32_read_msg (msg : i2c_msg) (addr : Z) : M (ret_t * i2c_msg) :=
  set_cmd_idx 0 ;;
  set_status I2C_STATUS_READ ;;
  let addr := u16 (Z.lor addr (BIT 0)) in
  (if Z.land (flags msg) I2C_MSG_RESTART =? 0 then ret tt
   else i2c_esp32_write_addr addr) ;;
  read_loop (Z.to_nat (len msg)) msg.

(** ** Write path *)

(** [for (;;) { ... }]; [cmd] is the loop-carried command. *)
Fixpoint write_loop (fuel : nat) (cmd : i2c_hw_cmd_t) (msg : i2c_msg)
  : M (ret_t * i2c_msg) :=
  match fuel with
  | O => diverge
  | S fuel' =>
    let wr_filled :=
      u8 (if len msg >? SOC_I2C_FIFO_LEN then SOC_I2C_FIFO_LEN else len msg) in
    let write_pr := buf msg in
    let msg := set_buf msg (buf msg + wr_filled) in
    let msg := set_len msg (u32 (len msg - wr_filled)) in
    let cmd := with_byte_num cmd wr_filled in
    (if wr_filled >? 0 then
       emit (i2c_hal_write_txfifo (tx_buf write_pr) wr_filled) ;;
       write_cmd cmd
     else ret tt) ;;
    cmd <-
      (if (len msg =? 0) && negb (Z.land (flags msg) I2C_MSG_STOP =? 0) then
         write_cmd stop_cmd ;; ret stop_cmd
       else
         write_cmd hw_end_cmd ;; ret cmd) ;;
    emit i2c_hal_enable_master_tx_it ;;
    r <- i2c_esp32_transmit ;;
    if is_err r then ret (r, msg)
    else
      set_cmd_idx 0 ;;
      if len msg =? 0 then ret (OK, msg)
      else write_loop fuel' cmd msg
  end.

Definition i2c_esp32_write_msg (msg : i2c_msg) (addr : Z) : M (ret_t * i2c_msg) :=
  set_cmd_idx 0 ;;
  set_status I2C_STATUS_WRITE ;;
  let cmd := {| op_code := I2C_LL_CMD_WRITE; ack_en := true; ack_exp := 0;
                ack_val := 0; byte_num := 0 |} in
  (if Z.land (flags msg) I2C_MSG_RESTART =? 0 then ret tt
   else i2c_esp32_write_addr addr) ;;
  write_loop (S (Z.to_nat (len msg))) cmd msg.

(** ** Transaction entry point *)

(** The validation loop, from [current] on: [msgs] is the part of the array
    that starts at [current], so its tail starts at [next] and the last
    message is the one with an empty tail. *)
Fixpoint check_msgs (msgs : list i2c_msg) : ret_t * list i2c_msg :=
  match msgs with
  | [] => (OK, [])
  | current :: tail =>
    match tail with
    | next :: _ =>
      if negb (Z.land (flags current) I2C_MSG_RW_MASK
               =? Z.land (flags next) I2C_MSG_RW_MASK)
         && (Z.land (flags next) I2C_MSG_RESTART =? 0)
      then (ERR EINVAL, msgs)
      else if negb (Z.land (flags current) I2C_MSG_STOP =? 0)
      then (ERR EINVAL, msgs)
      else
        let (r, tail') := check_msgs tail in
        (r, current :: tail')
    | [] =>
      (OK, [set_flags current (u8 (Z.lor (flags current) I2C_MSG_STOP))])
    end
  end.

(** [for (; num_msgs > 0; num_msgs--, msgs++)]. *)
Fixpoint transfer_loop (msgs : list i2c_msg) (addr : Z)
  : M (ret_t * list i2c_msg) :=
  match msgs with
  | [] => ret (OK, [])
  | msg :: rest =>
    d <- get_data ;;
    busy <- (if status_eqb (status d) I2C_STATUS_TIMEOUT then ret true
             else ask_bus_busy) ;;
    (if busy then i2c_hw_fsm_reset else ret tt) ;;
    i2c_esp32_reset_fifo ;;
    emit i2c_hal_disable_intr_mask ;;
    emit i2c_hal_clr_intsts_mask ;;
    '(r, msg) <-
      (if Z.land (flags msg) I2C_MSG_RW_MASK =? I2C_MSG_READ
       then i2c_esp32_read_msg msg addr
       else i2c_esp32_write_msg msg addr) ;;
    if is_err r then ret (r, msg :: rest)
    else
      '(r, rest) <- transfer_loop rest addr ;;
      ret (r, msg :: rest)
  end.

(** The validation part of [i2c_esp32_transfer] for [num_msgs > 0]: the
    RESTART flag is set on the first message, then the validation loop runs.
    The result is [ret] and the caller's array as validation leaves it. *)
Definition transfer_validate (msgs : list i2c_msg) : ret_t * list i2c_msg :=
  match msgs with
  | [] => (OK, [])
  | current :: tail =>
    let current :=
      set_flags current (u8 (Z.lor (flags current) I2C_MSG_RESTART)) in
    check_msgs (current :: tail)
  end.

(** The part of [i2c_esp32_transfer] that runs under [transfer_sem]. *)
Definition transfer_locked (msgs : list i2c_msg) (addr : Z)
  : M (ret_t * list i2c_msg) :=
  emit (k_sem_take transfer_sem K_FOREVER) ;;
  d <- get_data ;;
  let addr :=
    u16 (Z.land addr
           (BIT_MASK (if Z.land (dev_config d) I2C_ADDR_10_BITS =? 0
                      then 7 else 10))) in
  let addr := u16 (Z.shiftl addr 1) in
  '(r, msgs) <- transfer_loop msgs addr ;;
  emit (k_sem_give transfer_sem) ;;
  ret (r, msgs).

(** [msgs] is the caller's array of [num_msgs] messages; the result carries
    the array as the call leaves it. *)
Definition i2c_esp32_transfer (msgs : list i2c_msg) (addr : Z)
  : M (ret_t * list i2c_msg) :=
  match msgs with
  | [] => ret (OK, [])
  | _ :: _ =>
    let (r, msgs) := transfer_validate msgs in
    if is_err r then ret (r, msgs)
    else transfer_locked msgs addr
  end.

(** ** The validation rules, as the specification words them *)

(** A message other than the last carries STOP. *)
Definition stop_before_last (msgs : list i2c_msg) : Prop :=
  exists i m,
    nth_error msgs i = Some m /\ (S i < length msgs)%nat /\
    Z.land (flags m) I2C_MSG_STOP <> 0.

(** Two adjacent messages differ in direction and the second lacks
    RESTART. *)
Definition direction_change_without_restart (msgs : list i2c_msg) : Prop :=
  exists i a b,
    nth_error msgs i = Some a /\ nth_error msgs (S i) = Some b /\
    Z.land (flags a) I2C_MSG_RW_MASK <> Z.land (flags b) I2C_MSG_RW_MASK /\
    Z.land (flags b) I2C_MSG_RESTART = 0.

Definition invalid_sequence (msgs : list i2c_msg) : Prop :=
  stop_before_last msgs \/ direction_change_without_restart msgs.

(** The flags the specification asks for on an accepted transaction. *)
Definition or_flags (f : Z) (m : i2c_msg) : i2c_msg :=
  set_flags m (Z.lor (flags m) f).

Definition restart_on_first (msgs : list i2c_msg) : list i2c_msg :=
  match msgs with
  | [] => []
  | m :: rest => or_flags I2C_MSG_RESTART m :: rest
  end.

Fixpoint stop_on_last (msgs : list i2c_msg) : list i2c_msg :=
  match msgs with
  | [] => []
  | [m] => [or_flags I2C_MSG_STOP m]
  | m :: rest => m :: stop_on_last rest
  end.

(** The frequency limit of a clock source. *)
Definition clk_limit (clk : Z) : Z := nth (Z.to_nat clk) i2c_clk_alloc 0.

End Driver.

(** ** Reading the call log *)

(** The commands written to the command queue, in order. *)
Definition cmds_of (cs : list call) : list i2c_hw_cmd_t :=
  flat_map (fun c => match c with
                     | i2c_hal_write_cmd_reg cmd _ => [cmd]
                     | _ => []
                     end) cs.

Definition is_read (c : i2c_hw_cmd_t) : bool :=
  match op_code c with I2C_LL_CMD_READ => true | _ => false end.

(** The READ commands written to the command queue, in order. *)
Definition read_cmds_of (cs : list call) : list i2c_hw_cmd_t :=
  filter is_read (cmds_of cs).

(** Byte counts drained from the receive FIFO, one per drain. *)
Definition rx_counts (cs : list call) : list Z :=
  flat_map (fun c => match c with
                     | i2c_hal_read_rxfifo _ n => [n]
                     | _ => []
                     end) cs.

(** Byte counts pushed to the transmit FIFO from the message buffer. *)
Definition tx_counts (cs : list call) : list Z :=
  flat_map (fun c => match c with
                     | i2c_hal_write_txfifo (tx_buf _) n => [n]
                     | _ => []
                     end) cs.

Definition sum (l : list Z) : Z := fold_right Z.add 0 l.

Definition count_call (c : call -> bool) (cs : list call) : nat :=
  length (filter c cs).

Definition is_fsm_reset (c : call) : bool :=
  match c with hw_fsm_reset => true | _ => false end.

Definition is_give_cmd_sem (c : call) : bool :=
  match c with k_sem_give cmd_sem => true | _ => false end.

(** The stores to [status] among the handler's actions, and its calls, each
    in program order. *)
Definition stores_of (l : list isr_action) : list i2c_status_t :=
  flat_map (fun a => match a with isr_store_status s => [s] | _ => [] end) l.

Definition calls_of (l : list isr_action) : list call :=
  flat_map (fun a => match a with isr_call c => [c] | _ => [] end) l.

Definition world0 (answers : list (option i2c_intr_event_t)) : world :=
  mk_world (mk_data I2C_STATUS_IDLE 0 0 0) [] answers.

(** ** Further readings of the call log *)

(** Address bytes pushed to the transmit FIFO by the address phase. *)
Definition addr_bytes (cs : list call) : list Z :=
  flat_map (fun c => match c with
                     | i2c_hal_write_txfifo (tx_byte b) _ => [b]
                     | _ => []
                     end) cs.

(** Byte counts of all pushes to the transmit FIFO, address bytes included. *)
Definition tx_pushes (cs : list call) : list Z :=
  flat_map (fun c => match c with
                     | i2c_hal_write_txfifo _ n => [n]
                     | _ => []
                     end) cs.

Definition is_write (c : i2c_hw_cmd_t) : bool :=
  match op_code c with I2C_LL_CMD_WRITE => true | _ => false end.

(** The WRITE commands written to the command queue, in order. *)
Definition write_cmds_of (cs : list call) : list i2c_hw_cmd_t :=
  filter is_write (cmds_of cs).

(** The command-queue indices written, in order. *)
Definition cmd_indices (cs : list call) : list Z :=
  flat_map (fun c => match c with
                     | i2c_hal_write_cmd_reg _ idx => [idx]
                     | _ => []
                     end) cs.

Definition is_transfer_sem (c : call) : bool :=
  match c with
  | k_sem_take transfer_sem _ | k_sem_give transfer_sem => true
  | _ => false
  end.

Definition is_trans_start (c : call) : bool :=
  match c with i2c_hal_trans_start => true | _ => false end.

Definition is_irq_enable (c : call) : bool :=
  match c with irq_enable _ => true | _ => false end.

(** The calls a message path makes: command-queue writes, FIFO transfers,
    the arming of the interrupt, the start of the hardware, the wait on
    [cmd_sem] with what the interrupt handler does meanwhile, and the FSM
    reset of a failed transmission. *)
Definition is_segment_call (c : call) : bool :=
  match c with
  | i2c_hal_write_cmd_reg _ _
  | i2c_hal_write_txfifo _ _
  | i2c_hal_read_rxfifo _ _
  | i2c_hal_enable_master_rx_it
  | i2c_hal_enable_master_tx_it
  | i2c_hal_update_config
  | i2c_hal_trans_start
  | i2c_hal_master_handle_tx_event _
  | i2c_hal_master_handle_rx_event _
  | hw_fsm_reset
  | k_sem_take cmd_sem _
  | k_sem_give cmd_sem => true
  | _ => false
  end.

(** The return codes of a message path. *)
Definition is_segment_code (r : ret_t) : bool :=
  match r with
  | OK | ERR ETIMEDOUT | ERR EFAULT => true
  | _ => false
  end.

(** What a message path leaves alone: the configured mode, the interrupt
    line and the answers the bus will give to [i2c_hal_is_bus_busy]. *)
Definition keeps_config {A} (w : world) (r : run A) : Prop :=
  dev_config (drv (after r)) = dev_config (drv w) /\
  irq_line (drv (after r)) = irq_line (drv w) /\
  bus_busy (after r) = bus_busy w.

(** The address bytes a message path pushes for message [m] when it is
    handed the shifted address [addr] in mode [cfg]: none without RESTART;
    otherwise the low byte of the address, with bit 0 set for a read, and in
    10-bit mode the next byte as well. *)
Definition addr_phase_bytes {H : Headers} (cfg addr : Z) (m : i2c_msg) : list Z :=
  if Z.land (flags m) I2C_MSG_RESTART =? 0 then []
  else
    let a := if Z.land (flags m) I2C_MSG_RW_MASK =? I2C_MSG_READ
             then u16 (Z.lor addr (BIT 0)) else addr in
    if Z.land cfg I2C_ADDR_10_BITS =? 0 then [Z.land a 255]
    else [Z.land a 255; Z.land (Z.shiftr a 8) 255].

(** A message read or written to its end. *)
Definition consumed (m m' : i2c_msg) : Prop :=
  len m' = 0 /\ buf m' = buf m + len m /\ flags m' = flags m.

(** The address as [i2c_esp32_transfer] hands it to the message paths: cut
    to 7 or 10 bits by the configured mode, then shifted left by one. *)
Definition shifted_addr {H : Headers} (cfg addr : Z) : Z :=
  u16 (Z.shiftl
         (u16 (Z.land addr
                 (BIT_MASK (if Z.land cfg I2C_ADDR_10_BITS =? 0
                            then 7 else 10)))) 1).

(** ** Pins, bus recovery and initialization *)

(** The functions of the driver that work on the pins, the clock and the
    timing registers.  They make calls the transfer engine does not make, so
    they have a log of their own; a call of the engine's log appears in it
    as [drv_call]. *)
Module Board.

(** What [soc/soc_caps.h] says about the I2C block; a [SUPPORT] field is
    [true] when the macro is defined. *)
Class Caps := {
  SOC_I2C_NUM : Z;
  SOC_I2C_SUPPORT_HW_CLR_BUS : bool;
  SOC_I2C_SUPPORT_HW_FSM_RST : bool
}.

(** The ESP32: two controllers, bus clear and FSM reset done by hand. *)
Definition esp32_caps : Caps := {|
  SOC_I2C_NUM := 2;
  SOC_I2C_SUPPORT_HW_CLR_BUS := false;
  SOC_I2C_SUPPORT_HW_FSM_RST := false
|}.

(** The ESP32-C3: one controller, both done by the hardware. *)
Definition esp32c3_caps : Caps := {|
  SOC_I2C_NUM := 1;
  SOC_I2C_SUPPORT_HW_CLR_BUS := true;
  SOC_I2C_SUPPORT_HW_FSM_RST := true
|}.

Definition I2C_CLR_BUS_SCL_NUM : Z := 9.
Definition I2C_CLR_BUS_HALF_PERIOD_US : Z := 5.

(** [struct i2c_esp32_pin]; a NULL [gpio_name] is [None]. *)
Record i2c_esp32_pin := mk_pin {
  gpio_name : option String.string;
  sig_out : Z;
  sig_in : Z;
  pin : Z
}.

(** The pin and interrupt fields of [struct i2c_esp32_config]. *)
Record i2c_esp32_pins := mk_pins {
  scl : i2c_esp32_pin;
  sda : i2c_esp32_pin;
  irq_source : Z
}.

(** The device a GPIO call is made on: the one [data->scl_gpio] or the one
    [data->sda_gpio] points to. *)
Inductive gpio_dev := scl_gpio | sda_gpio.

(** The fields [scl_gpio] and [sda_gpio] of [struct i2c_esp32_data]: the
    device pointers; NULL is [None]. *)
Record i2c_esp32_gpios := mk_gpios {
  scl_gpio_dev : option Z;
  sda_gpio_dev : option Z
}.

Inductive gpio_flag :=
| GPIO_PULL_UP | GPIO_OPEN_DRAIN | GPIO_OUTPUT | GPIO_INPUT.

(** The timing registers as the HAL getters report them. *)
Record bus_timing := mk_timing {
  scl_high_period : Z;
  scl_low_period : Z;
  scl_rstart_setup : Z;
  scl_start_hold : Z;
  scl_stop_setup : Z;
  scl_stop_hold : Z;
  sda_sample : Z;
  sda_hold : Z;
  timeout : Z;
  filter_cfg : Z
}.

Inductive board_call :=
| gpio_pin_set (port : gpio_dev) (p : Z) (value : Z)
| gpio_pin_configure (port : gpio_dev) (p : Z) (flags : list gpio_flag)
| gpio_pin_get (port : gpio_dev) (p : Z) (answer : Z)
| esp_rom_gpio_matrix_out (p signal : Z) (out_inv oen_inv : Z)
| esp_rom_gpio_matrix_in (p signal : Z) (inv : Z)
| esp_rom_delay_us (us : Z)
| clock_control_on
| clock_control_off
| i2c_hal_get_scl_timing (high low : Z)
| i2c_hal_get_start_timing (setup hold : Z)
| i2c_hal_get_stop_timing (setup hold : Z)
| i2c_hal_get_sda_timing (sample hold : Z)
| i2c_hal_get_tout (t : Z)
| i2c_hal_get_filter (f : Z)
| i2c_hal_set_scl_timing (high low : Z)
| i2c_hal_set_start_timing (setup hold : Z)
| i2c_hal_set_stop_timing (setup hold : Z)
| i2c_hal_set_sda_timing (sample hold : Z)
| i2c_hal_set_tout (t : Z)
| i2c_hal_master_clr_bus
| i2c_hal_master_fsm_rst
| device_get_binding (name : String.string) (answer : option Z)
| esp_intr_alloc (source : Z) (flags : Z) (answer : Z)
| drv_call (c : call).

Section Functions.
Context {C : Caps}.

(** The engine's configuration with the pins beside it. *)
Variable config : i2c_esp32_config.
Variable pins : i2c_esp32_pins.

Definition i2c_esp32_config_pin : ret_t * list board_call :=
  if index config >=? SOC_I2C_NUM then (ERR EINVAL, [])
  else
    (OK,
     [gpio_pin_set sda_gpio (pin (sda pins)) 1;
      gpio_pin_configure sda_gpio (pin (sda pins))
        [GPIO_PULL_UP; GPIO_OPEN_DRAIN; GPIO_OUTPUT; GPIO_INPUT];
      esp_rom_gpio_matrix_out (pin (sda pins)) (sig_out (sda pins)) 0 0;
      esp_rom_gpio_matrix_in (pin (sda pins)) (sig_in (sda pins)) 0;
      gpio_pin_set scl_gpio (pin (scl pins)) 1;
      gpio_pin_configure scl_gpio (pin (scl pins))
        [GPIO_PULL_UP; GPIO_OPEN_DRAIN; GPIO_OUTPUT; GPIO_INPUT];
      esp_rom_gpio_matrix_out (pin (scl pins)) (sig_out (scl pins)) 0 0;
      esp_rom_gpio_matrix_in (pin (scl pins)) (sig_in (scl pins)) 0]).

(** One pulse on SCL: the body of the [while] loop. *)
Definition scl_pulse : list board_call :=
  [gpio_pin_set scl_gpio (pin (scl pins)) 1;
   esp_rom_delay_us I2C_CLR_BUS_HALF_PERIOD_US;
   gpio_pin_set scl_gpio (pin (scl pins)) 0;
   esp_rom_delay_us I2C_CLR_BUS_HALF_PERIOD_US].

(** [while (!gpio_pin_get(sda) && (i++ < I2C_CLR_BUS_SCL_NUM))]: [sda_level k]
    is what the k-th read of SDA answers, [k] counts the reads made so far;
    [i++] is evaluated only when SDA reads low. *)
Fixpoint clear_bus_loop (sda_level : nat -> Z) (fuel : nat) (i : Z) (k : nat)
  : option (list board_call) :=
  let v := sda_level k in
  let read := gpio_pin_get sda_gpio (pin (sda pins)) v in
  if v =? 0 then
    if i <? I2C_CLR_BUS_SCL_NUM then
      match fuel with
      | O => None
      | S fuel' =>
        match clear_bus_loop sda_level fuel' (i + 1) (S k) with
        | None => None
        | Some cs => Some (read :: scl_pulse ++ cs)
        end
      end
    else Some [read]
  else Some [read].

Definition i2c_master_clear_bus (sda_level : nat -> Z)
  : option (list board_call) :=
  if SOC_I2C_SUPPORT_HW_CLR_BUS then
    Some [i2c_hal_master_clr_bus; drv_call i2c_hal_update_config]
  else
    match clear_bus_loop sda_level
            (Z.to_nat (I2C_CLR_BUS_SCL_NUM + 1)) 0 0 with
    | None => None
    | Some loop =>
      Some
        ([gpio_pin_configure scl_gpio (pin (scl pins))
            [GPIO_OUTPUT; GPIO_OPEN_DRAIN];
          gpio_pin_configure sda_gpio (pin (sda pins))
            [GPIO_OUTPUT; GPIO_OPEN_DRAIN; GPIO_INPUT];
          gpio_pin_set scl_gpio (pin (scl pins)) 0;
          gpio_pin_set sda_gpio (pin (sda pins)) 1;
          esp_rom_delay_us I2C_CLR_BUS_HALF_PERIOD_US]
         ++ loop
         ++ [gpio_pin_set sda_gpio (pin (sda pins)) 0;
             gpio_pin_set scl_gpio (pin (scl pins)) 1;
             esp_rom_delay_us I2C_CLR_BUS_HALF_PERIOD_US;
             gpio_pin_set sda_gpio (pin (sda pins)) 1]
         ++ snd i2c_esp32_config_pin
         ++ [drv_call i2c_hal_update_config])
    end.

(** [t] is what the timing registers hold when the reset starts. *)
Definition i2c_hw_fsm_reset (t : bus_timing) (sda_level : nat -> Z)
  : option (list board_call) :=
  if SOC_I2C_SUPPORT_HW_FSM_RST then
    match i2c_master_clear_bus sda_level with
    | None => None
    | Some clear =>
      Some ([i2c_hal_master_fsm_rst] ++ clear
            ++ [drv_call i2c_hal_update_config])
    end
  else
    let scl_high := scl_high_period t in
    let scl_low := scl_low_period t in
    let rstart_setup := scl_rstart_setup t in
    let start_hold := scl_start_hold t in
    let stop_setup := scl_stop_setup t in
    let stop_hold := scl_stop_hold t in
    let sample := sda_sample t in
    let hold := sda_hold t in
    let tout := timeout t in
    let filter := u8 (filter_cfg t) in
    match i2c_master_clear_bus sda_level with
    | None => None
    | Some clear =>
      Some
        ([i2c_hal_get_scl_timing scl_high scl_low;
          i2c_hal_get_start_timing rstart_setup start_hold;
          i2c_hal_get_stop_timing stop_setup stop_hold;
          i2c_hal_get_sda_timing sample hold;
          i2c_hal_get_tout tout;
          i2c_hal_get_filter filter;
          clock_control_off]
         ++ clear
         ++ [clock_control_on;
             drv_call (i2c_hal_master_init (index config));
             drv_call i2c_hal_disable_intr_mask;
             drv_call i2c_hal_clr_intsts_mask;
             i2c_hal_set_scl_timing scl_high scl_low;
             i2c_hal_set_start_timing rstart_setup start_hold;
             i2c_hal_set_stop_timing stop_setup stop_hold;
             i2c_hal_set_sda_timing sample hold;
             i2c_hal_set_tout tout;
             drv_call (i2c_hal_set_filter filter);
             drv_call i2c_hal_update_config])
    end.

Definition i2c_esp32_recover (t : bus_timing) (sda_level : nat -> Z)
  : option (ret_t * list board_call) :=
  match i2c_hw_fsm_reset t sda_level with
  | None => None
  | Some reset =>
    Some (OK,
          [drv_call (k_sem_take transfer_sem K_FOREVER)]
          ++ reset
          ++ [drv_call (k_sem_give transfer_sem)])
  end.

(** [bound_scl] and [bound_sda] are the device pointers [device_get_binding]
    answers for the two names, [line] is what [esp_intr_alloc] answers; [g]
    holds the GPIO device fields and [w] the other driver data.  Each
    pointer is stored in its field before it is tested.  The result is the
    return code, the GPIO device fields and the world afterwards, and the
    log. *)
Definition i2c_esp32_init {H : Headers} (bound_scl bound_sda : option Z)
    (line : Z) (g : i2c_esp32_gpios) (w : world)
  : option (ret_t * i2c_esp32_gpios * world * list board_call) :=
  match gpio_name (scl pins), gpio_name (sda pins) with
  | Some scl_name, Some sda_name =>
    let g := mk_gpios bound_scl (sda_gpio_dev g) in
    match scl_gpio_dev g with
    | None =>
      Some (ERR EINVAL, g, w, [device_get_binding scl_name bound_scl])
    | Some _ =>
      let g := mk_gpios (scl_gpio_dev g) bound_sda in
      let bound := [device_get_binding scl_name bound_scl;
                    device_get_binding sda_name bound_sda] in
      match sda_gpio_dev g with
      | None => Some (ERR EINVAL, g, w, bound)
      | Some _ =>
        let (ret, pin_calls) := i2c_esp32_config_pin in
        if is_err ret then Some (ERR EINVAL, g, w, bound ++ pin_calls)
        else
          let d := drv w in
          let w' :=
            mk_world (mk_data (status d) (dev_config d) (cmd_idx d) line)
                     (bus_busy w) (irq w) in
          match i2c_esp32_configure config (default_config config) w' with
          | None => None
          | Some r =>
            Some (value r, g, after r,
                  bound ++ pin_calls
                  ++ [clock_control_on;
                      esp_intr_alloc (irq_source pins) 0 line]
                  ++ map drv_call (calls r))
          end
      end
    end
  | _, _ => Some (ERR EINVAL, g, w, [])
  end.

End Functions.

(** Readings of the board log. *)
Definition is_sda_read (c : board_call) : bool :=
  match c with gpio_pin_get sda_gpio _ _ => true | _ => false end.

Definition is_scl_high (c : board_call) : bool :=
  match c with gpio_pin_set scl_gpio _ 1 => true | _ => false end.

Definition count (p : board_call -> bool) (cs : list board_call) : nat :=
  length (filter p cs).

(** The timing values read from the registers, and those written to them,
    each as register, first value, second value. *)
Inductive timing_reg := SCL | START | STOP | SDA | TOUT | FILTER.

Definition timing_read (cs : list board_call) : list (timing_reg * Z * Z) :=
  flat_map (fun c => match c with
                     | i2c_hal_get_scl_timing a b => [(SCL, a, b)]
                     | i2c_hal_get_start_timing a b => [(START, a, b)]
                     | i2c_hal_get_stop_timing a b => [(STOP, a, b)]
                     | i2c_hal_get_sda_timing a b => [(SDA, a, b)]
                     | i2c_hal_get_tout a => [(TOUT, a, 0)]
                     | i2c_hal_get_filter a => [(FILTER, a, 0)]
                     | _ => []
                     end) cs.

Definition timing_written (cs : list board_call) : list (timing_reg * Z * Z) :=
  flat_map (fun c => match c with
                     | i2c_hal_set_scl_timing a b => [(SCL, a, b)]
                     | i2c_hal_set_start_timing a b => [(START, a, b)]
                     | i2c_hal_set_stop_timing a b => [(STOP, a, b)]
                     | i2c_hal_set_sda_timing a b => [(SDA, a, b)]
                     | i2c_hal_set_tout a => [(TOUT, a, 0)]
                     | drv_call (i2c_hal_set_filter a) => [(FILTER, a, 0)]
                     | _ => []
                     end) cs.

Definition is_lock_call (c : board_call) : bool :=
  match c with drv_call c' => is_transfer_sem c' | _ => false end.

Definition is_clock_call (c : board_call) : bool :=
  match c with clock_control_on | clock_control_off => true | _ => false end.

Definition is_intr_alloc (c : board_call) : bool :=
  match c with esp_intr_alloc _ _ _ => true | _ => false end.

(** The calls a bus clear may make: pins, delays, the hardware clear and
    the configuration update. *)
Definition is_clear_bus_call (c : board_call) : bool :=
  match c with
  | gpio_pin_set _ _ _ | gpio_pin_configure _ _ _ | gpio_pin_get _ _ _
  | esp_rom_gpio_matrix_out _ _ _ _ | esp_rom_gpio_matrix_in _ _ _
  | esp_rom_delay_us _ | i2c_hal_master_clr_bus
  | drv_call i2c_hal_update_config => true
  | _ => false
  end.

Definition is_drv_call (c : board_call) : bool :=
  match c with drv_call _ => true | _ => false end.

Definition is_pin_call (c : board_call) : bool :=
  match c with
  | gpio_pin_set _ _ _ | gpio_pin_configure _ _ _ | gpio_pin_get _ _ _
  | esp_rom_gpio_matrix_out _ _ _ _ | esp_rom_gpio_matrix_in _ _ _ => true
  | _ => false
  end.

End Board.

(** ** Proof automation *)

(** Runs a call on a world whose shape is known and names its result. *)
Ltac ran := cbn; eexists; split; [reflexivity | cbn].

(** Evaluates the straight-line part of a run, up to the next transmission
    or loop. *)
Ltac step :=
  repeat progress
    (lazy beta iota zeta delta
       [bind ret emit get_data put_data set_status set_cmd_idx set_dev_config
        cmd_idx_post_inc write_cmd is_err set_len set_buf set_flags];
     cbn [value after calls drv status dev_config cmd_idx irq_line bus_busy
          irq fst snd buf len flags]).

(** * Properties *)


(** ** Interrupt handler and segment transmission *)

(** C6.  Every run of the interrupt handler ends, and maps the event class
    it holds to the status: NACK to ACK_ERROR, bus timeout and arbitration
    loss to TIMEOUT, transfer done to DONE; any other event class leaves the
    status as it was.  The handler holds the class the hardware reports while
    the status is WRITE or READ and the initial ERR class otherwise.  In every
    case it gives [cmd_sem] exactly once, and the give is its last action:
    the store to the status, when there is one, stands before it, and no
    store and no call follows it.  It changes no other field. *)
Theorem isr_maps_event_and_signals :
  forall (hw_evt : i2c_intr_event_t) (w : world),
  exists r,
    i2c_esp32_isr hw_evt w = Some r /\
    let st := status (drv w) in
    let evt_type :=
      if status_eqb st I2C_STATUS_WRITE || status_eqb st I2C_STATUS_READ
      then hw_evt else I2C_INTR_EVENT_ERR in
    status (drv (after r)) =
      match evt_type with
      | I2C_INTR_EVENT_NACK => I2C_STATUS_ACK_ERROR
      | I2C_INTR_EVENT_TOUT => I2C_STATUS_TIMEOUT
      | I2C_INTR_EVENT_ARBIT_LOST => I2C_STATUS_TIMEOUT
      | I2C_INTR_EVENT_TRANS_DONE => I2C_STATUS_DONE
      | _ => st
      end /\
    count_call is_give_cmd_sem (calls r) = 1%nat /\
    last (calls r) hw_fsm_reset = k_sem_give cmd_sem /\
    (exists before,
       i2c_esp32_isr_actions st hw_evt
         = before ++ [isr_call (k_sem_give cmd_sem)] /\
       stores_of before =
         match evt_type with
         | I2C_INTR_EVENT_NACK => [I2C_STATUS_ACK_ERROR]
         | I2C_INTR_EVENT_TOUT => [I2C_STATUS_TIMEOUT]
         | I2C_INTR_EVENT_ARBIT_LOST => [I2C_STATUS_TIMEOUT]
         | I2C_INTR_EVENT_TRANS_DONE => [I2C_STATUS_DONE]
         | _ => []
         end /\
       count_call is_give_cmd_sem (calls_of before) = 0%nat /\
       calls r = calls_of before ++ [k_sem_give cmd_sem]) /\
    dev_config (drv (after r)) = dev_config (drv w) /\
    cmd_idx (drv (after r)) = cmd_idx (drv w) /\
    bus_busy (after r) = bus_busy w /\
    irq (after r) = irq w.
Proof.
  intros hw_evt [[st cfg idx line] busy answers].
  destruct st, hw_evt; ran; repeat split; try reflexivity;
    match goal with
    | |- exists before, ?l = _ /\ _ =>
      exists (removelast l); repeat split; reflexivity
    end.
Qed.

(** C5.  Every segment transmission ends.  It starts the hardware and waits
    on [cmd_sem] with the 500 ms deadline.  With no interrupt before the
    deadline it resets the hardware FSM once and returns -ETIMEDOUT.  When an
    interrupt wakes it, the return code follows the status the handler
    signalled, that is the status the handler's run leaves: with TIMEOUT it
    resets the FSM once, after the handler, and returns -ETIMEDOUT; with
    ACK_ERROR it returns -EFAULT without a reset; with any other status it
    returns 0 without a reset.  The transmission itself changes nothing
    after the handler. *)
Theorem transmit_outcomes :
  forall (w : world),
  exists r,
    i2c_esp32_transmit w = Some r /\
    firstn 3 (calls r) =
      [i2c_hal_update_config; i2c_hal_trans_start;
       k_sem_take cmd_sem (K_MSEC 500)] /\
    match hd None (irq w) with
    | None =>
      value r = ERR ETIMEDOUT /\
      count_call is_fsm_reset (calls r) = 1%nat /\
      drv (after r) = drv w /\
      skipn 3 (calls r) = [hw_fsm_reset]
    | Some hw_evt =>
      exists h,
        i2c_esp32_isr hw_evt (mk_world (drv w) (bus_busy w) (tl (irq w)))
          = Some h /\
        after r = after h /\
        match status (drv (after h)) with
        | I2C_STATUS_TIMEOUT =>
          value r = ERR ETIMEDOUT /\
          count_call is_fsm_reset (calls r) = 1%nat /\
          skipn 3 (calls r) = calls h ++ [hw_fsm_reset]
        | I2C_STATUS_ACK_ERROR =>
          value r = ERR EFAULT /\
          count_call is_fsm_reset (calls r) = 0%nat /\
          skipn 3 (calls r) = calls h
        | _ =>
          value r = OK /\
          count_call is_fsm_reset (calls r) = 0%nat /\
          skipn 3 (calls r) = calls h
        end
    end.
Proof.
  intros [[st cfg idx line] busy answers].
  destruct answers as [|[hw_evt|] answers].
  - ran; auto.
  - destruct st, hw_evt; ran; (split; [reflexivity|]);
      eexists; (split; [reflexivity|]); cbn; auto.
  - ran; auto.
Qed.

(** ** Transaction entry point *)

(** C10.  A transfer of no message returns 0 at once: it makes no call (it
    takes no semaphore and touches no hardware) and leaves the driver data
    and the environment as they were. *)
Theorem transfer_no_msgs :
  forall (H : Headers) (addr : Z) (w : world),
    i2c_esp32_transfer [] addr w = Some (mk_run (OK, []) w []).
Proof.
  intros. reflexivity.
Qed.

(** ** Clock-source selection and configuration *)

Lemma get_clk_src_from_first :
  forall (H : Headers) (clk_freq : Z) (n : nat) (clk : Z),
    0 <= clk -> clk + Z.of_nat n = I2C_SCLK_MAX ->
    let c := get_clk_src_from n clk clk_freq in
    ((clk <= c < I2C_SCLK_MAX /\ clk_freq <= clk_limit c) \/ c = I2C_SCLK_MAX) /\
    (forall c', clk <= c' < c -> clk_limit c' < clk_freq).
Proof.
  intros H clk_freq n; induction n as [|n IH]; intros clk Hclk Hmax; cbn zeta.
  - cbn [get_clk_src_from]. split; [right; reflexivity | intros; lia].
  - cbn [get_clk_src_from].
    destruct (Z.leb_spec clk_freq (nth (Z.to_nat clk) i2c_clk_alloc 0)) as [Hle|Hgt].
    + split; [left; split; [lia | exact Hle] | intros; lia].
    + specialize (IH (clk + 1) ltac:(lia) ltac:(lia)); cbn zeta in IH.
      destruct IH as [IH1 IH2]. split.
      * destruct IH1 as [[? ?]|?]; [left; split; [lia|assumption] | right; assumption].
      * intros c' Hc'. destruct (Z.eq_dec c' clk) as [->|Hne].
        -- exact Hgt.
        -- apply IH2; lia.
Qed.

Lemma configure_calls :
  forall (H : Headers) (config : i2c_esp32_config) (dev_cfg : Z) (w : world),
  exists r,
    i2c_esp32_configure config dev_cfg w = Some r /\
    (bitrate config = 0 -> value r = ERR ENOTSUP) /\
    (forall freq clk, In (i2c_hal_set_bus_timing freq clk) (calls r) ->
       bitrate config <> 0 /\
       freq = bitrate config /\ clk = i2c_get_clk_src (bitrate config)).
Proof.
  intros H [idx tx rx dflt rate] dev_cfg [[st cfg i line] busy answers].
  unfold i2c_esp32_configure.
  destruct (Z.land dev_cfg I2C_MODE_MASTER =? 0).
  - ran. split; [reflexivity | intros ? ? []].
  - cbn [bitrate]. destruct (Z.eqb_spec rate 0) as [->|Hrate].
    + ran. split; [reflexivity|].
      intros freq clk Hin.
      repeat (destruct Hin as [Hin|Hin]; [discriminate|]). destruct Hin.
    + ran. split; [intros; contradiction|].
      intros freq clk Hin.
      repeat (destruct Hin as [Hin|Hin];
              [first [discriminate | injection Hin as <- <-; auto]|]).
      destruct Hin.
Qed.

(** With the master bit and a bitrate that is not zero configuration
    returns 0 and sets the bus timing. *)
Lemma configure_sets_bus_timing :
  forall (H : Headers) (config : i2c_esp32_config) (dev_cfg : Z) (w : world),
  exists r,
    i2c_esp32_configure config dev_cfg w = Some r /\
    (Z.land dev_cfg I2C_MODE_MASTER <> 0 -> bitrate config <> 0 ->
     value r = OK /\
     In (i2c_hal_set_bus_timing (bitrate config)
           (i2c_get_clk_src (bitrate config))) (calls r)).
Proof.
  intros H [idx tx rx dflt rate] dev_cfg [[st cfg i line] busy answers].
  unfold i2c_esp32_configure.
  destruct (Z.eqb_spec (Z.land dev_cfg I2C_MODE_MASTER) 0) as [Hm|Hm].
  - ran. intros; contradiction.
  - cbn [bitrate]. destruct (Z.eqb_spec rate 0) as [->|Hrate].
    + ran. intros; contradiction.
    + ran. intros _ _. split; [reflexivity|].
      do 4 right. left. reflexivity.
Qed.

(** C9 (amended).  [i2c_get_clk_src] selects the first clock source, in the
    order of the table, whose frequency limit covers the requested bitrate,
    and answers [I2C_SCLK_MAX] when none does.  Configuration with a zero
    bitrate fails with -ENOTSUP.  Configuration with the master bit and a
    bitrate that is not zero returns 0 and sets the bus timing with the
    configured bitrate and the clock source [i2c_get_clk_src] selects for
    it; and no run of configuration sets the bus timing with anything
    else. *)
Theorem clk_src_is_first_covering :
  forall (H : Headers) (clk_freq : Z),
    let clk := i2c_get_clk_src clk_freq in
    ((I2C_SCLK_DEFAULT < clk < I2C_SCLK_MAX /\ clk_freq <= clk_limit clk)
     \/ clk = I2C_SCLK_MAX) /\
    (forall c, I2C_SCLK_DEFAULT < c < clk -> clk_limit c < clk_freq) /\
    (forall idx tx rx dflt dev_cfg w,
      exists r,
        i2c_esp32_configure (mk_config idx tx rx dflt 0) dev_cfg w = Some r /\
        value r = ERR ENOTSUP) /\
    (forall config dev_cfg w r freq c,
        i2c_esp32_configure config dev_cfg w = Some r ->
        In (i2c_hal_set_bus_timing freq c) (calls r) ->
        freq = bitrate config /\ c = i2c_get_clk_src (bitrate config)) /\
    (forall config dev_cfg w,
      exists r,
        i2c_esp32_configure config dev_cfg w = Some r /\
        (Z.land dev_cfg I2C_MODE_MASTER <> 0 -> bitrate config <> 0 ->
         value r = OK /\
         In (i2c_hal_set_bus_timing (bitrate config)
               (i2c_get_clk_src (bitrate config))) (calls r))).
Proof.
  intros H clk_freq clk.
  assert (Hmax : 1 <= I2C_SCLK_MAX).
  { unfold I2C_SCLK_MAX, i2c_clk_alloc. cbn [length]. lia. }
  destruct (get_clk_src_from_first H clk_freq
              (Z.to_nat (I2C_SCLK_MAX - (I2C_SCLK_DEFAULT + 1)))
              (I2C_SCLK_DEFAULT + 1)) as [Hsel Hbefore].
  { unfold I2C_SCLK_DEFAULT; lia. }
  { unfold I2C_SCLK_DEFAULT; lia. }
  fold (i2c_get_clk_src clk_freq) in Hsel, Hbefore. fold clk in Hsel, Hbefore.
  unfold I2C_SCLK_DEFAULT in *.
  split; [|split; [|split; [|split]]].
  - destruct Hsel as [[? ?]|?]; [left; split; [lia|assumption] | right; assumption].
  - intros c Hc. apply Hbefore. lia.
  - intros idx tx rx dflt dev_cfg w.
    destruct (configure_calls H (mk_config idx tx rx dflt 0) dev_cfg w)
      as (r & Hr & Hzero & _).
    exists r. split; [exact Hr | apply Hzero; reflexivity].
  - intros config dev_cfg w r freq c Hr Hin.
    destruct (configure_calls H config dev_cfg w) as (r' & Hr' & _ & Hcalls).
    rewrite Hr in Hr'. injection Hr' as <-.
    destruct (Hcalls freq c Hin) as (_ & ? & ?). auto.
  - intros config dev_cfg w. apply configure_sets_bus_timing.
Qed.

(** C9 (as stated) fails.  On the ESP32-C3 a request for 100 kHz selects
    source 1 (XTAL, limit 2 MHz) although source 2 (RTC, limit 1 MHz) covers
    it and is slower; and on the ESP32 a bitrate of 5 MHz, which its only
    source (APB, limit 4 MHz) does not cover, is configured with the
    out-of-range source [I2C_SCLK_MAX] and configuration returns 0. *)
Lemma clk_src_not_slowest :
  (@i2c_get_clk_src esp32c3_headers 100000 = 1 /\
   100000 <= @clk_limit esp32c3_headers 2 /\
   @clk_limit esp32c3_headers 2 < @clk_limit esp32c3_headers 1) /\
  (@i2c_get_clk_src esp32_headers 5000000 = @I2C_SCLK_MAX esp32_headers /\
   @I2C_SCLK_MAX esp32_headers = 2 /\
   @clk_limit esp32_headers 1 < 5000000 /\
   option_map (fun r => (value r, calls r))
     (@i2c_esp32_configure esp32_headers (mk_config 0 false false 16 5000000)
        16 (world0 [])) =
   Some (OK, [i2c_hal_master_init 0;
              i2c_hal_set_data_mode I2C_DATA_MODE_MSB_FIRST
                                    I2C_DATA_MODE_MSB_FIRST;
              i2c_hal_set_filter 7; i2c_hal_update_config;
              i2c_hal_set_bus_timing 5000000 2; i2c_hal_update_config;
              irq_enable 0])).
Proof.
  vm_compute. repeat split; congruence.
Qed.

(** ** Validation of the message list *)

Section Validation.
Context {H : Headers}.

Lemma u8_lor_small :
  forall a b, 0 <= a < 256 -> 0 <= b < 256 -> u8 (Z.lor a b) = Z.lor a b.
Proof.
  intros a b Ha Hb. unfold u8. apply Z.mod_small.
  split; [apply Z.lor_nonneg; lia|].
  destruct (Z.eq_dec (Z.lor a b) 0) as [->|Hnz]; [lia|].
  assert (0 < Z.lor a b) by (assert (0 <= Z.lor a b) by (apply Z.lor_nonneg; lia); lia).
  apply Z.log2_lt_pow2; [assumption|].
  rewrite Z.log2_lor by lia.
  assert (Z.log2 a < 8).
  { destruct (Z.eq_dec a 0) as [->|]; [cbn; lia|]. apply Z.log2_lt_pow2; lia. }
  assert (Z.log2 b < 8).
  { destruct (Z.eq_dec b 0) as [->|]; [cbn; lia|]. apply Z.log2_lt_pow2; lia. }
  lia.
Qed.

Lemma land_lor_same : forall f s, Z.land (Z.lor f s) s = s.
Proof.
  intros f s. apply Z.bits_inj'. intros n _.
  rewrite Z.land_spec, Z.lor_spec.
  destruct (Z.testbit f n), (Z.testbit s n); reflexivity.
Qed.

Lemma land_lor_disjoint :
  forall f r k, Z.land r k = 0 -> Z.land (Z.lor f r) k = Z.land f k.
Proof.
  intros f r k Hd. rewrite Z.land_lor_distr_l, Hd. apply Z.lor_0_r.
Qed.

(** The validation rules, unfolded along the list. *)
Lemma invalid_sequence_short :
  forall l, (length l <= 1)%nat -> ~ invalid_sequence l.
Proof.
  intros l Hl [(i & m & Hn & Hi & _) | (i & a & b & _ & Hn & _)].
  - lia.
  - assert (S i < length l)%nat by (apply nth_error_Some; congruence). lia.
Qed.

Lemma invalid_sequence_cons2 :
  forall a b rest,
    invalid_sequence (a :: b :: rest) <->
    (Z.land (flags a) I2C_MSG_RW_MASK <> Z.land (flags b) I2C_MSG_RW_MASK /\
     Z.land (flags b) I2C_MSG_RESTART = 0) \/
    Z.land (flags a) I2C_MSG_STOP <> 0 \/
    invalid_sequence (b :: rest).
Proof.
  intros a b rest; split.
  - intros [(i & m & Hn & Hi & Hs) | (i & x & y & Hx & Hy & Hd & Hr)].
    + destruct i as [|j].
      * injection Hn as <-. auto.
      * right; right; left. exists j, m. cbn in Hn, Hi |- *.
        repeat split; [assumption | lia | assumption].
    + destruct i as [|j].
      * injection Hx as <-. injection Hy as <-. auto.
      * right; right; right. exists j, x, y. cbn in Hx, Hy. auto.
  - intros [[Hd Hr] | [Hs | [(j & m & Hn & Hj & Hs) | (j & x & y & Hx & Hy & Hd & Hr)]]].
    + right. exists 0%nat, a, b. cbn. auto.
    + left. exists 0%nat, a. cbn. repeat split; [lia | assumption].
    + left. exists (S j), m. cbn in Hj |- *. repeat split; [assumption | lia | assumption].
    + right. exists (S j), x, y. cbn. auto.
Qed.

Lemma invalid_sequence_head :
  forall a a' rest,
    Z.land (flags a') I2C_MSG_RW_MASK = Z.land (flags a) I2C_MSG_RW_MASK ->
    Z.land (flags a') I2C_MSG_STOP = Z.land (flags a) I2C_MSG_STOP ->
    invalid_sequence (a :: rest) -> invalid_sequence (a' :: rest).
Proof.
  intros a a' [|b rest] Hrw Hstop Hinv.
  - exfalso. revert Hinv. apply invalid_sequence_short. cbn; lia.
  - apply invalid_sequence_cons2. apply invalid_sequence_cons2 in Hinv.
    rewrite Hrw, Hstop. exact Hinv.
Qed.

Lemma check_msgs_cons2 :
  forall a b rest,
    check_msgs (a :: b :: rest) =
    if negb (Z.land (flags a) I2C_MSG_RW_MASK =? Z.land (flags b) I2C_MSG_RW_MASK)
       && (Z.land (flags b) I2C_MSG_RESTART =? 0)
    then (ERR EINVAL, a :: b :: rest)
    else if negb (Z.land (flags a) I2C_MSG_STOP =? 0)
    then (ERR EINVAL, a :: b :: rest)
    else let (r, tail') := check_msgs (b :: rest) in (r, a :: tail').
Proof. reflexivity. Qed.

(** The validation loop rejects a list that breaks a rule and leaves it as
    it found it. *)
Lemma check_msgs_invalid :
  forall l, invalid_sequence l -> check_msgs l = (ERR EINVAL, l).
Proof.
  induction l as [|a l IH]; intros Hinv.
  - exfalso. revert Hinv. apply invalid_sequence_short. cbn; lia.
  - destruct l as [|b rest].
    + exfalso. revert Hinv. apply invalid_sequence_short. cbn; lia.
    + rewrite check_msgs_cons2. apply invalid_sequence_cons2 in Hinv.
      destruct (Z.eqb_spec (Z.land (flags a) I2C_MSG_RW_MASK)
                           (Z.land (flags b) I2C_MSG_RW_MASK)) as [Hrw|Hrw];
      destruct (Z.eqb_spec (Z.land (flags b) I2C_MSG_RESTART) 0) as [Hr|Hr];
      cbn [negb andb]; try reflexivity;
      (destruct (Z.eqb_spec (Z.land (flags a) I2C_MSG_STOP) 0) as [Hs|Hs];
       cbn [negb]; [|reflexivity]);
      (rewrite IH; [reflexivity|];
       destruct Hinv as [[? ?]|[?|?]]; [congruence | congruence | assumption]).
Qed.

(** What the validation loop computes. *)
Lemma check_msgs_spec :
  forall l,
    0 <= I2C_MSG_STOP < 256 ->
    Forall (fun m => 0 <= flags m < 256) l ->
    (invalid_sequence l /\ check_msgs l = (ERR EINVAL, l)) \/
    (~ invalid_sequence l /\ check_msgs l = (OK, stop_on_last l)).
Proof.
  intros l Hstop; induction l as [|a l IH]; intros Hl.
  - right. split; [apply invalid_sequence_short; cbn; lia | reflexivity].
  - inversion Hl as [|? ? Ha Hl']; subst.
    destruct l as [|b rest].
    + right. split; [apply invalid_sequence_short; cbn; lia|].
      cbn. unfold or_flags. rewrite u8_lor_small by assumption. reflexivity.
    + rewrite check_msgs_cons2.
      change (stop_on_last (a :: b :: rest)) with (a :: stop_on_last (b :: rest)).
      destruct (Z.eqb_spec (Z.land (flags a) I2C_MSG_RW_MASK)
                           (Z.land (flags b) I2C_MSG_RW_MASK)) as [Hrw|Hrw];
      destruct (Z.eqb_spec (Z.land (flags b) I2C_MSG_RESTART) 0) as [Hr|Hr];
      cbn [negb andb];
      try (left; split; [apply invalid_sequence_cons2; auto | reflexivity]);
      (destruct (Z.eqb_spec (Z.land (flags a) I2C_MSG_STOP) 0) as [Hs|Hs];
       cbn [negb];
       [| left; split; [apply invalid_sequence_cons2; auto | reflexivity]]);
      (destruct (IH Hl') as [[Hinv Hck] | [Hval Hck]]; rewrite Hck;
       [ left; split; [apply invalid_sequence_cons2; auto | reflexivity]
       | right; split; [| reflexivity];
         rewrite invalid_sequence_cons2; intros [[? ?] | [? | ?]]; congruence ]).
Qed.

Lemma last_stop_on_last :
  forall l d, l <> [] ->
    Z.land (flags (last (stop_on_last l) d)) I2C_MSG_STOP = I2C_MSG_STOP.
Proof.
  induction l as [|a l IH]; intros d Hne; [congruence|].
  destruct l as [|b rest].
  - cbn. apply land_lor_same.
  - change (stop_on_last (a :: b :: rest)) with (a :: stop_on_last (b :: rest)).
    assert (Hnil : stop_on_last (b :: rest) <> []) by (destruct rest; discriminate).
    specialize (IH d ltac:(discriminate)).
    cbn [last]. destruct (stop_on_last (b :: rest)); [congruence | exact IH].
Qed.

End Validation.

(** C3 (amended).  A message list that breaks a validation rule (STOP on a
    message other than the last, or a change of direction into a message
    without RESTART) makes the transfer return -EINVAL without any call: no
    semaphore is taken, no hardware is touched, the driver data is as
    before.  The caller's list comes back with the RESTART flag set on its
    first message and is otherwise unchanged. *)
Theorem transfer_rejects_invalid_sequence :
  forall (H : Headers) (msgs : list i2c_msg) (addr : Z) (w : world),
    Z.land I2C_MSG_RESTART I2C_MSG_RW_MASK = 0 ->
    Z.land I2C_MSG_RESTART I2C_MSG_STOP = 0 ->
    0 <= I2C_MSG_RESTART < 256 ->
    Forall (fun m => 0 <= flags m < 256) msgs ->
    invalid_sequence msgs ->
    i2c_esp32_transfer msgs addr w =
      Some (mk_run (ERR EINVAL, restart_on_first msgs) w []).
Proof.
  intros H msgs addr w Hrw Hrs Hr Hflags Hinv.
  destruct msgs as [|a rest].
  - exfalso. revert Hinv. apply invalid_sequence_short. cbn; lia.
  - inversion Hflags as [|? ? Ha Hrest]; subst.
    unfold i2c_esp32_transfer, transfer_validate.
    rewrite u8_lor_small by assumption.
    fold (or_flags I2C_MSG_RESTART a).
    rewrite check_msgs_invalid; [reflexivity|].
    apply (invalid_sequence_head a); cbn;
      [apply land_lor_disjoint | apply land_lor_disjoint | ]; assumption.
Qed.

(** The rejected list of a write followed by a read without RESTART. *)
Lemma transfer_rejects_invalid_sequence_witness :
  @i2c_esp32_transfer esp32_headers
     [mk_msg 1000 2 0; mk_msg 2000 2 1] 80 (world0 []) =
  Some (mk_run (ERR EINVAL, [mk_msg 1000 2 4; mk_msg 2000 2 1]) (world0 []) []).
Proof.
  apply (transfer_rejects_invalid_sequence esp32_headers
           [mk_msg 1000 2 0; mk_msg 2000 2 1] 80 (world0 [])).
  - reflexivity.
  - reflexivity.
  - cbn; lia.
  - repeat constructor; cbn; lia.
  - right. exists 0%nat, (mk_msg 1000 2 0), (mk_msg 2000 2 1).
    cbn. repeat split; discriminate.
Defined.

(** C3 (as stated) fails: the rejected transfer of a write followed by a
    read without RESTART hands the list back with the flags of its first
    message changed from 0 to RESTART. *)
Lemma transfer_rejected_changes_flags :
  @direction_change_without_restart esp32_headers
     [mk_msg 1000 2 0; mk_msg 2000 2 1] /\
  map flags [mk_msg 1000 2 0; mk_msg 2000 2 1] = [0; 1] /\
  option_map (fun r => (fst (value r), map flags (snd (value r))))
    (@i2c_esp32_transfer esp32_headers
       [mk_msg 1000 2 0; mk_msg 2000 2 1] 80 (world0 [])) =
  Some (ERR EINVAL, [4; 1]).
Proof.
  split; [|split; reflexivity].
  exists 0%nat, (mk_msg 1000 2 0), (mk_msg 2000 2 1).
  cbn. repeat split; discriminate.
Qed.

(** C8.  A non-empty message list that breaks no validation rule passes
    validation with RESTART set on its first message and STOP set on its
    last, and it is this list that the transfer runs under the lock: the
    last message handed to the segment drivers has STOP set.  A list of one
    message gets both flags. *)
Theorem transfer_sets_stop_on_last :
  forall (H : Headers) (msgs : list i2c_msg) (addr : Z) (w : world),
    Z.land I2C_MSG_RESTART I2C_MSG_RW_MASK = 0 ->
    Z.land I2C_MSG_RESTART I2C_MSG_STOP = 0 ->
    0 <= I2C_MSG_RESTART < 256 ->
    0 <= I2C_MSG_STOP < 256 ->
    Forall (fun m => 0 <= flags m < 256) msgs ->
    msgs <> [] ->
    ~ invalid_sequence msgs ->
    let msgs' := stop_on_last (restart_on_first msgs) in
    transfer_validate msgs = (OK, msgs') /\
    i2c_esp32_transfer msgs addr w = transfer_locked msgs' addr w /\
    (forall d, Z.land (flags (last msgs' d)) I2C_MSG_STOP = I2C_MSG_STOP) /\
    (forall d, Z.land (flags (hd d msgs')) I2C_MSG_RESTART = I2C_MSG_RESTART) /\
    (forall m, msgs = [m] ->
       msgs' = [set_flags m (Z.lor (Z.lor (flags m) I2C_MSG_RESTART)
                                   I2C_MSG_STOP)]).
Proof.
  intros H msgs addr w Hrw Hrs Hr Hs Hflags Hne Hval msgs'.
  destruct msgs as [|a rest]; [congruence|].
  inversion Hflags as [|? ? Ha Hrest]; subst.
  assert (Hck : transfer_validate (a :: rest) = (OK, msgs')).
  { unfold transfer_validate. rewrite u8_lor_small by assumption.
    fold (or_flags I2C_MSG_RESTART a).
    destruct (check_msgs_spec (or_flags I2C_MSG_RESTART a :: rest) Hs)
      as [[Hinv _] | [_ Hck]].
    - constructor; [|assumption]. cbn.
      rewrite <- (u8_lor_small (flags a) I2C_MSG_RESTART) by assumption.
      unfold u8. apply Z.mod_pos_bound. lia.
    - exfalso. apply Hval.
      apply (invalid_sequence_head (or_flags I2C_MSG_RESTART a)); [| |exact Hinv];
        cbn; symmetry; apply land_lor_disjoint; assumption.
    - exact Hck. }
  split; [exact Hck|]. split; [|split; [|split]].
  - unfold i2c_esp32_transfer. rewrite Hck. reflexivity.
  - intros d. apply last_stop_on_last. discriminate.
  - intros d. subst msgs'. destruct rest as [|b rest]; cbn.
    + apply Z.bits_inj'. intros n _.
      rewrite Z.land_spec, !Z.lor_spec.
      destruct (Z.testbit (flags a) n), (Z.testbit I2C_MSG_RESTART n),
               (Z.testbit I2C_MSG_STOP n); reflexivity.
    + apply land_lor_same.
  - intros m Hm. subst msgs'. injection Hm as Hm Hnil. subst a rest.
    reflexivity.
Qed.

(** A single read message without STOP: both flags are set. *)
Lemma transfer_sets_stop_on_last_witness :
  @transfer_validate esp32_headers [mk_msg 1000 2 1] =
    (OK, [mk_msg 1000 2 7]).
Proof.
  refine (proj1 (transfer_sets_stop_on_last esp32_headers
                   [mk_msg 1000 2 1] 80 (world0 []) _ _ _ _ _ _ _)).
  - reflexivity.
  - reflexivity.
  - cbn; lia.
  - cbn; lia.
  - repeat constructor; cbn; lia.
  - discriminate.
  - apply invalid_sequence_short. cbn; lia.
Defined.

(** ** Reading the log of a composed run *)

Lemma cmds_of_app : forall a b, cmds_of (a ++ b) = cmds_of a ++ cmds_of b.
Proof. intros; unfold cmds_of; apply flat_map_app. Qed.

Lemma read_cmds_of_app :
  forall a b, read_cmds_of (a ++ b) = read_cmds_of a ++ read_cmds_of b.
Proof. intros; unfold read_cmds_of; rewrite cmds_of_app; apply filter_app. Qed.

Lemma rx_counts_app : forall a b, rx_counts (a ++ b) = rx_counts a ++ rx_counts b.
Proof. intros; unfold rx_counts; apply flat_map_app. Qed.

Lemma tx_counts_app : forall a b, tx_counts (a ++ b) = tx_counts a ++ tx_counts b.
Proof. intros; unfold tx_counts; apply flat_map_app. Qed.

Lemma sum_app : forall a b, sum (a ++ b) = sum a + sum b.
Proof.
  unfold sum. induction a as [|x a IH]; intros b; cbn; [reflexivity|].
  rewrite IH. lia.
Qed.

Lemma u8_small : forall x, 0 <= x < 256 -> u8 x = x.
Proof. intros; unfold u8; apply Z.mod_small; lia. Qed.

Lemma u32_small : forall x, 0 <= x < 2 ^ 32 -> u32 x = x.
Proof. intros; unfold u32; apply Z.mod_small; lia. Qed.

(** A transmission ends, and writes no command and moves no data. *)
Lemma transmit_quiet :
  forall (w : world),
  exists r,
    i2c_esp32_transmit w = Some r /\
    cmds_of (calls r) = [] /\ read_cmds_of (calls r) = [] /\
    rx_counts (calls r) = [] /\ tx_counts (calls r) = [].
Proof.
  intros [[st cfg idx line] busy answers].
  destruct answers as [|[hw_evt|] answers].
  - ran; auto.
  - destruct st, hw_evt; ran; auto.
  - ran; auto.
Qed.

Section Loops.
Context {H : Headers}.
Hypothesis fifo_len : 0 < SOC_I2C_FIFO_LEN < 255.

(** The address phase ends; it writes no READ command and moves no message
    data. *)
Lemma write_addr_quiet :
  forall (addr : Z) (w : world),
  exists r,
    i2c_esp32_write_addr addr w = Some r /\
    read_cmds_of (calls r) = [] /\ rx_counts (calls r) = [] /\
    tx_counts (calls r) = [].
Proof.
  intros addr [[st cfg idx line] busy answers].
  unfold i2c_esp32_write_addr. step.
  destruct (Z.land cfg I2C_ADDR_10_BITS =? 0); step;
    (eexists; split; [reflexivity | cbn; auto]).
Qed.

(** One chunk of the read path. *)
Lemma read_chunk_spec :
  forall (msg : i2c_msg) (w : world),
    1 <= len msg < 2 ^ 32 ->
    let n := len msg in
    let a := if n >? SOC_I2C_FIFO_LEN then SOC_I2C_FIFO_LEN else n - 1 in
    let final := n - a =? 1 in
    exists r rc,
      read_chunk msg w = Some r /\
      value r = (rc, set_len msg (if final then 0 else n - a),
                 if final then a + 1 else a) /\
      read_cmds_of (calls r) =
        (if a =? 0 then [] else [read_cmd a]) ++
        (if final then [read_last_cmd] else []) /\
      rx_counts (calls r) = [] /\
      cmds_of (calls r) =
        (if a =? 0 then [] else [read_cmd a]) ++
        (if final then [read_last_cmd; stop_cmd] else []) ++ [hw_end_cmd].
Proof.
  intros msg [[st cfg idx line] busy answers] Hlen n a final.
  assert (Ha : 0 <= a < 255 /\ a <= n - 1).
  { subst a. destruct (Z.gtb_spec n SOC_I2C_FIFO_LEN); lia. }
  unfold read_chunk. fold n. fold a.
  rewrite (u8_small a) by lia.
  rewrite (u32_small (n - a)) by lia.
  rewrite (u8_small (a + 1)) by lia.
  subst final. step. clearbody a. clearbody n.
  destruct (a =? 0) eqn:Ea; destruct (n - a =? 1) eqn:Ef; step.
  all: change (0 =? 0) with true; step.
  all: try (destruct (Z.eqb_spec (n - a) 0) as [E0|E0]; [lia|]); step.
  all: match goal with
       | |- context [ i2c_esp32_transmit ?w ] =>
         destruct (transmit_quiet w) as ([rv ra rcalls] & -> & Hcm & Hc & Hrx & _)
       end; cbn [calls] in Hcm, Hc, Hrx; step.
  all: eexists; eexists; split; [reflexivity|]; step.
  all: split; [reflexivity|].
  all: rewrite ?read_cmds_of_app, ?rx_counts_app, ?cmds_of_app, ?Hc, ?Hrx, ?Hcm;
       split; [|split]; reflexivity.
Qed.

Lemma read_loop_S :
  forall (fuel : nat) (msg : i2c_msg),
    read_loop (S fuel) msg =
    if len msg =? 0 then ret (OK, msg)
    else
      '(r, msg, rd_filled) <- read_chunk msg ;;
      if is_err r then ret (r, msg)
      else
        emit (i2c_hal_read_rxfifo (buf msg) rd_filled) ;;
        let msg := set_buf msg (buf msg + rd_filled) in
        set_cmd_idx 0 ;;
        read_loop fuel msg.
Proof. reflexivity. Qed.

Lemma read_loop_done :
  forall (fuel : nat) (msg : i2c_msg) (w : world),
    len msg = 0 -> read_loop fuel msg w = Some (mk_run (OK, msg) w []).
Proof.
  intros fuel msg w Hz. destruct fuel; cbn [read_loop]; rewrite Hz; reflexivity.
Qed.

(** The read loop ends.  Its READ commands are acknowledged ones that stay
    short of the last byte, then at most the command for the last byte; on
    success the drains add up to the message and the cursor is at its end. *)
Lemma read_loop_spec :
  forall (fuel : nat) (msg : i2c_msg) (w : world),
    0 <= len msg < 2 ^ 32 ->
    (Z.to_nat (len msg) <= fuel)%nat ->
    exists r,
      read_loop fuel msg w = Some r /\
      (1 <= len msg ->
       exists pre tail,
         read_cmds_of (calls r) = pre ++ tail /\
         Forall (fun c => ack_val c = 0 /\ 1 <= byte_num c) pre /\
         sum (map byte_num pre) <= len msg - 1 /\
         (tail = [] \/
          (tail = [read_last_cmd] /\ sum (map byte_num pre) = len msg - 1)) /\
         (fst (value r) = OK -> tail = [read_last_cmd])) /\
      (fst (value r) = OK ->
       sum (rx_counts (calls r)) = len msg /\
       len (snd (value r)) = 0 /\
       buf (snd (value r)) = buf msg + len msg) /\
      (fst (value r) = OK -> 1 <= len msg ->
       exists before,
         cmds_of (calls r) = before ++ [read_last_cmd; stop_cmd; hw_end_cmd]).
Proof.
  induction fuel as [|fuel IH]; intros msg w Hlen Hfuel.
  - assert (Hz : len msg = 0) by lia.
    rewrite read_loop_done by assumption.
    eexists; split; [reflexivity|]. cbn.
    split; [lia|]. split; [intros _; lia | intros _ ?; lia].
  - destruct (Z.eq_dec (len msg) 0) as [Hz|Hnz].
    { rewrite read_loop_done by assumption.
      eexists; split; [reflexivity|]. cbn.
      split; [lia|]. split; [intros _; lia | intros _ ?; lia]. }
    rewrite read_loop_S.
    destruct (Z.eqb_spec (len msg) 0) as [|_]; [contradiction|].
    destruct (read_chunk_spec msg w ltac:(lia))
      as ([v w1 cl] & rc & Hch & Hval & Hcmds & Hrx & Hall).
    cbn [value calls] in Hval, Hcmds, Hrx, Hall. subst v.
    destruct msg as [b n f]. cbn [len buf flags] in *.
    remember (if n >? SOC_I2C_FIFO_LEN then SOC_I2C_FIFO_LEN else n - 1) as a eqn:Hadef.
    assert (Ha : 0 <= a < 255 /\ a <= n - 1 /\ (a = n - 1 \/ (a = SOC_I2C_FIFO_LEN /\ a < n - 1))).
    { subst a. destruct (Z.gtb_spec n SOC_I2C_FIFO_LEN); lia. }
    clear Hadef.
    unfold bind at 1. rewrite Hch. step.
    destruct rc as [|e]; step.
    + (* the chunk was transferred *)
      destruct w1 as [[st cfg idx line] busy answers]. step.
      match goal with
      | |- context [ read_loop fuel ?m ?w' ] =>
        destruct (IH m w')
          as ([[rc2 [b2 n2 f2]] w2 cl2] & Hr2 & Hcmd2 & Hok2 & Hall2)
      end.
      { cbn [len]. destruct (Z.eqb_spec (n - a) 1); lia. }
      { cbn [len]. destruct (Z.eqb_spec (n - a) 1); lia. }
      rewrite Hr2. step. eexists; split; [reflexivity|]. step.
      cbn [value calls len buf fst snd] in Hcmd2, Hok2, Hall2.
      rewrite !read_cmds_of_app, !rx_counts_app, !cmds_of_app, !sum_app,
        Hcmds, Hrx, Hall.
      change (read_cmds_of []) with (@nil i2c_hw_cmd_t).
      change (cmds_of []) with (@nil i2c_hw_cmd_t).
      change (rx_counts []) with (@nil Z).
      destruct (Z.eqb_spec (n - a) 1) as [Hfin|Hfin].
      * (* this was the last chunk *)
        rewrite read_loop_done in Hr2 by reflexivity.
        injection Hr2; intros; subst rc2 b2 n2 f2 w2 cl2.
        split.
        -- intros _. exists (if a =? 0 then [] else [read_cmd a]), [read_last_cmd].
           split; [destruct (a =? 0); reflexivity|].
           split; [destruct (Z.eqb_spec a 0);
                   [constructor | constructor; [cbn; lia | constructor]]|].
           split; [destruct (Z.eqb_spec a 0); cbn; lia|].
           split; [|reflexivity].
           right. split; [reflexivity|]. destruct (Z.eqb_spec a 0); cbn; lia.
        -- split; [intros _; cbn; lia|].
           intros _ _. exists (if a =? 0 then [] else [read_cmd a]).
           destruct (a =? 0); reflexivity.
      * (* more chunks follow *)
        assert (Hfull : a = SOC_I2C_FIFO_LEN /\ a < n - 1) by lia.
        destruct (Z.eqb_spec a 0) as [|_]; [lia|].
        split.
        -- intros _. destruct (Hcmd2 ltac:(lia)) as (pre & tail & E & Hpre & Hsum & Htail & Hsucc).
           exists (read_cmd a :: pre), tail.
           cbn [read_cmds_of cmds_of flat_map filter] in E |- *.
           rewrite E. split; [reflexivity|].
           split; [constructor; [cbn; lia | assumption]|].
           cbn [map sum fold_right byte_num read_cmd]. fold (sum (map byte_num pre)).
           split; [lia|]. split; [|assumption].
           destruct Htail as [?|[? ?]]; [left; assumption | right; split; [assumption | lia]].
        -- split.
           ++ intros Hok. destruct (Hok2 Hok) as (Hs & Hl & Hb).
              cbn [rx_counts flat_map app sum fold_right]. fold (rx_counts cl2).
              fold (sum (rx_counts cl2)).
              cbn [len buf] in Hl, Hb. repeat split; [lia | assumption | lia].
           ++ intros Hok _. destruct (Hall2 Hok ltac:(lia)) as (before & E).
              exists ([read_cmd a; hw_end_cmd] ++ before).
              cbn [cmds_of flat_map app] in E |- *. fold (cmds_of cl2).
              rewrite E. reflexivity.
    + (* the transmission failed *)
      eexists; split; [reflexivity|]. step.
      rewrite !read_cmds_of_app, Hcmds.
      change (read_cmds_of []) with (@nil i2c_hw_cmd_t).
      split; [|split; intros; discriminate].
      intros _. exists (if a =? 0 then [] else [read_cmd a]),
                       (if n - a =? 1 then [read_last_cmd] else []).
      split; [destruct (a =? 0), (n - a =? 1); reflexivity|].
      split; [destruct (Z.eqb_spec a 0); [constructor | constructor; [cbn; lia | constructor]]|].
      split; [destruct (Z.eqb_spec a 0); cbn; lia|].
      split; [|intros; discriminate].
      destruct (Z.eqb_spec (n - a) 1); [right | left; reflexivity].
      split; [reflexivity|]. destruct (Z.eqb_spec a 0); cbn; lia.
Qed.

Lemma write_loop_S :
  forall (fuel : nat) (cmd : i2c_hw_cmd_t) (msg : i2c_msg),
    write_loop (S fuel) cmd msg =
    let wr_filled :=
      u8 (if len msg >? SOC_I2C_FIFO_LEN then SOC_I2C_FIFO_LEN else len msg) in
    let write_pr := buf msg in
    let msg := set_buf msg (buf msg + wr_filled) in
    let msg := set_len msg (u32 (len msg - wr_filled)) in
    let cmd := with_byte_num cmd wr_filled in
    (if wr_filled >? 0 then
       emit (i2c_hal_write_txfifo (tx_buf write_pr) wr_filled) ;;
       write_cmd cmd
     else ret tt) ;;
    cmd <-
      (if (len msg =? 0) && negb (Z.land (flags msg) I2C_MSG_STOP =? 0) then
         write_cmd stop_cmd ;; ret stop_cmd
       else
         write_cmd hw_end_cmd ;; ret cmd) ;;
    emit i2c_hal_enable_master_tx_it ;;
    r <- i2c_esp32_transmit ;;
    if is_err r then ret (r, msg)
    else
      set_cmd_idx 0 ;;
      if len msg =? 0 then ret (OK, msg)
      else write_loop fuel cmd msg.
Proof. reflexivity. Qed.

(** The write loop ends; on success the pushes to the transmit FIFO add up
    to the message and the cursor is at its end. *)
Lemma write_loop_spec :
  forall (fuel : nat) (cmd : i2c_hw_cmd_t) (msg : i2c_msg) (w : world),
    0 <= len msg < 2 ^ 32 ->
    (Z.to_nat (len msg) < fuel)%nat ->
    exists r,
      write_loop fuel cmd msg w = Some r /\
      (fst (value r) = OK ->
       sum (tx_counts (calls r)) = len msg /\
       len (snd (value r)) = 0 /\
       buf (snd (value r)) = buf msg + len msg).
Proof.
  induction fuel as [|fuel IH]; intros cmd msg w Hlen Hfuel; [lia|].
  rewrite write_loop_S.
  destruct msg as [b n f]. destruct w as [[st cfg idx line] busy answers].
  cbn [len buf flags] in *.
  remember (if n >? SOC_I2C_FIFO_LEN then SOC_I2C_FIFO_LEN else n) as k eqn:Hk.
  assert (Hkr : 0 <= k < 255 /\ k <= n /\ (n = 0 \/ 0 < k)).
  { subst k. destruct (Z.gtb_spec n SOC_I2C_FIFO_LEN); lia. }
  clear Hk. cbv zeta. step.
  rewrite (u8_small k) by lia. rewrite (u32_small (n - k)) by lia.
  destruct (k >? 0) eqn:Ek;
    destruct ((n - k =? 0) && negb (Z.land f I2C_MSG_STOP =? 0)) eqn:Estop; step.
  all: match goal with
       | |- context [ i2c_esp32_transmit ?w ] =>
         destruct (transmit_quiet w)
           as ([[|e] [[st' cfg' idx' line'] busy' answers'] cl] & -> & _ & _ & _ & Htx)
       end; cbn [calls] in Htx; step.
  all: try (eexists; split; [reflexivity|]; cbn [fst value]; intros; discriminate).
  all: destruct (Z.eqb_spec (n - k) 0) as [Hend|Hmore]; step.
  all: try (eexists; split; [reflexivity|]; step; intros _;
            rewrite ?tx_counts_app, ?sum_app, ?Htx; cbn;
            repeat split; lia).
  all: match goal with
       | IH' : context [ write_loop ?fu ]
         |- context [ write_loop ?fu ?c ?m ?w' ] =>
         destruct (IH' c m w') as ([[rc2 [b2 n2 f2]] w2 cl2] & -> & Hok2);
           [cbn [len]; lia | cbn [len]; lia |]
       end; step.
  all: eexists; split; [reflexivity|]; step; intros Hok;
       destruct (Hok2 Hok) as (Hs & Hl & Hb); cbn [calls len buf snd value] in Hs, Hl, Hb;
       rewrite ?tx_counts_app, ?sum_app, ?Htx, Hs; cbn;
       repeat split; lia.
Qed.

(** The start of a message path: the command index and the status are set
    and, with RESTART, the address phase runs.  It ends, writes no READ
    command and moves no message data. *)
Lemma msg_start_quiet :
  forall (s : i2c_status_t) (f addr : Z) (w : world),
  exists r,
    (set_cmd_idx 0 ;;
     set_status s ;;
     (if Z.land f I2C_MSG_RESTART =? 0 then ret tt
      else i2c_esp32_write_addr addr)) w = Some r /\
    read_cmds_of (calls r) = [] /\ rx_counts (calls r) = [] /\
    tx_counts (calls r) = [].
Proof.
  intros s f addr [[st cfg idx line] busy answers]. step.
  destruct (Z.land f I2C_MSG_RESTART =? 0); step.
  - eexists; split; [reflexivity|]. cbn. auto.
  - match goal with
    | |- context [ i2c_esp32_write_addr ?a ?w ] =>
      destruct (write_addr_quiet a w) as ([v wa cl] & -> & Hc & Hrx & Htx)
    end.
    cbn [calls] in *. step. eexists; split; [reflexivity|]. step.
    rewrite !read_cmds_of_app, !rx_counts_app, !tx_counts_app, Hc, Hrx, Htx.
    cbn. auto.
Qed.

Lemma bind_start :
  forall {B} (m1 m2 m3 : M unit) (k : M B) (w : world),
    (m1 ;; m2 ;; m3 ;; k) w = ((m1 ;; m2 ;; m3) ;; k) w.
Proof.
  intros B m1 m2 m3 k w. unfold bind.
  destruct (m1 w) as [[v1 w1 c1]|]; [|reflexivity]. cbn [value after calls].
  destruct (m2 w1) as [[v2 w2 c2]|]; [|reflexivity]. cbn [value after calls].
  destruct (m3 w2) as [[v3 w3 c3]|]; [|reflexivity]. cbn [value after calls].
  destruct (k w3) as [[v4 w4 c4]|]; [|reflexivity]. cbn [value after calls].
  rewrite !app_assoc. reflexivity.
Qed.

(** The read path as a whole. *)
Lemma read_msg_spec :
  forall (msg : i2c_msg) (addr : Z) (w : world),
    0 <= len msg < 2 ^ 32 ->
    exists r,
      i2c_esp32_read_msg msg addr w = Some r /\
      (1 <= len msg ->
       exists pre tail,
         read_cmds_of (calls r) = pre ++ tail /\
         Forall (fun c => ack_val c = 0 /\ 1 <= byte_num c) pre /\
         sum (map byte_num pre) <= len msg - 1 /\
         (tail = [] \/
          (tail = [read_last_cmd] /\ sum (map byte_num pre) = len msg - 1)) /\
         (fst (value r) = OK -> tail = [read_last_cmd])) /\
      (fst (value r) = OK ->
       sum (rx_counts (calls r)) = len msg /\
       len (snd (value r)) = 0 /\
       buf (snd (value r)) = buf msg + len msg) /\
      (fst (value r) = OK -> 1 <= len msg ->
       exists before,
         cmds_of (calls r) = before ++ [read_last_cmd; stop_cmd; hw_end_cmd]).
Proof.
  intros msg addr w Hlen. unfold i2c_esp32_read_msg. cbv zeta.
  rewrite bind_start.
  destruct (msg_start_quiet I2C_STATUS_READ (flags msg)
              (u16 (Z.lor addr (BIT 0))) w)
    as ([v0 w0 c0] & Hstart & Hc0 & Hrx0 & _).
  cbn [calls] in Hc0, Hrx0.
  destruct (read_loop_spec (Z.to_nat (len msg)) msg w0 Hlen (Nat.le_refl _))
    as ([v1 w1 c1] & Hloop & Hcmds & Hok & Hall).
  cbn [calls value] in Hcmds, Hok, Hall.
  unfold bind at 1. rewrite Hstart. cbn [value after calls]. rewrite Hloop.
  eexists; split; [reflexivity|]. cbn [value after calls].
  rewrite read_cmds_of_app, rx_counts_app, cmds_of_app, Hc0, Hrx0. cbn [app].
  split; [assumption|]. split; [assumption|].
  intros Hv Hn. destruct (Hall Hv Hn) as (before & E).
  exists (cmds_of c0 ++ before). rewrite E. apply app_assoc.
Qed.

(** Whatever the FIFO capacity, a message one byte longer than the FIFO is
    read in one chunk: when the read returns 0 it has drained all the bytes
    in one go. *)
Lemma read_msg_fifo_plus_one :
  forall (msg : i2c_msg) (addr : Z) (w : world),
    len msg = SOC_I2C_FIFO_LEN + 1 ->
    exists r,
      i2c_esp32_read_msg msg addr w = Some r /\
      (fst (value r) = OK ->
       rx_counts (calls r) = [SOC_I2C_FIFO_LEN + 1]).
Proof.
  intros msg addr w Hlen. unfold i2c_esp32_read_msg. cbv zeta.
  rewrite bind_start.
  destruct (msg_start_quiet I2C_STATUS_READ (flags msg)
              (u16 (Z.lor addr (BIT 0))) w)
    as ([v0 w0 c0] & Hstart & _ & Hrx0 & _).
  cbn [calls] in Hrx0.
  unfold bind at 1. rewrite Hstart. cbn [value after calls].
  destruct (Z.to_nat (len msg)) as [|fuel] eqn:Efuel; [lia|].
  rewrite read_loop_S.
  destruct (Z.eqb_spec (len msg) 0) as [|_]; [lia|].
  destruct (read_chunk_spec msg w0 ltac:(lia))
    as ([v w1 cl] & rc & Hch & Hval & _ & Hrx & _).
  cbn [value calls] in Hval, Hrx. subst v.
  rewrite Hlen in Hch.
  destruct (Z.gtb_spec (SOC_I2C_FIFO_LEN + 1) SOC_I2C_FIFO_LEN) as [_|]; [|lia].
  replace (SOC_I2C_FIFO_LEN + 1 - SOC_I2C_FIFO_LEN) with 1 in Hch by lia.
  change (1 =? 1) with true in Hch. cbv iota in Hch.
  unfold bind at 1. rewrite Hch. step.
  destruct rc as [|e]; step.
  - destruct w1 as [[st cfg idx line] busy answers]. step.
    rewrite read_loop_done by reflexivity. step.
    eexists; split; [reflexivity|]. step. intros _.
    rewrite !rx_counts_app, Hrx0, Hrx. reflexivity.
  - eexists; split; [reflexivity|]. step. intros; discriminate.
Qed.

(** The write path as a whole. *)
Lemma write_msg_spec :
  forall (msg : i2c_msg) (addr : Z) (w : world),
    0 <= len msg < 2 ^ 32 ->
    exists r,
      i2c_esp32_write_msg msg addr w = Some r /\
      (fst (value r) = OK ->
       sum (tx_counts (calls r)) = len msg /\
       len (snd (value r)) = 0 /\
       buf (snd (value r)) = buf msg + len msg).
Proof.
  intros msg addr w Hlen. unfold i2c_esp32_write_msg. cbv zeta.
  rewrite bind_start.
  destruct (msg_start_quiet I2C_STATUS_WRITE (flags msg) addr w)
    as ([v0 w0 c0] & Hstart & _ & _ & Htx0).
  cbn [calls] in Htx0.
  destruct (write_loop_spec (S (Z.to_nat (len msg)))
              (mk_cmd I2C_LL_CMD_WRITE true 0 0 0) msg w0 Hlen (Nat.lt_succ_diag_r _))
    as ([v1 w1 c1] & Hloop & Hok).
  cbn [calls value] in Hok.
  unfold bind at 1. rewrite Hstart. cbn [value after calls]. rewrite Hloop.
  eexists; split; [reflexivity|]. cbn [value after calls].
  rewrite tx_counts_app, Htx0. cbn [app]. assumption.
Qed.

End Loops.

(** ** The message paths *)



(** The READ commands of successful reads of 1, 2, 32, 33 and 70 bytes on
    the ESP32, as byte count and ack_val. *)
Example read_cmds_examples :
  map (fun n =>
         option_map
           (fun r => (fst (value r),
                      map (fun c => (byte_num c, ack_val c))
                          (read_cmds_of (calls r))))
           (@i2c_esp32_read_msg esp32_headers (mk_msg 1000 n 5) 160
              (world0 (repeat (Some I2C_INTR_EVENT_TRANS_DONE) 3))))
      [1; 2; 32; 33; 70] =
  [Some (OK, [(1, 1)]);
   Some (OK, [(1, 0); (1, 1)]);
   Some (OK, [(31, 0); (1, 1)]);
   Some (OK, [(32, 0); (1, 1)]);
   Some (OK, [(32, 0); (32, 0); (5, 0); (1, 1)])].
Proof. vm_compute. reflexivity. Qed.

(** C2.  For a message longer than the FIFO both paths end, and when a
    path returns 0 the byte counts it pushed to the transmit FIFO (write) or
    drained from the receive FIFO (read) add up to the length of the
    message, [msg->len] is 0 and [msg->buf] has advanced by that length. *)
Theorem chunks_cover_message :
  forall (H : Headers) (msg : i2c_msg) (addr : Z) (w : world),
    0 < SOC_I2C_FIFO_LEN < 255 ->
    SOC_I2C_FIFO_LEN < len msg < 2 ^ 32 ->
    (exists r,
       i2c_esp32_write_msg msg addr w = Some r /\
       (fst (value r) = OK ->
        sum (tx_counts (calls r)) = len msg /\
        len (snd (value r)) = 0 /\
        buf (snd (value r)) = buf msg + len msg)) /\
    (exists r,
       i2c_esp32_read_msg msg addr w = Some r /\
       (fst (value r) = OK ->
        sum (rx_counts (calls r)) = len msg /\
        len (snd (value r)) = 0 /\
        buf (snd (value r)) = buf msg + len msg)).
Proof.
  intros H msg addr w Hfifo Hlen. split.
  - apply (write_msg_spec Hfifo). lia.
  - destruct (read_msg_spec Hfifo msg addr w ltac:(lia)) as (r & Hr & _ & Hok & _).
    exists r. split; assumption.
Qed.

(** A message of 70 bytes on the ESP32, every chunk of which completes. *)
Lemma chunks_cover_message_witness :
  (exists r,
     @i2c_esp32_write_msg esp32_headers (mk_msg 1000 70 6) 160
        (world0 (repeat (Some I2C_INTR_EVENT_TRANS_DONE) 3)) = Some r /\
     (fst (value r) = OK ->
      sum (tx_counts (calls r)) = 70 /\
      len (snd (value r)) = 0 /\ buf (snd (value r)) = 1000 + 70)) /\
  (exists r,
     @i2c_esp32_read_msg esp32_headers (mk_msg 1000 70 7) 160
        (world0 (repeat (Some I2C_INTR_EVENT_TRANS_DONE) 3)) = Some r /\
     (fst (value r) = OK ->
      sum (rx_counts (calls r)) = 70 /\
      len (snd (value r)) = 0 /\ buf (snd (value r)) = 1000 + 70)).
Proof.
  split.
  - apply (chunks_cover_message esp32_headers (mk_msg 1000 70 6) 160
             (world0 (repeat (Some I2C_INTR_EVENT_TRANS_DONE) 3)));
      cbn; lia.
  - apply (chunks_cover_message esp32_headers (mk_msg 1000 70 7) 160
             (world0 (repeat (Some I2C_INTR_EVENT_TRANS_DONE) 3)));
      cbn; lia.
Defined.

(** Both paths return 0 on 70 bytes when every chunk completes: the chunks
    and the message afterwards. *)
Example chunks_of_70_bytes :
  option_map (fun r => (value r, tx_counts (calls r)))
    (@i2c_esp32_write_msg esp32_headers (mk_msg 1000 70 6) 160
       (world0 (repeat (Some I2C_INTR_EVENT_TRANS_DONE) 3))) =
  Some (OK, mk_msg 1070 0 6, [32; 32; 6]) /\
  option_map (fun r => (value r, rx_counts (calls r)))
    (@i2c_esp32_read_msg esp32_headers (mk_msg 1000 70 7) 160
       (world0 (repeat (Some I2C_INTR_EVENT_TRANS_DONE) 3))) =
  Some (OK, mk_msg 1070 0 7, [32; 32; 6]).
Proof. vm_compute. split; reflexivity. Qed.

(** Whatever its flags, a read message that is read to its end has the
    STOP command queued right after the READ command of its last byte. *)
Lemma read_msg_always_stops :
  forall (H : Headers) (msg : i2c_msg) (addr : Z) (w : world),
    0 < SOC_I2C_FIFO_LEN < 255 ->
    1 <= len msg < 2 ^ 32 ->
    exists r,
      i2c_esp32_read_msg msg addr w = Some r /\
      (fst (value r) = OK ->
       exists before,
         cmds_of (calls r) =
           before ++ [mk_cmd I2C_LL_CMD_READ false 0 1 1;
                      mk_cmd I2C_LL_CMD_STOP false 0 0 0;
                      mk_cmd I2C_LL_CMD_END false 0 0 0]).
Proof.
  intros H msg addr w Hfifo Hlen.
  destruct (read_msg_spec Hfifo msg addr w ltac:(lia)) as (r & Hr & _ & _ & Hall).
  exists r. split; [exact Hr|]. intros Hok. apply Hall; [exact Hok | lia].
Qed.

(** C4: the code does not do this.  A transfer of a one-byte read followed
    by a one-byte write with RESTART passes validation; its first message
    reaches the read path without the STOP flag, and the read path still
    writes a STOP command after the READ command of the last byte. *)
Lemma read_path_stops_without_stop_flag :
  Z.land (1 + @I2C_MSG_RESTART esp32_headers) (@I2C_MSG_STOP esp32_headers) = 0 /\
  option_map (fun r => (fst (value r), map op_code (cmds_of (calls r))))
    (@i2c_esp32_read_msg esp32_headers (mk_msg 1000 1 5) 161
       (world0 [Some I2C_INTR_EVENT_TRANS_DONE])) =
  Some (OK, [I2C_LL_CMD_RESTART; I2C_LL_CMD_WRITE; I2C_LL_CMD_READ;
             I2C_LL_CMD_STOP; I2C_LL_CMD_END]) /\
  option_map (fun r => (fst (value r), map op_code (cmds_of (calls r))))
    (@i2c_esp32_transfer esp32_headers
       [mk_msg 1000 1 1; mk_msg 2000 1 4] 80
       (world0 (repeat (Some I2C_INTR_EVENT_TRANS_DONE) 2))) =
  Some (OK, [I2C_LL_CMD_RESTART; I2C_LL_CMD_WRITE; I2C_LL_CMD_READ;
             I2C_LL_CMD_STOP; I2C_LL_CMD_END;
             I2C_LL_CMD_RESTART; I2C_LL_CMD_WRITE; I2C_LL_CMD_WRITE;
             I2C_LL_CMD_STOP]).
Proof. vm_compute. repeat split; reflexivity. Qed.

(** C7: the code does not do this.  On the ESP32 (FIFO of 32 bytes) a read
    of 33 bytes queues READ commands for 32 bytes and for the last byte in
    one chunk and then drains 33 bytes from the receive FIFO at once. *)
Lemma read_drains_more_than_fifo :
  @SOC_I2C_FIFO_LEN esp32_headers = 32 /\
  option_map (fun r => (fst (value r), rx_counts (calls r)))
    (@i2c_esp32_read_msg esp32_headers (mk_msg 1000 33 7) 161
       (world0 [Some I2C_INTR_EVENT_TRANS_DONE])) =
  Some (OK, [33]).
Proof. vm_compute. split; reflexivity. Qed.

(** * Further properties of the driver *)

(** ** Clock source, configuration and the outcome of a transmission *)

(** X1.  Whatever clock sources the SoC supports, [i2c_get_clk_src] answers
    either the first source of the table or [I2C_SCLK_MAX]: the limits of the
    sources fall along the table, so a source after the first is never
    selected. *)
Theorem clk_src_first_or_none :
  forall (H : Headers) (clk_freq : Z),
    i2c_get_clk_src clk_freq = I2C_SCLK_DEFAULT + 1 \/
    i2c_get_clk_src clk_freq = I2C_SCLK_MAX.
Proof.
  intros [fifo apb xtal rtc ref rw rd stop restart a10 master] clk_freq.
  unfold i2c_get_clk_src, I2C_SCLK_MAX, I2C_SCLK_DEFAULT, i2c_clk_alloc.
  cbn [SOC_I2C_SUPPORT_APB SOC_I2C_SUPPORT_XTAL SOC_I2C_SUPPORT_RTC
       SOC_I2C_SUPPORT_REF_TICK].
  destruct apb, xtal, rtc, ref; simpl;
    repeat match goal with
           | |- context [ ?f <=? ?b ] => destruct (Z.leb_spec f b)
           end;
    change I2C_CLK_LIMIT_APB with 4000000 in *;
    change I2C_CLK_LIMIT_XTAL with 2000000 in *;
    change I2C_CLK_LIMIT_RTC with 1000000 in *;
    change I2C_CLK_LIMIT_REF_TICK with 50000 in *;
    first [left; reflexivity | right; reflexivity | lia].
Qed.

(** X2.  Configuration ends with 0 or -ENOTSUP, and with 0 exactly when the
    mode has the master bit and the bitrate is not zero.  Without the master
    bit it touches nothing.  With it the mode is stored in the driver data
    even when the bitrate is then refused.  The interrupt line is enabled
    exactly when configuration returns 0. *)
Theorem configure_outcomes :
  forall (H : Headers) (config : i2c_esp32_config) (dev_cfg : Z) (w : world),
  exists r,
    i2c_esp32_configure config dev_cfg w = Some r /\
    (value r = OK \/ value r = ERR ENOTSUP) /\
    (value r = OK <->
     Z.land dev_cfg I2C_MODE_MASTER <> 0 /\ bitrate config <> 0) /\
    (Z.land dev_cfg I2C_MODE_MASTER = 0 -> calls r = [] /\ after r = w) /\
    (Z.land dev_cfg I2C_MODE_MASTER <> 0 ->
     dev_config (drv (after r)) = dev_cfg) /\
    count_call is_irq_enable (calls r) =
      (if is_err (value r) then 0%nat else 1%nat) /\
    status (drv (after r)) = status (drv w) /\
    cmd_idx (drv (after r)) = cmd_idx (drv w).
Proof.
  intros H [idx tx rx dflt rate] dev_cfg [[st cfg i line] busy answers].
  unfold i2c_esp32_configure.
  destruct (Z.eqb_spec (Z.land dev_cfg I2C_MODE_MASTER) 0) as [Hm|Hm].
  - ran. repeat split; auto; try tauto; intros; try discriminate; tauto.
  - cbn [bitrate]. destruct (Z.eqb_spec rate 0) as [->|Hrate].
    + ran. repeat split; auto; try tauto; intros; try discriminate; tauto.
    + ran. repeat split; auto; try tauto.
Qed.

(** X3.  What a transmission returns for each event the hardware reports
    while a message path waits (the status is READ or WRITE): -EFAULT for
    NACK, without a reset; -ETIMEDOUT for bus timeout and for arbitration
    loss, with one FSM reset; 0 for every other event class, the error
    class included, without a reset. *)
Theorem transmit_result_of_event :
  forall (w : world) (hw_evt : i2c_intr_event_t)
         (rest : list (option i2c_intr_event_t)),
    status (drv w) = I2C_STATUS_READ \/ status (drv w) = I2C_STATUS_WRITE ->
    irq w = Some hw_evt :: rest ->
    exists r,
      i2c_esp32_transmit w = Some r /\
      value r =
        match hw_evt with
        | I2C_INTR_EVENT_NACK => ERR EFAULT
        | I2C_INTR_EVENT_TOUT | I2C_INTR_EVENT_ARBIT_LOST => ERR ETIMEDOUT
        | _ => OK
        end /\
      count_call is_fsm_reset (calls r) =
        match hw_evt with
        | I2C_INTR_EVENT_TOUT | I2C_INTR_EVENT_ARBIT_LOST => 1%nat
        | _ => 0%nat
        end /\
      irq (after r) = rest.
Proof.
  intros [[st cfg idx line] busy answers] hw_evt rest Hst Hirq.
  cbn [drv status irq] in Hst, Hirq. subst answers.
  destruct Hst as [-> | ->]; destruct hw_evt; ran; auto.
Qed.

(** A read segment that the slave does not acknowledge. *)
Lemma transmit_result_of_event_witness :
  exists r,
    i2c_esp32_transmit
      (mk_world (mk_data I2C_STATUS_READ 0 3 0) [] [Some I2C_INTR_EVENT_NACK])
      = Some r /\
    value r = ERR EFAULT /\
    count_call is_fsm_reset (calls r) = 0%nat /\
    irq (after r) = [].
Proof.
  apply (transmit_result_of_event
           (mk_world (mk_data I2C_STATUS_READ 0 3 0) []
                     [Some I2C_INTR_EVENT_NACK])
           I2C_INTR_EVENT_NACK []).
  - left; reflexivity.
  - reflexivity.
Defined.

(** ** What the message paths do and leave alone *)

Lemma cmd_indices_app :
  forall a b, cmd_indices (a ++ b) = cmd_indices a ++ cmd_indices b.
Proof. intros; unfold cmd_indices; apply flat_map_app. Qed.

Lemma tx_pushes_app :
  forall a b, tx_pushes (a ++ b) = tx_pushes a ++ tx_pushes b.
Proof. intros; unfold tx_pushes; apply flat_map_app. Qed.

Lemma addr_bytes_app :
  forall a b, addr_bytes (a ++ b) = addr_bytes a ++ addr_bytes b.
Proof. intros; unfold addr_bytes; apply flat_map_app. Qed.

Lemma write_cmds_of_app :
  forall a b, write_cmds_of (a ++ b) = write_cmds_of a ++ write_cmds_of b.
Proof. intros; unfold write_cmds_of; rewrite cmds_of_app; apply filter_app. Qed.

Lemma count_call_app :
  forall p a b, count_call p (a ++ b) = (count_call p a + count_call p b)%nat.
Proof. intros; unfold count_call; rewrite filter_app; apply length_app. Qed.

(** Splits every reading of a composed log into readings of its parts. *)
Ltac logs :=
  rewrite ?cmds_of_app, ?read_cmds_of_app, ?write_cmds_of_app, ?rx_counts_app,
    ?tx_counts_app, ?tx_pushes_app, ?addr_bytes_app, ?cmd_indices_app,
    ?count_call_app, ?map_app, ?sum_app.

Ltac conj := repeat match goal with |- _ /\ _ => split end.

(** A transmission returns a segment code, makes segment calls only, among
    them one start of the hardware, and writes no command and moves no
    data. *)
Lemma transmit_frame :
  forall (w : world),
  exists r,
    i2c_esp32_transmit w = Some r /\
    is_segment_code (value r) = true /\
    Forall (fun c => is_segment_call c = true) (calls r) /\
    cmds_of (calls r) = [] /\
    cmd_indices (calls r) = [] /\
    tx_pushes (calls r) = [] /\
    rx_counts (calls r) = [] /\
    count_call is_trans_start (calls r) = 1%nat /\
    cmd_idx (drv (after r)) = cmd_idx (drv w) /\
    keeps_config w r.
Proof.
  intros [[st cfg idx line] busy answers]. unfold keeps_config.
  destruct answers as [|[hw_evt|] answers].
  - ran. conj; auto; repeat constructor.
  - destruct st, hw_evt; ran; conj; auto; repeat constructor.
  - ran. conj; auto; repeat constructor.
Qed.

(** Closes a goal about a log made of explicit calls and of the logs of
    runs already described. *)
Ltac log_facts :=
  logs; rewrite ?Forall_app;
  repeat match goal with
         | Hq : ?f ?l = _ |- context [ ?f ?l ] => rewrite Hq
         end;
  cbn [cmds_of read_cmds_of write_cmds_of rx_counts tx_counts tx_pushes
       addr_bytes cmd_indices count_call flat_map filter app map length
       is_read is_write is_trans_start is_segment_call is_transfer_sem
       op_code ack_en ack_val byte_num sum fold_right
       read_cmd read_last_cmd stop_cmd hw_end_cmd cmd_of with_byte_num];
  conj; intros; conj;
  repeat match goal with
         | |- Forall _ [] => apply Forall_nil
         | |- Forall _ (_ :: _) => apply Forall_cons
         end;
  cbn beta;
  cbn [is_segment_call is_transfer_sem op_code ack_en ack_val byte_num
       read_cmd read_last_cmd stop_cmd hw_end_cmd cmd_of with_byte_num];
  try match goal with
      | |- _ <> _ => discriminate
      | |- _ = _ =>
        first [ reflexivity | assumption | lia | congruence | exfalso; lia ]
      | |- _ => first [ assumption | lia | exfalso; lia ]
      end.

(** A log without pushes to the transmit FIFO holds neither message data
    nor address bytes. *)
Lemma no_push_no_bytes :
  forall cs, tx_pushes cs = [] -> tx_counts cs = [] /\ addr_bytes cs = [].
Proof.
  induction cs as [|c cs IH]; intros Hp; [split; reflexivity|].
  destruct c; cbn in Hp |- *; try discriminate; auto.
Qed.

Lemma segment_call_not_lock :
  forall c, is_segment_call c = true -> is_transfer_sem c = false.
Proof. intros [] Hc; try discriminate; try reflexivity; destruct s; auto. Qed.

Section Frames.
Context {H : Headers}.
Hypothesis fifo_len : 0 < SOC_I2C_FIFO_LEN < 255.

(** The address phase: what it writes and pushes. *)
Lemma write_addr_frame :
  forall (addr : Z) (w : world),
    cmd_idx (drv w) = 0 ->
  exists r,
    i2c_esp32_write_addr addr w = Some r /\
    Forall (fun c => is_segment_call c = true) (calls r) /\
    Forall (fun i => 0 <= i < 2) (cmd_indices (calls r)) /\
    cmd_idx (drv (after r)) = 2 /\
    status (drv (after r)) = status (drv w) /\
    read_cmds_of (calls r) = [] /\
    rx_counts (calls r) = [] /\
    tx_counts (calls r) = [] /\
    Forall (fun c => op_code c <> I2C_LL_CMD_STOP) (cmds_of (calls r)) /\
    Forall (fun c => ack_en c = true) (write_cmds_of (calls r)) /\
    sum (map byte_num (write_cmds_of (calls r))) = sum (tx_pushes (calls r)) /\
    addr_bytes (calls r) =
      (if Z.land (dev_config (drv w)) I2C_ADDR_10_BITS =? 0
       then [Z.land addr 255]
       else [Z.land addr 255; Z.land (Z.shiftr addr 8) 255]) /\
    count_call is_trans_start (calls r) = 0%nat /\
    keeps_config w r.
Proof.
  intros addr [[st cfg idx line] busy answers] Hidx. unfold keeps_config.
  cbn [drv cmd_idx] in Hidx. subst idx.
  unfold i2c_esp32_write_addr. step.
  destruct (Z.land cfg I2C_ADDR_10_BITS =? 0) eqn:E10; step;
    (eexists; split; [reflexivity|]); step; log_facts.
Qed.

(** The start of a message path (see [msg_start_quiet]): what it writes and
    pushes. *)
Lemma msg_start_frame :
  forall (s : i2c_status_t) (f addr : Z) (w : world),
  exists r,
    (set_cmd_idx 0 ;;
     set_status s ;;
     (if Z.land f I2C_MSG_RESTART =? 0 then ret tt
      else i2c_esp32_write_addr addr)) w = Some r /\
    Forall (fun c => is_segment_call c = true) (calls r) /\
    Forall (fun i => 0 <= i < 2) (cmd_indices (calls r)) /\
    0 <= cmd_idx (drv (after r)) <= 2 /\
    status (drv (after r)) = s /\
    read_cmds_of (calls r) = [] /\
    rx_counts (calls r) = [] /\
    tx_counts (calls r) = [] /\
    Forall (fun c => op_code c <> I2C_LL_CMD_STOP) (cmds_of (calls r)) /\
    Forall (fun c => ack_en c = true) (write_cmds_of (calls r)) /\
    sum (map byte_num (write_cmds_of (calls r))) = sum (tx_pushes (calls r)) /\
    addr_bytes (calls r) =
      (if Z.land f I2C_MSG_RESTART =? 0 then []
       else if Z.land (dev_config (drv w)) I2C_ADDR_10_BITS =? 0
            then [Z.land addr 255]
            else [Z.land addr 255; Z.land (Z.shiftr addr 8) 255]) /\
    count_call is_trans_start (calls r) = 0%nat /\
    keeps_config w r.
Proof.
  intros s f addr [[st cfg idx line] busy answers]. unfold keeps_config. step.
  destruct (Z.land f I2C_MSG_RESTART =? 0) eqn:Er; step.
  - eexists; split; [reflexivity|]. step. log_facts.
  - match goal with
    | |- context [ i2c_esp32_write_addr ?a ?w ] =>
      destruct (write_addr_frame a w eq_refl)
        as ([v [[st' cfg' idx' line'] busy' answers'] cl] & -> & Hseg & Hidx
            & Hci & Hst & Hrd & Hrx & Htx & Hstop & Hack & Hsum & Hab & Hts
            & Hcfg & Hline & Hbusy)
    end.
    cbn [calls after value drv cmd_idx status dev_config irq_line bus_busy] in *.
    subst. step. eexists; split; [reflexivity|]. step. log_facts.
Qed.

(** One chunk of the read path (see [read_chunk_spec]): what it writes and
    leaves alone. *)
Lemma read_chunk_frame :
  forall (msg : i2c_msg) (w : world),
    1 <= len msg < 2 ^ 32 ->
    0 <= cmd_idx (drv w) <= 2 ->
    let n := len msg in
    let a := if n >? SOC_I2C_FIFO_LEN then SOC_I2C_FIFO_LEN else n - 1 in
    let final := n - a =? 1 in
    exists r rc,
      read_chunk msg w = Some r /\
      value r = (rc, set_len msg (if final then 0 else n - a),
                 if final then a + 1 else a) /\
      is_segment_code rc = true /\
      Forall (fun c => is_segment_call c = true) (calls r) /\
      Forall (fun i => 0 <= i < 6) (cmd_indices (calls r)) /\
      Forall (fun c => 1 <= byte_num c <= SOC_I2C_FIFO_LEN)
             (read_cmds_of (calls r)) /\
      write_cmds_of (calls r) = [] /\
      tx_pushes (calls r) = [] /\
      count_call is_trans_start (calls r) = 1%nat /\
      keeps_config w r.
Proof.
  intros msg [[st cfg idx line] busy answers] Hlen Hidx n a final.
  cbn [drv cmd_idx] in Hidx. unfold keeps_config.
  assert (Ha : 0 <= a < 255 /\ a <= n - 1 /\ a <= SOC_I2C_FIFO_LEN).
  { subst a. destruct (Z.gtb_spec n SOC_I2C_FIFO_LEN); lia. }
  unfold read_chunk. fold n. fold a.
  rewrite (u8_small a) by lia.
  rewrite (u32_small (n - a)) by lia.
  rewrite (u8_small (a + 1)) by lia.
  subst final. step. clearbody a. clearbody n.
  destruct (Z.eqb_spec a 0) as [Ea|Ea]; destruct (n - a =? 1) eqn:Ef; step.
  all: change (0 =? 0) with true; step.
  all: try (destruct (Z.eqb_spec (n - a) 0) as [E0|E0]; [lia|]); step.
  all: match goal with
       | |- context [ i2c_esp32_transmit ?w ] =>
         destruct (transmit_frame w)
           as ([rv [[st' cfg' idx' line'] busy' answers'] rcalls] & -> & Hcode
               & Hseg & Hcm & Hci & Htp & Hrx & Hts & Hidx' & Hcfg & Hline
               & Hbusy)
       end;
       cbn [calls after value drv cmd_idx status dev_config irq_line bus_busy]
         in *; step.
  all: eexists; eexists; split; [reflexivity|]; step.
  all: split; [reflexivity|].
  all: unfold read_cmds_of, write_cmds_of; log_facts.
Qed.

(** The read loop (see [read_loop_spec]): what it writes and leaves
    alone. *)
Lemma read_loop_frame :
  forall (fuel : nat) (msg : i2c_msg) (w : world),
    0 <= len msg < 2 ^ 32 ->
    (Z.to_nat (len msg) <= fuel)%nat ->
    0 <= cmd_idx (drv w) <= 2 ->
    exists r,
      read_loop fuel msg w = Some r /\
      is_segment_code (fst (value r)) = true /\
      flags (snd (value r)) = flags msg /\
      Forall (fun c => is_segment_call c = true) (calls r) /\
      Forall (fun i => 0 <= i < 6) (cmd_indices (calls r)) /\
      Forall (fun c => 1 <= byte_num c <= SOC_I2C_FIFO_LEN)
             (read_cmds_of (calls r)) /\
      write_cmds_of (calls r) = [] /\
      tx_pushes (calls r) = [] /\
      (len msg = 0 -> count_call is_trans_start (calls r) = 0%nat) /\
      keeps_config w r.
Proof.
  induction fuel as [|fuel IH]; intros msg w Hlen Hfuel Hidx.
  - assert (Hz : len msg = 0) by lia.
    rewrite read_loop_done by assumption.
    eexists; split; [reflexivity|]. unfold keeps_config. cbn. conj; auto.
  - destruct (Z.eq_dec (len msg) 0) as [Hz|Hnz].
    { rewrite read_loop_done by assumption.
      eexists; split; [reflexivity|]. unfold keeps_config. cbn. conj; auto. }
    rewrite read_loop_S.
    destruct (Z.eqb_spec (len msg) 0) as [|_]; [contradiction|].
    destruct (read_chunk_frame msg w ltac:(lia) Hidx)
      as ([v [[st1 cfg1 idx1 line1] busy1 answers1] cl] & rc & Hch & Hval
          & Hcode & Hseg & Hci & Hrd & Hwr & Htp & Hts & Hcfg & Hline & Hbusy).
    destruct w as [[st cfg idx line] busy answers].
    cbn [calls after value drv cmd_idx status dev_config irq_line bus_busy]
      in *. subst v.
    destruct msg as [b n f]. cbn [len buf flags] in *.
    remember (if n >? SOC_I2C_FIFO_LEN then SOC_I2C_FIFO_LEN else n - 1) as a eqn:Hadef.
    assert (Ha : 0 <= a < 255 /\ a <= n - 1 /\
                 (a = n - 1 \/ (a = SOC_I2C_FIFO_LEN /\ a < n - 1))).
    { subst a. destruct (Z.gtb_spec n SOC_I2C_FIFO_LEN); lia. }
    clear Hadef. unfold keeps_config.
    unfold bind at 1. rewrite Hch. step.
    destruct rc as [|e]; step.
    + match goal with
      | |- context [ read_loop fuel ?m ?w' ] =>
        destruct (IH m w')
          as ([[rc2 [b2 n2 f2]] [[st2 cfg2 idx2 line2] busy2 answers2] cl2]
              & -> & Hcode2 & Hf2 & Hseg2 & Hci2 & Hrd2 & Hwr2 & Htp2 & _
              & Hcfg2 & Hline2 & Hbusy2)
      end.
      { cbn [len]. destruct (Z.eqb_spec (n - a) 1); lia. }
      { cbn [len]. destruct (Z.eqb_spec (n - a) 1); lia. }
      { cbn [drv cmd_idx]. lia. }
      cbn [calls after value drv cmd_idx status dev_config irq_line bus_busy
           fst snd flags len buf] in *.
      subst. step. eexists; split; [reflexivity|]. step.
      log_facts.
    + eexists; split; [reflexivity|]. step. subst. log_facts.
Qed.

(** The write loop (see [write_loop_spec]): what it writes and leaves
    alone. *)
Lemma write_loop_frame :
  forall (fuel : nat) (cmd : i2c_hw_cmd_t) (msg : i2c_msg) (w : world),
    0 <= len msg < 2 ^ 32 ->
    (Z.to_nat (len msg) < fuel)%nat ->
    0 <= cmd_idx (drv w) <= 2 ->
    is_write cmd = true ->
    ack_en cmd = true ->
    exists r,
      write_loop fuel cmd msg w = Some r /\
      is_segment_code (fst (value r)) = true /\
      flags (snd (value r)) = flags msg /\
      Forall (fun c => is_segment_call c = true) (calls r) /\
      Forall (fun i => 0 <= i < 4) (cmd_indices (calls r)) /\
      Forall (fun k => 1 <= k <= SOC_I2C_FIFO_LEN) (tx_counts (calls r)) /\
      tx_pushes (calls r) = tx_counts (calls r) /\
      map byte_num (write_cmds_of (calls r)) = tx_counts (calls r) /\
      Forall (fun c => ack_en c = true) (write_cmds_of (calls r)) /\
      read_cmds_of (calls r) = [] /\
      rx_counts (calls r) = [] /\
      addr_bytes (calls r) = [] /\
      (len msg = 0 ->
       tx_counts (calls r) = [] /\
       count_call is_trans_start (calls r) = 1%nat) /\
      keeps_config w r.
Proof.
  induction fuel as [|fuel IH]; intros cmd msg w Hlen Hfuel Hidx Hw Hack; [lia|].
  rewrite write_loop_S.
  destruct cmd as [[] ae ax av bn]; try discriminate. cbn [ack_en] in Hack. subst ae.
  destruct msg as [b n f]. destruct w as [[st cfg idx line] busy answers].
  cbn [len buf flags drv cmd_idx] in *. unfold keeps_config.
  remember (if n >? SOC_I2C_FIFO_LEN then SOC_I2C_FIFO_LEN else n) as k eqn:Hk.
  assert (Hkr : 0 <= k < 255 /\ k <= n /\ k <= SOC_I2C_FIFO_LEN /\
                (n = 0 \/ 0 < k)).
  { subst k. destruct (Z.gtb_spec n SOC_I2C_FIFO_LEN); lia. }
  clear Hk. cbv zeta. step.
  rewrite (u8_small k) by lia. rewrite (u32_small (n - k)) by lia.
  destruct (Z.gtb_spec k 0) as [Ek|Ek];
    destruct (Z.eqb_spec (n - k) 0) as [Hend|Hmore];
    destruct (Z.land f I2C_MSG_STOP =? 0) eqn:Estop;
    cbn [andb negb]; step.
  all: match goal with
       | |- context [ i2c_esp32_transmit ?w ] =>
         destruct (transmit_frame w)
           as ([rv [[st' cfg' idx' line'] busy' answers'] rcalls] & -> & Hcode
               & Hseg & Hcm & Hci & Htp & Hrx & Hts & Hidx' & Hcfg & Hline
               & Hbusy)
       end;
       cbn [calls after value drv cmd_idx status dev_config irq_line bus_busy]
         in *; step.
  all: destruct (no_push_no_bytes rcalls Htp) as [Htc Hab].
  all: destruct rv as [|e]; step.
  all: try (eexists; split; [reflexivity|]; step; subst;
            unfold read_cmds_of, write_cmds_of; log_facts; fail).
  all: match goal with
       | IH' : context [ write_loop ?fu ]
         |- context [ write_loop ?fu ?c ?m ?w' ] =>
         destruct (IH' c m w')
           as ([[rc2 [b2 n2 f2]] [[st2 cfg2 idx2 line2] busy2 answers2] cl2]
               & -> & Hcode2 & Hf2 & Hseg2 & Hci2 & Htc2 & Htp2 & Hwc2 & Hack2
               & Hrd2 & Hrx2 & Hab2 & _ & Hcfg2 & Hline2 & Hbusy2);
           [cbn [len]; lia | cbn [len]; lia | cbn [drv cmd_idx]; lia
           | reflexivity | reflexivity |]
       end;
       cbn [calls after value drv cmd_idx status dev_config irq_line bus_busy
            fst snd flags len buf] in *; step.
  all: eexists; split; [reflexivity|]; step; subst;
       unfold read_cmds_of, write_cmds_of in *; log_facts.
Qed.

(** The write loop queues STOP only for a message with the STOP flag, and
    then as the last command of the message. *)
Lemma write_loop_final :
  forall (fuel : nat) (cmd : i2c_hw_cmd_t) (msg : i2c_msg) (w : world),
    0 <= len msg < 2 ^ 32 ->
    (Z.to_nat (len msg) < fuel)%nat ->
    is_write cmd = true ->
    exists r,
      write_loop fuel cmd msg w = Some r /\
      (Z.land (flags msg) I2C_MSG_STOP = 0 ->
       Forall (fun c => op_code c <> I2C_LL_CMD_STOP) (cmds_of (calls r))) /\
      (fst (value r) = OK ->
       exists before,
         cmds_of (calls r) =
           before ++ [if Z.land (flags msg) I2C_MSG_STOP =? 0
                      then hw_end_cmd else stop_cmd] /\
         Forall (fun c => op_code c <> I2C_LL_CMD_STOP) before).
Proof.
  induction fuel as [|fuel IH]; intros cmd msg w Hlen Hfuel Hw; [lia|].
  rewrite write_loop_S.
  destruct cmd as [[] ae ax av bn]; try discriminate.
  destruct msg as [b n f]. destruct w as [[st cfg idx line] busy answers].
  cbn [len buf flags drv cmd_idx] in *.
  remember (if n >? SOC_I2C_FIFO_LEN then SOC_I2C_FIFO_LEN else n) as k eqn:Hk.
  assert (Hkr : 0 <= k < 255 /\ k <= n /\ (n = 0 \/ 0 < k)).
  { subst k. destruct (Z.gtb_spec n SOC_I2C_FIFO_LEN); lia. }
  clear Hk. cbv zeta. step.
  rewrite (u8_small k) by lia. rewrite (u32_small (n - k)) by lia.
  destruct (Z.gtb_spec k 0) as [Ek|Ek];
    destruct (Z.eqb_spec (n - k) 0) as [Hend|Hmore];
    destruct (Z.eqb_spec (Z.land f I2C_MSG_STOP) 0) as [Estop|Estop];
    cbn [andb negb]; step.
  all: match goal with
       | |- context [ i2c_esp32_transmit ?w ] =>
         destruct (transmit_frame w)
           as ([rv [[st' cfg' idx' line'] busy' answers'] rcalls] & -> & _
               & _ & Hcm & _)
       end;
       cbn [calls after value drv cmd_idx status dev_config irq_line bus_busy]
         in *; step.
  all: destruct rv as [|e]; step.
  all: try match goal with
       | IH' : context [ write_loop ?fu ]
         |- context [ write_loop ?fu ?c ?m ?w' ] =>
         destruct (IH' c m w') as ([[rc2 m2] w2 cl2] & -> & Hno2 & Hfin2);
           [cbn [len]; lia | cbn [len]; lia | reflexivity |];
         cbn [calls after value fst snd flags] in Hno2, Hfin2; step
       end.
  all: eexists; split; [reflexivity|]; step.
  all: logs; rewrite ?Hcm;
       cbn [cmds_of flat_map app op_code with_byte_num stop_cmd hw_end_cmd
            cmd_of];
       try fold (cmds_of cl2).
  all: split; [intros Hz | intros Hok]; try contradiction; try discriminate.
  all: try (specialize (Hno2 ltac:(assumption)));
       try (destruct (Hfin2 Hok) as (before2 & E2 & Hb2); rewrite E2;
            destruct (Z.eqb_spec (Z.land f I2C_MSG_STOP) 0);
            try contradiction).
  all: try (repeat match goal with
                   | |- Forall _ [] => apply Forall_nil
                   | |- Forall _ (_ :: _) => apply Forall_cons
                   end; cbn; first [discriminate | assumption]).
  all: match goal with
       | |- exists before, ?c1 :: ?c2 :: ?b2 ++ [?x] = before ++ [?x] /\ _ =>
         exists (c1 :: c2 :: b2)
       | |- exists before, ?c1 :: ?b2 ++ [?x] = before ++ [?x] /\ _ =>
         exists (c1 :: b2)
       | |- exists before, [?c1; ?x] = before ++ [?x] /\ _ => exists [c1]
       | |- exists before, [?x] = before ++ [?x] /\ _ => exists []
       end;
       (split; [reflexivity|]);
       repeat match goal with
              | |- Forall _ [] => apply Forall_nil
              | |- Forall _ (_ :: _) => apply Forall_cons
              end; cbn; first [discriminate | assumption].
Qed.

(** The read path as a whole: what it writes and leaves alone. *)
Lemma read_msg_frame :
  forall (msg : i2c_msg) (addr : Z) (w : world),
    0 <= len msg < 2 ^ 32 ->
    exists r,
      i2c_esp32_read_msg msg addr w = Some r /\
      is_segment_code (fst (value r)) = true /\
      flags (snd (value r)) = flags msg /\
      Forall (fun c => is_segment_call c = true) (calls r) /\
      Forall (fun i => 0 <= i < 6) (cmd_indices (calls r)) /\
      Forall (fun c => 1 <= byte_num c <= SOC_I2C_FIFO_LEN)
             (read_cmds_of (calls r)) /\
      Forall (fun c => ack_en c = true) (write_cmds_of (calls r)) /\
      sum (map byte_num (write_cmds_of (calls r))) = sum (tx_pushes (calls r)) /\
      tx_counts (calls r) = [] /\
      addr_bytes (calls r) =
        (if Z.land (flags msg) I2C_MSG_RESTART =? 0 then []
         else if Z.land (dev_config (drv w)) I2C_ADDR_10_BITS =? 0
              then [Z.land (u16 (Z.lor addr (BIT 0))) 255]
              else [Z.land (u16 (Z.lor addr (BIT 0))) 255;
                    Z.land (Z.shiftr (u16 (Z.lor addr (BIT 0))) 8) 255]) /\
      (len msg = 0 -> count_call is_trans_start (calls r) = 0%nat) /\
      keeps_config w r.
Proof.
  intros msg addr w Hlen. unfold i2c_esp32_read_msg. cbv zeta.
  rewrite bind_start.
  destruct (msg_start_frame I2C_STATUS_READ (flags msg)
              (u16 (Z.lor addr (BIT 0))) w)
    as ([v0 w0 c0] & Hstart & Hseg0 & Hci0 & Hidx0 & _ & Hrd0 & _ & Htc0
        & _ & Hack0 & Hsum0 & Hab0 & Hts0 & Hk0).
  cbn [calls after] in *.
  destruct (read_loop_frame (Z.to_nat (len msg)) msg w0 Hlen (Nat.le_refl _) Hidx0)
    as ([v1 w1 c1] & Hloop & Hcode & Hfl & Hseg & Hci & Hrd & Hwr & Htp & Hts & Hk).
  cbn [calls value after] in *.
  unfold bind at 1. rewrite Hstart. cbn [value after calls]. rewrite Hloop.
  eexists; split; [reflexivity|]. cbn [value after calls].
  destruct (no_push_no_bytes c1 Htp) as [Htc1 Hab1].
  unfold keeps_config in *. cbn [after] in *.
  logs. rewrite ?Forall_app, Hrd0, Hwr, Htp, Htc0, Htc1, Hab0, Hab1, Hts0.
  rewrite ?app_nil_r. cbn [sum fold_right map app Nat.add].
  conj; auto; try lia; try (intuition congruence).
  eapply Forall_impl; [|exact Hci0]. cbn. intros; lia.
Qed.

(** The write path as a whole: what it writes and leaves alone. *)
Lemma write_msg_frame :
  forall (msg : i2c_msg) (addr : Z) (w : world),
    0 <= len msg < 2 ^ 32 ->
    exists r,
      i2c_esp32_write_msg msg addr w = Some r /\
      is_segment_code (fst (value r)) = true /\
      flags (snd (value r)) = flags msg /\
      Forall (fun c => is_segment_call c = true) (calls r) /\
      Forall (fun i => 0 <= i < 4) (cmd_indices (calls r)) /\
      Forall (fun k => 1 <= k <= SOC_I2C_FIFO_LEN) (tx_counts (calls r)) /\
      Forall (fun c => ack_en c = true) (write_cmds_of (calls r)) /\
      sum (map byte_num (write_cmds_of (calls r))) = sum (tx_pushes (calls r)) /\
      read_cmds_of (calls r) = [] /\
      rx_counts (calls r) = [] /\
      addr_bytes (calls r) =
        (if Z.land (flags msg) I2C_MSG_RESTART =? 0 then []
         else if Z.land (dev_config (drv w)) I2C_ADDR_10_BITS =? 0
              then [Z.land addr 255]
              else [Z.land addr 255; Z.land (Z.shiftr addr 8) 255]) /\
      (len msg = 0 ->
       tx_counts (calls r) = [] /\
       count_call is_trans_start (calls r) = 1%nat) /\
      (Z.land (flags msg) I2C_MSG_STOP = 0 ->
       Forall (fun c => op_code c <> I2C_LL_CMD_STOP) (cmds_of (calls r))) /\
      (fst (value r) = OK ->
       exists before,
         cmds_of (calls r) =
           before ++ [if Z.land (flags msg) I2C_MSG_STOP =? 0
                      then hw_end_cmd else stop_cmd] /\
         Forall (fun c => op_code c <> I2C_LL_CMD_STOP) before) /\
      keeps_config w r.
Proof.
  intros msg addr w Hlen. unfold i2c_esp32_write_msg. cbv zeta.
  rewrite bind_start.
  destruct (msg_start_frame I2C_STATUS_WRITE (flags msg) addr w)
    as ([v0 w0 c0] & Hstart & Hseg0 & Hci0 & Hidx0 & _ & Hrd0 & Hrx0 & Htc0
        & Hstop0 & Hack0 & Hsum0 & Hab0 & Hts0 & Hk0).
  cbn [calls after] in *.
  destruct (write_loop_frame (S (Z.to_nat (len msg)))
              (mk_cmd I2C_LL_CMD_WRITE true 0 0 0) msg w0 Hlen
              (Nat.lt_succ_diag_r _) Hidx0 eq_refl eq_refl)
    as ([v1 w1 c1] & Hloop & Hcode & Hfl & Hseg & Hci & Htc & Htp & Hwc & Hack
        & Hrd & Hrx & Hab & Hzero & Hk).
  destruct (write_loop_final (S (Z.to_nat (len msg)))
              (mk_cmd I2C_LL_CMD_WRITE true 0 0 0) msg w0 Hlen
              (Nat.lt_succ_diag_r _) eq_refl)
    as (r1' & Hloop' & Hno & Hfin).
  rewrite Hloop in Hloop'. injection Hloop' as <-.
  cbn [calls value after] in *.
  unfold bind at 1. rewrite Hstart. cbn [value after calls]. rewrite Hloop.
  eexists; split; [reflexivity|]. cbn [value after calls].
  unfold keeps_config in *. cbn [after] in *.
  logs. rewrite ?Forall_app, Hrd0, Hrx0, Hrd, Hrx, Htc0, Hab0, Hab, Hts0, Htp, Hwc.
  rewrite ?app_nil_r. cbn [sum fold_right map app Nat.add].
  conj; auto; try lia; try (intuition congruence).
  - eapply Forall_impl; [|exact Hci0]. cbn. intros; lia.
  - intros Hv. destruct (Hfin Hv) as (before & E & Hb).
    exists (cmds_of c0 ++ before). rewrite E, app_assoc.
    split; [reflexivity|]. apply Forall_app. split; assumption.
Qed.

(** The message path the transfer picks for a message. *)
Lemma msg_path_summary :
  forall (msg : i2c_msg) (addr : Z) (w : world),
    0 <= len msg < 2 ^ 32 ->
    exists r,
      (if Z.land (flags msg) I2C_MSG_RW_MASK =? I2C_MSG_READ
       then i2c_esp32_read_msg msg addr
       else i2c_esp32_write_msg msg addr) w = Some r /\
      is_segment_code (fst (value r)) = true /\
      flags (snd (value r)) = flags msg /\
      Forall (fun c => is_segment_call c = true) (calls r) /\
      (fst (value r) = OK -> consumed msg (snd (value r))) /\
      addr_bytes (calls r) = addr_phase_bytes (dev_config (drv w)) addr msg /\
      keeps_config w r.
Proof.
  intros msg addr w Hlen. unfold addr_phase_bytes, consumed.
  destruct (Z.land (flags msg) I2C_MSG_RW_MASK =? I2C_MSG_READ).
  - destruct (read_msg_frame msg addr w Hlen)
      as (r & Hr & Hcode & Hfl & Hseg & _ & _ & _ & _ & _ & Hab & _ & Hk).
    destruct (read_msg_spec fifo_len msg addr w Hlen) as (r' & Hr' & _ & Hok & _).
    rewrite Hr in Hr'. injection Hr' as <-.
    exists r. conj; auto. intros Hv. destruct (Hok Hv) as (_ & ? & ?). auto.
  - destruct (write_msg_frame msg addr w Hlen)
      as (r & Hr & Hcode & Hfl & Hseg & _ & _ & _ & _ & _ & _ & Hab & _ & _ & _ & Hk).
    destruct (write_msg_spec fifo_len msg addr w Hlen) as (r' & Hr' & Hok).
    rewrite Hr in Hr'. injection Hr' as <-.
    exists r. conj; auto. intros Hv. destruct (Hok Hv) as (_ & ? & ?). auto.
Qed.

Lemma transfer_loop_cons :
  forall (msg : i2c_msg) (rest : list i2c_msg) (addr : Z),
    transfer_loop (msg :: rest) addr =
    (d <- get_data ;;
     busy <- (if status_eqb (status d) I2C_STATUS_TIMEOUT then ret true
              else ask_bus_busy) ;;
     (if busy then i2c_hw_fsm_reset else ret tt) ;;
     i2c_esp32_reset_fifo ;;
     emit i2c_hal_disable_intr_mask ;;
     emit i2c_hal_clr_intsts_mask ;;
     '(r, msg) <-
       (if Z.land (flags msg) I2C_MSG_RW_MASK =? I2C_MSG_READ
        then i2c_esp32_read_msg msg addr
        else i2c_esp32_write_msg msg addr) ;;
     if is_err r then ret (r, msg :: rest)
     else
       '(r, rest) <- transfer_loop rest addr ;;
       ret (r, msg :: rest)).
Proof. reflexivity. Qed.

(** The loop over the messages: it stops at the first message that fails,
    never touches the transaction lock, and on success has consumed every
    message. *)
Lemma transfer_loop_frame :
  forall (msgs : list i2c_msg) (addr : Z) (w : world),
    Forall (fun m => 0 <= len m < 2 ^ 32) msgs ->
    exists r,
      transfer_loop msgs addr w = Some r /\
      is_segment_code (fst (value r)) = true /\
      Forall (fun c => is_transfer_sem c = false) (calls r) /\
      map flags (snd (value r)) = map flags msgs /\
      (fst (value r) = OK ->
       Forall2 consumed msgs (snd (value r)) /\
       addr_bytes (calls r) =
         flat_map (addr_phase_bytes (dev_config (drv w)) addr) msgs) /\
      (fst (value r) <> OK ->
       exists pre m suf pre' m',
         msgs = pre ++ m :: suf /\
         snd (value r) = pre' ++ m' :: suf /\
         Forall2 consumed pre pre') /\
      dev_config (drv (after r)) = dev_config (drv w) /\
      irq_line (drv (after r)) = irq_line (drv w).
Proof.
  induction msgs as [|msg rest IH]; intros addr w Hlens.
  - eexists; split; [reflexivity|]. cbn. conj; auto.
    intros Hne; exfalso; apply Hne; reflexivity.
  - inversion Hlens as [|? ? Hlen Hrest]; subst.
    rewrite transfer_loop_cons.
    destruct w as [[st cfg idx line] busy answers]. step.
    unfold ask_bus_busy, i2c_hw_fsm_reset, i2c_esp32_reset_fifo.
    destruct (status_eqb st I2C_STATUS_TIMEOUT); [|destruct busy as [|[] busy]];
      step;
      (match goal with
       | |- context [ (if ?c then i2c_esp32_read_msg ?m ?a
                       else i2c_esp32_write_msg ?m ?a) ?w' ] =>
         destruct (msg_path_summary m a w' Hlen)
           as ([[rc [b1 n1 f1]] [[st1 cfg1 idx1 line1] busy1 answers1] cl]
               & -> & Hcode & Hfl & Hseg & Hok & Hab & Hcfg & Hline & Hbusy)
       end);
      cbn [calls after value drv cmd_idx status dev_config irq_line bus_busy
           fst snd flags len buf] in *; step;
      (assert (Hnl : Forall (fun c => is_transfer_sem c = false) cl)
         by (eapply Forall_impl; [|exact Hseg]; apply segment_call_not_lock));
      (destruct rc as [|e]; step);
      (try match goal with
           | |- context [ transfer_loop rest addr ?w' ] =>
             destruct (IH addr w' Hrest)
               as ([[rc2 rest2] [[st2 cfg2 idx2 line2] busy2 answers2] cl2]
                   & -> & Hcode2 & Hnl2 & Hfl2 & Hok2 & Herr2 & Hcfg2 & Hline2);
             cbn [calls after value drv cmd_idx status dev_config irq_line
                  bus_busy fst snd flags len buf] in *; step
           end);
      (eexists; split; [reflexivity|]; step);
      logs; rewrite ?Forall_app; cbn [addr_bytes flat_map app map];
      subst; conj; auto;
      try (repeat constructor; fail);
      try (f_equal; assumption);
      try (intros Hv; destruct (Hok2 Hv) as [Hc2 Hab2];
           specialize (Hok eq_refl);
           split; [constructor; assumption
                  | fold (addr_bytes cl); fold (addr_bytes cl2);
                    rewrite Hab, Hab2, ?app_nil_r; reflexivity]);
      try (intros Hne; destruct (Herr2 Hne)
             as (pre & m & suf & pre' & m' & E1 & E2 & Hpre);
           eexists (msg :: pre), m, suf, (_ :: pre'), m';
           rewrite E1, E2; conj; try reflexivity;
           constructor; [apply Hok; reflexivity | assumption]);
      try (intros Hv; discriminate);
      try (intros _; exists [], msg, rest, []; eexists;
           conj; try reflexivity; constructor).
Qed.

End Frames.

(** X4.  Both message paths end for every message, return 0, -ETIMEDOUT or
    -EFAULT only, leave the flags of the message as they were, and make
    segment calls only: they never touch the transaction lock, never ask
    whether the bus is busy, never reset a FIFO, never mask interrupts and
    never change the bus configuration.  The configured mode and the
    interrupt line are as before. *)
Theorem msg_paths_stay_in_their_lane :
  forall (H : Headers) (msg : i2c_msg) (addr : Z) (w : world),
    0 < SOC_I2C_FIFO_LEN < 255 ->
    0 <= len msg < 2 ^ 32 ->
    let stays (a : option (run (ret_t * i2c_msg))) :=
      exists r,
        a = Some r /\
        is_segment_code (fst (value r)) = true /\
        flags (snd (value r)) = flags msg /\
        Forall (fun c => is_segment_call c = true) (calls r) /\
        keeps_config w r in
    stays (i2c_esp32_read_msg msg addr w) /\
    stays (i2c_esp32_write_msg msg addr w).
Proof.
  intros H msg addr w Hfifo Hlen stays. subst stays. cbv beta. split.
  - destruct (read_msg_frame Hfifo msg addr w Hlen)
      as (r & Hr & Hcode & Hfl & Hseg & _ & _ & _ & _ & _ & _ & _ & Hk).
    exists r. conj; auto.
  - destruct (write_msg_frame Hfifo msg addr w Hlen)
      as (r & Hr & Hcode & Hfl & Hseg & _ & _ & _ & _ & _ & _ & _ & _ & _ & _ & Hk).
    exists r. conj; auto.
Qed.

(** A read of 40 bytes and a write of 40 bytes on the ESP32. *)
Lemma msg_paths_stay_in_their_lane_witness :
  (exists r,
     @i2c_esp32_read_msg esp32_headers (mk_msg 1000 40 7) 160 (world0 []) = Some r /\
     is_segment_code (fst (value r)) = true /\
     flags (snd (value r)) = 7 /\
     Forall (fun c => is_segment_call c = true) (calls r) /\
     keeps_config (world0 []) r) /\
  (exists r,
     @i2c_esp32_write_msg esp32_headers (mk_msg 1000 40 7) 160 (world0 []) = Some r /\
     is_segment_code (fst (value r)) = true /\
     flags (snd (value r)) = 7 /\
     Forall (fun c => is_segment_call c = true) (calls r) /\
     keeps_config (world0 []) r).
Proof.
  apply (msg_paths_stay_in_their_lane esp32_headers (mk_msg 1000 40 7) 160
           (world0 [])); cbn; lia.
Defined.

(** X5.  The command queue is never written beyond its first six entries:
    the read path writes its commands at indices 0 to 5, the write path at
    indices 0 to 3. *)
Theorem cmd_queue_indices_bounded :
  forall (H : Headers) (msg : i2c_msg) (addr : Z) (w : world),
    0 < SOC_I2C_FIFO_LEN < 255 ->
    0 <= len msg < 2 ^ 32 ->
    (exists r,
       i2c_esp32_read_msg msg addr w = Some r /\
       Forall (fun i => 0 <= i < 6) (cmd_indices (calls r))) /\
    (exists r,
       i2c_esp32_write_msg msg addr w = Some r /\
       Forall (fun i => 0 <= i < 4) (cmd_indices (calls r))).
Proof.
  intros H msg addr w Hfifo Hlen. split.
  - destruct (read_msg_frame Hfifo msg addr w Hlen)
      as (r & Hr & _ & _ & _ & Hci & _).
    exists r. split; assumption.
  - destruct (write_msg_frame Hfifo msg addr w Hlen)
      as (r & Hr & _ & _ & _ & Hci & _).
    exists r. split; assumption.
Qed.

Lemma cmd_queue_indices_bounded_witness :
  (exists r,
     @i2c_esp32_read_msg esp32_headers (mk_msg 1000 2 7) 160
        (world0 [Some I2C_INTR_EVENT_TRANS_DONE]) = Some r /\
     Forall (fun i => 0 <= i < 6) (cmd_indices (calls r))) /\
  (exists r,
     @i2c_esp32_write_msg esp32_headers (mk_msg 1000 2 7) 160
        (world0 [Some I2C_INTR_EVENT_TRANS_DONE]) = Some r /\
     Forall (fun i => 0 <= i < 4) (cmd_indices (calls r))).
Proof.
  apply (cmd_queue_indices_bounded esp32_headers (mk_msg 1000 2 7) 160
           (world0 [Some I2C_INTR_EVENT_TRANS_DONE])); cbn; lia.
Defined.

(** The read of two bytes with RESTART uses the six indices 0 to 5. *)
Example read_uses_six_indices :
  option_map (fun r => cmd_indices (calls r))
    (@i2c_esp32_read_msg esp32_headers (mk_msg 1000 2 7) 160
       (world0 [Some I2C_INTR_EVENT_TRANS_DONE])) =
  Some [0; 1; 2; 3; 4; 5].
Proof. vm_compute. reflexivity. Qed.

(** X6.  Sizes on the command queue and the transmit FIFO.  In the write
    path every push of message data is of 1 to FIFO-capacity bytes.  In the
    read path every READ command is for 1 to FIFO-capacity bytes.  In both
    paths every WRITE command requires the acknowledge of the slave
    (ack_en), and the WRITE commands together ask for exactly as many bytes
    as were pushed to the transmit FIFO, address bytes included. *)
Theorem chunk_sizes :
  forall (H : Headers) (msg : i2c_msg) (addr : Z) (w : world),
    0 < SOC_I2C_FIFO_LEN < 255 ->
    0 <= len msg < 2 ^ 32 ->
    (exists r,
       i2c_esp32_write_msg msg addr w = Some r /\
       Forall (fun k => 1 <= k <= SOC_I2C_FIFO_LEN) (tx_counts (calls r)) /\
       Forall (fun c => ack_en c = true) (write_cmds_of (calls r)) /\
       sum (map byte_num (write_cmds_of (calls r))) = sum (tx_pushes (calls r))) /\
    (exists r,
       i2c_esp32_read_msg msg addr w = Some r /\
       Forall (fun c => 1 <= byte_num c <= SOC_I2C_FIFO_LEN)
              (read_cmds_of (calls r)) /\
       Forall (fun c => ack_en c = true) (write_cmds_of (calls r)) /\
       sum (map byte_num (write_cmds_of (calls r))) = sum (tx_pushes (calls r))).
Proof.
  intros H msg addr w Hfifo Hlen. split.
  - destruct (write_msg_frame Hfifo msg addr w Hlen)
      as (r & Hr & _ & _ & _ & _ & Htc & Hack & Hsum & _).
    exists r. conj; assumption.
  - destruct (read_msg_frame Hfifo msg addr w Hlen)
      as (r & Hr & _ & _ & _ & _ & Hrd & Hack & Hsum & _).
    exists r. conj; assumption.
Qed.

Lemma chunk_sizes_witness :
  (exists r,
     @i2c_esp32_write_msg esp32_headers (mk_msg 1000 70 6) 160
        (world0 (repeat (Some I2C_INTR_EVENT_TRANS_DONE) 3)) = Some r /\
     Forall (fun k => 1 <= k <= 32) (tx_counts (calls r)) /\
     Forall (fun c => ack_en c = true) (write_cmds_of (calls r)) /\
     sum (map byte_num (write_cmds_of (calls r))) = sum (tx_pushes (calls r))) /\
  (exists r,
     @i2c_esp32_read_msg esp32_headers (mk_msg 1000 70 6) 160
        (world0 (repeat (Some I2C_INTR_EVENT_TRANS_DONE) 3)) = Some r /\
     Forall (fun c => 1 <= byte_num c <= 32) (read_cmds_of (calls r)) /\
     Forall (fun c => ack_en c = true) (write_cmds_of (calls r)) /\
     sum (map byte_num (write_cmds_of (calls r))) = sum (tx_pushes (calls r))).
Proof.
  apply (chunk_sizes esp32_headers (mk_msg 1000 70 6) 160
           (world0 (repeat (Some I2C_INTR_EVENT_TRANS_DONE) 3))); cbn; lia.
Defined.

(** X7.  The write path queues a STOP command only for a message that
    carries the STOP flag.  When it returns 0, the last command it queued is
    STOP for a message with the flag and END for a message without it, and
    no command before the last is a STOP. *)
Theorem write_stops_only_when_asked :
  forall (H : Headers) (msg : i2c_msg) (addr : Z) (w : world),
    0 < SOC_I2C_FIFO_LEN < 255 ->
    0 <= len msg < 2 ^ 32 ->
    exists r,
      i2c_esp32_write_msg msg addr w = Some r /\
      (Z.land (flags msg) I2C_MSG_STOP = 0 ->
       Forall (fun c => op_code c <> I2C_LL_CMD_STOP) (cmds_of (calls r))) /\
      (fst (value r) = OK ->
       exists before,
         cmds_of (calls r) =
           before ++ [if Z.land (flags msg) I2C_MSG_STOP =? 0
                      then mk_cmd I2C_LL_CMD_END false 0 0 0
                      else mk_cmd I2C_LL_CMD_STOP false 0 0 0] /\
         Forall (fun c => op_code c <> I2C_LL_CMD_STOP) before).
Proof.
  intros H msg addr w Hfifo Hlen.
  destruct (write_msg_frame Hfifo msg addr w Hlen)
    as (r & Hr & _ & _ & _ & _ & _ & _ & _ & _ & _ & _ & _ & Hno & Hfin & _).
  exists r. conj; assumption.
Qed.

Lemma write_stops_only_when_asked_witness :
  exists r,
    @i2c_esp32_write_msg esp32_headers (mk_msg 1000 40 4) 160
       (world0 (repeat (Some I2C_INTR_EVENT_END_DET) 2)) = Some r /\
    (Z.land 4 (@I2C_MSG_STOP esp32_headers) = 0 ->
     Forall (fun c => op_code c <> I2C_LL_CMD_STOP) (cmds_of (calls r))) /\
    (fst (value r) = OK ->
     exists before,
       cmds_of (calls r) =
         before ++ [if Z.land 4 (@I2C_MSG_STOP esp32_headers) =? 0
                    then mk_cmd I2C_LL_CMD_END false 0 0 0
                    else mk_cmd I2C_LL_CMD_STOP false 0 0 0] /\
       Forall (fun c => op_code c <> I2C_LL_CMD_STOP) before).
Proof.
  apply (write_stops_only_when_asked esp32_headers (mk_msg 1000 40 4) 160
           (world0 (repeat (Some I2C_INTR_EVENT_END_DET) 2))); cbn; lia.
Defined.

(** What the two writes of 40 bytes queue, with and without the STOP flag. *)
Example write_40_bytes_cmds :
  map (fun f =>
         option_map (fun r => (fst (value r), map op_code (cmds_of (calls r))))
           (@i2c_esp32_write_msg esp32_headers (mk_msg 1000 40 f) 160
              (world0 (repeat (Some I2C_INTR_EVENT_END_DET) 2))))
      [4; 6] =
  [Some (OK, [I2C_LL_CMD_RESTART; I2C_LL_CMD_WRITE; I2C_LL_CMD_WRITE;
              I2C_LL_CMD_END; I2C_LL_CMD_WRITE; I2C_LL_CMD_END]);
   Some (OK, [I2C_LL_CMD_RESTART; I2C_LL_CMD_WRITE; I2C_LL_CMD_WRITE;
              I2C_LL_CMD_END; I2C_LL_CMD_WRITE; I2C_LL_CMD_STOP])].
Proof. vm_compute. reflexivity. Qed.

(** X8.  Messages of length zero.  The read path returns 0 without starting
    the hardware: what the address phase queued is never transmitted.  The
    write path starts the hardware exactly once and pushes no message data,
    so an empty write still addresses the slave. *)
Theorem zero_length_messages :
  forall (H : Headers) (msg : i2c_msg) (addr : Z) (w : world),
    0 < SOC_I2C_FIFO_LEN < 255 ->
    len msg = 0 ->
    (exists r,
       i2c_esp32_read_msg msg addr w = Some r /\
       value r = (OK, msg) /\
       count_call is_trans_start (calls r) = 0%nat) /\
    (exists r,
       i2c_esp32_write_msg msg addr w = Some r /\
       tx_counts (calls r) = [] /\
       count_call is_trans_start (calls r) = 1%nat).
Proof.
  intros H msg addr w Hfifo Hlen. split.
  - destruct (read_msg_frame Hfifo msg addr w ltac:(lia))
      as (r & Hr & _ & _ & _ & _ & _ & _ & _ & _ & _ & Hts & _).
    exists r. split; [exact Hr|]. split; [|auto].
    revert Hr. unfold i2c_esp32_read_msg. cbv zeta. rewrite bind_start.
    unfold bind at 1.
    destruct ((set_cmd_idx 0;; set_status I2C_STATUS_READ;;
               (if Z.land (flags msg) I2C_MSG_RESTART =? 0 then ret tt
                else i2c_esp32_write_addr (u16 (Z.lor addr (BIT 0))))) w)
      as [[v0 w0 c0]|]; [|discriminate].
    cbn [value after calls]. rewrite read_loop_done by assumption.
    intros Hr. injection Hr as <-. reflexivity.
  - destruct (write_msg_frame Hfifo msg addr w ltac:(lia))
      as (r & Hr & _ & _ & _ & _ & _ & _ & _ & _ & _ & _ & Hzero & _).
    exists r. split; [exact Hr|]. apply Hzero. exact Hlen.
Qed.

Lemma zero_length_messages_witness :
  (exists r,
     @i2c_esp32_read_msg esp32_headers (mk_msg 1000 0 7) 160 (world0 []) = Some r /\
     value r = (OK, mk_msg 1000 0 7) /\
     count_call is_trans_start (calls r) = 0%nat) /\
  (exists r,
     @i2c_esp32_write_msg esp32_headers (mk_msg 1000 0 7) 160 (world0 []) = Some r /\
     tx_counts (calls r) = [] /\
     count_call is_trans_start (calls r) = 1%nat).
Proof.
  apply (zero_length_messages esp32_headers (mk_msg 1000 0 7) 160 (world0 []));
    [cbn; lia | reflexivity].
Defined.

(** ** The transfer as a whole *)

(** Validation answers 0 or -EINVAL and changes flags only. *)
Lemma check_msgs_shape :
  forall (H : Headers) (l : list i2c_msg),
    (fst (check_msgs l) = OK \/ fst (check_msgs l) = ERR EINVAL) /\
    map len (snd (check_msgs l)) = map len l /\
    map buf (snd (check_msgs l)) = map buf l.
Proof.
  intros H; induction l as [|a l IH]; [cbn; auto|].
  destruct l as [|b rest]; [cbn; auto|].
  rewrite check_msgs_cons2.
  destruct (negb _ && _); [cbn; auto|].
  destruct (negb _); [cbn; auto|].
  destruct (check_msgs (b :: rest)) as [r tail'].
  cbn [fst snd] in *. destruct IH as (Hc & Hl & Hb).
  split; [exact Hc|]. cbn [map]. rewrite Hl, Hb. split; reflexivity.
Qed.

Lemma transfer_validate_shape :
  forall (H : Headers) (l : list i2c_msg),
    (fst (transfer_validate l) = OK \/ fst (transfer_validate l) = ERR EINVAL) /\
    map len (snd (transfer_validate l)) = map len l /\
    map buf (snd (transfer_validate l)) = map buf l.
Proof.
  intros H [|a l]; [cbn; auto|].
  unfold transfer_validate.
  destruct (check_msgs_shape H
              (set_flags a (u8 (Z.lor (flags a) I2C_MSG_RESTART)) :: l))
    as (Hc & Hl & Hb).
  split; [exact Hc|]. rewrite Hl, Hb. split; reflexivity.
Qed.

(** The part under the lock: the lock is taken first and given last around
    the loop over the messages, which is handed the shifted address. *)
Lemma transfer_locked_frame :
  forall (H : Headers) (msgs : list i2c_msg) (addr : Z) (w : world)
         (rl : run (ret_t * list i2c_msg)),
    transfer_loop msgs (shifted_addr (dev_config (drv w)) addr) w = Some rl ->
    transfer_locked msgs addr w =
      Some (mk_run (value rl) (after rl)
              (k_sem_take transfer_sem K_FOREVER
               :: calls rl ++ [k_sem_give transfer_sem])).
Proof.
  intros H msgs addr [[st cfg idx line] busy answers] [[rc out] wl cl] Hloop.
  unfold shifted_addr in Hloop. cbn [drv dev_config] in Hloop.
  unfold transfer_locked. step. rewrite Hloop. step.
  rewrite app_nil_r. reflexivity.
Qed.

(** X9.  A transfer ends and returns 0, -EINVAL, -ETIMEDOUT or -EFAULT.
    With no message or with -EINVAL it makes no call.  Otherwise it takes
    the transaction lock as its first call and gives it back as its last
    call, whether the messages went through or one of them failed, and
    touches the lock nowhere in between. *)
Theorem transfer_takes_and_gives_lock :
  forall (H : Headers) (msgs : list i2c_msg) (addr : Z) (w : world),
    0 < SOC_I2C_FIFO_LEN < 255 ->
    Forall (fun m => 0 <= len m < 2 ^ 32) msgs ->
    exists r,
      i2c_esp32_transfer msgs addr w = Some r /\
      (is_segment_code (fst (value r)) = true \/ fst (value r) = ERR EINVAL) /\
      (msgs = [] \/ fst (value r) = ERR EINVAL -> calls r = []) /\
      (msgs <> [] -> fst (value r) <> ERR EINVAL ->
       exists mid,
         calls r = k_sem_take transfer_sem K_FOREVER
                   :: mid ++ [k_sem_give transfer_sem] /\
         Forall (fun c => is_transfer_sem c = false) mid).
Proof.
  intros H msgs addr w Hfifo Hlens.
  destruct msgs as [|m tl].
  { eexists; split; [reflexivity|]. cbn. conj; auto. congruence. }
  unfold i2c_esp32_transfer.
  destruct (transfer_validate_shape H (m :: tl)) as (Hc & Hl & _).
  destruct (transfer_validate (m :: tl)) as [rv msgs1]. cbn [fst snd] in *.
  destruct Hc as [-> | ->]; cbn [is_err].
  - assert (Hlens1 : Forall (fun m => 0 <= len m < 2 ^ 32) msgs1).
    { rewrite Forall_forall in *. intros x Hx.
      apply (in_map len) in Hx. rewrite Hl in Hx.
      apply in_map_iff in Hx. destruct Hx as (y & <- & Hy). auto. }
    destruct (transfer_loop_frame Hfifo msgs1
                (shifted_addr (dev_config (drv w)) addr) w Hlens1)
      as (rl & Hloop & Hcode & Hnl & _).
    rewrite (transfer_locked_frame H msgs1 addr w rl Hloop).
    eexists; split; [reflexivity|]. cbn [value calls].
    split; [left; exact Hcode|]. split.
    + intros [Hn | He]; [discriminate|].
      rewrite He in Hcode. discriminate.
    + intros _ _. exists (calls rl). split; [reflexivity | exact Hnl].
  - eexists; split; [reflexivity|]. cbn [value calls fst].
    split; [right; reflexivity|]. split; [reflexivity|].
    intros _ Hne. exfalso; apply Hne; reflexivity.
Qed.

Lemma transfer_takes_and_gives_lock_witness :
  exists r,
    @i2c_esp32_transfer esp32_headers
       [mk_msg 1000 1 0; mk_msg 2000 2 5] 80
       (world0 [Some I2C_INTR_EVENT_TRANS_DONE; Some I2C_INTR_EVENT_NACK])
      = Some r /\
    (is_segment_code (fst (value r)) = true \/ fst (value r) = ERR EINVAL) /\
    ([mk_msg 1000 1 0; mk_msg 2000 2 5] = [] \/ fst (value r) = ERR EINVAL ->
     calls r = []) /\
    ([mk_msg 1000 1 0; mk_msg 2000 2 5] <> [] ->
     fst (value r) <> ERR EINVAL ->
     exists mid,
       calls r = k_sem_take transfer_sem K_FOREVER
                 :: mid ++ [k_sem_give transfer_sem] /\
       Forall (fun c => is_transfer_sem c = false) mid).
Proof.
  apply (transfer_takes_and_gives_lock esp32_headers
           [mk_msg 1000 1 0; mk_msg 2000 2 5] 80
           (world0 [Some I2C_INTR_EVENT_TRANS_DONE; Some I2C_INTR_EVENT_NACK])).
  - cbn; lia.
  - repeat constructor; cbn; lia.
Defined.

(** The write followed by a read that the slave does not acknowledge: the
    transfer returns -EFAULT with the lock given back. *)
Example transfer_nack_gives_lock :
  option_map (fun r => (fst (value r), hd_error (calls r),
                        last (calls r) hw_fsm_reset))
    (@i2c_esp32_transfer esp32_headers
       [mk_msg 1000 1 0; mk_msg 2000 2 5] 80
       (world0 [Some I2C_INTR_EVENT_TRANS_DONE; Some I2C_INTR_EVENT_NACK])) =
  Some (ERR EFAULT, Some (k_sem_take transfer_sem K_FOREVER),
        k_sem_give transfer_sem).
Proof. vm_compute. reflexivity. Qed.

(** X10.  What a transfer leaves of the messages.  Validation changes flags
    only.  When the transfer returns 0 every message has been read or
    written to its end: its length is 0 and its buffer cursor has advanced
    by its length.  When a message fails, the messages before it are at
    their end and the messages after it are as validation left them.  The
    message paths never change a flag. *)
Theorem transfer_consumes_messages :
  forall (H : Headers) (msgs : list i2c_msg) (addr : Z) (w : world),
    0 < SOC_I2C_FIFO_LEN < 255 ->
    Forall (fun m => 0 <= len m < 2 ^ 32) msgs ->
    exists r,
      i2c_esp32_transfer msgs addr w = Some r /\
      let validated := snd (transfer_validate msgs) in
      map len validated = map len msgs /\
      map buf validated = map buf msgs /\
      map flags (snd (value r)) = map flags validated /\
      (fst (value r) = OK -> Forall2 consumed validated (snd (value r))) /\
      (fst (value r) = ERR EINVAL -> snd (value r) = validated) /\
      (fst (value r) = ERR ETIMEDOUT \/ fst (value r) = ERR EFAULT ->
       exists pre m suf pre' m',
         validated = pre ++ m :: suf /\
         snd (value r) = pre' ++ m' :: suf /\
         Forall2 consumed pre pre').
Proof.
  intros H msgs addr w Hfifo Hlens.
  destruct msgs as [|m tl].
  { eexists; split; [reflexivity|]. cbn. conj; auto; try discriminate.
    intros [?|?]; discriminate. }
  unfold i2c_esp32_transfer.
  destruct (transfer_validate_shape H (m :: tl)) as (Hc & Hl & Hb).
  destruct (transfer_validate (m :: tl)) as [rv msgs1]. cbn [fst snd] in *.
  destruct Hc as [-> | ->]; cbn [is_err].
  - assert (Hlens1 : Forall (fun m => 0 <= len m < 2 ^ 32) msgs1).
    { rewrite Forall_forall in *. intros x Hx.
      apply (in_map len) in Hx. rewrite Hl in Hx.
      apply in_map_iff in Hx. destruct Hx as (y & <- & Hy). auto. }
    destruct (transfer_loop_frame Hfifo msgs1
                (shifted_addr (dev_config (drv w)) addr) w Hlens1)
      as (rl & Hloop & Hcode & _ & Hfl & Hok & Herr & _).
    rewrite (transfer_locked_frame H msgs1 addr w rl Hloop).
    eexists; split; [reflexivity|]. cbn [value calls]. conj; auto.
    + intros Hv. apply Hok. exact Hv.
    + intros Hv. rewrite Hv in Hcode. discriminate.
    + intros Hv. apply Herr. destruct Hv as [Hv|Hv]; rewrite Hv; discriminate.
  - eexists; split; [reflexivity|]. cbn [value calls fst snd].
    conj; auto; try discriminate. intros [?|?]; discriminate.
Qed.

Lemma transfer_consumes_messages_witness :
  exists r,
    @i2c_esp32_transfer esp32_headers
       [mk_msg 1000 1 0; mk_msg 2000 40 5] 80
       (world0 [Some I2C_INTR_EVENT_TRANS_DONE; Some I2C_INTR_EVENT_END_DET;
                Some I2C_INTR_EVENT_TRANS_DONE]) = Some r /\
    let validated :=
      snd (@transfer_validate esp32_headers [mk_msg 1000 1 0; mk_msg 2000 40 5]) in
    map len validated = map len [mk_msg 1000 1 0; mk_msg 2000 40 5] /\
    map buf validated = map buf [mk_msg 1000 1 0; mk_msg 2000 40 5] /\
    map flags (snd (value r)) = map flags validated /\
    (fst (value r) = OK -> Forall2 consumed validated (snd (value r))) /\
    (fst (value r) = ERR EINVAL -> snd (value r) = validated) /\
    (fst (value r) = ERR ETIMEDOUT \/ fst (value r) = ERR EFAULT ->
     exists pre m suf pre' m',
       validated = pre ++ m :: suf /\
       snd (value r) = pre' ++ m' :: suf /\
       Forall2 consumed pre pre').
Proof.
  apply (transfer_consumes_messages esp32_headers
           [mk_msg 1000 1 0; mk_msg 2000 40 5] 80
           (world0 [Some I2C_INTR_EVENT_TRANS_DONE; Some I2C_INTR_EVENT_END_DET;
                    Some I2C_INTR_EVENT_TRANS_DONE])).
  - cbn; lia.
  - repeat constructor; cbn; lia.
Defined.

(** The messages of a transfer that goes through, and of one whose second
    message times out after its first chunk. *)
Example transfer_messages_afterwards :
  option_map value
    (@i2c_esp32_transfer esp32_headers
       [mk_msg 1000 1 0; mk_msg 2000 40 5] 80
       (world0 [Some I2C_INTR_EVENT_TRANS_DONE; Some I2C_INTR_EVENT_END_DET;
                Some I2C_INTR_EVENT_TRANS_DONE])) =
  Some (OK, [mk_msg 1001 0 4; mk_msg 2040 0 7]) /\
  option_map value
    (@i2c_esp32_transfer esp32_headers
       [mk_msg 1000 1 0; mk_msg 2000 40 1; mk_msg 3000 5 4] 80
       (world0 [Some I2C_INTR_EVENT_TRANS_DONE; Some I2C_INTR_EVENT_END_DET;
                None])) =
  Some (ERR EINVAL, [mk_msg 1000 1 4; mk_msg 2000 40 1; mk_msg 3000 5 4]) /\
  option_map value
    (@i2c_esp32_transfer esp32_headers
       [mk_msg 1000 1 0; mk_msg 2000 40 5; mk_msg 3000 5 4] 80
       (world0 [Some I2C_INTR_EVENT_TRANS_DONE; Some I2C_INTR_EVENT_END_DET;
                None])) =
  Some (ERR ETIMEDOUT, [mk_msg 1001 0 4; mk_msg 2032 0 5; mk_msg 3000 5 6]).
Proof. vm_compute. repeat split; reflexivity. Qed.

(** ** The address on the bus *)

Lemma lor_one_even : forall x, Z.lor (2 * x) 1 = 2 * x + 1.
Proof.
  intros x.
  assert (Hd : Z.land (2 * x) 1 = 0).
  { change 1 with (Z.ones 1) at 1. rewrite Z.land_ones by lia.
    change (2 ^ 1) with 2. rewrite Z.mul_comm. apply Z.mod_mul. lia. }
  rewrite <- Z.lxor_lor by exact Hd.
  symmetry. apply Z.add_nocarry_lxor. exact Hd.
Qed.

Lemma shifted_addr_value :
  forall (H : Headers) (cfg addr : Z),
    shifted_addr cfg addr =
    2 * (addr mod (if Z.land cfg I2C_ADDR_10_BITS =? 0 then 128 else 1024)).
Proof.
  intros H cfg addr. unfold shifted_addr.
  destruct (Z.land cfg I2C_ADDR_10_BITS =? 0).
  - change (BIT_MASK 7) with (Z.ones 7). rewrite Z.land_ones by lia.
    change (2 ^ 7) with 128.
    assert (0 <= addr mod 128 < 128) by (apply Z.mod_pos_bound; lia).
    unfold u16. rewrite (Z.mod_small (addr mod 128)) by lia.
    rewrite Z.shiftl_mul_pow2 by lia. change (2 ^ 1) with 2.
    rewrite Z.mod_small by lia. lia.
  - change (BIT_MASK 10) with (Z.ones 10). rewrite Z.land_ones by lia.
    change (2 ^ 10) with 1024.
    assert (0 <= addr mod 1024 < 1024) by (apply Z.mod_pos_bound; lia).
    unfold u16. rewrite (Z.mod_small (addr mod 1024)) by lia.
    rewrite Z.shiftl_mul_pow2 by lia. change (2 ^ 1) with 2.
    rewrite Z.mod_small by lia. lia.
Qed.

(** The address bytes of a message in numbers. *)
Lemma addr_phase_bytes_value :
  forall (H : Headers) (cfg addr : Z) (m : i2c_msg),
    addr_phase_bytes cfg (shifted_addr cfg addr) m =
    if Z.land (flags m) I2C_MSG_RESTART =? 0 then []
    else
      let rw := if Z.land (flags m) I2C_MSG_RW_MASK =? I2C_MSG_READ
                then 1 else 0 in
      if Z.land cfg I2C_ADDR_10_BITS =? 0
      then [2 * (addr mod 128) + rw]
      else [(2 * (addr mod 1024) + rw) mod 256;
            (2 * (addr mod 1024) + rw) / 256].
Proof.
  intros H cfg addr m. unfold addr_phase_bytes.
  rewrite shifted_addr_value.
  destruct (Z.land (flags m) I2C_MSG_RESTART =? 0); [reflexivity|].
  cbv zeta.
  assert (H7 : 0 <= addr mod 128 < 128) by (apply Z.mod_pos_bound; lia).
  assert (H10 : 0 <= addr mod 1024 < 1024) by (apply Z.mod_pos_bound; lia).
  change (BIT 0) with 1. change 255 with (Z.ones 8).
  destruct (Z.land cfg I2C_ADDR_10_BITS =? 0);
    destruct (Z.land (flags m) I2C_MSG_RW_MASK =? I2C_MSG_READ);
    rewrite ?lor_one_even; unfold u16;
    rewrite ?Z.land_ones by lia; rewrite ?Z.shiftr_div_pow2 by lia;
    change (2 ^ 8) with 256; change (2 ^ 16) with 65536.
  - rewrite (Z.mod_small (2 * (addr mod 128) + 1) 65536) by lia.
    rewrite Z.mod_small by lia. reflexivity.
  - rewrite Z.mod_small by lia. f_equal. lia.
  - rewrite (Z.mod_small (2 * (addr mod 1024) + 1) 65536) by lia.
    f_equal. f_equal. apply Z.mod_small.
    split; [apply Z.div_pos; lia | apply Z.div_lt_upper_bound; lia].
  - rewrite Z.add_0_r. f_equal. f_equal. apply Z.mod_small.
    split; [apply Z.div_pos; lia | apply Z.div_lt_upper_bound; lia].
Qed.

(** X11.  The address bytes of a transfer that returns 0, in the order
    pushed: none for a message without RESTART after validation; for the
    others, in 7-bit mode, the one byte 2 * (addr mod 128) + rw, where rw is
    1 for a read and 0 for a write; in 10-bit mode the low and then the
    high byte of 2 * (addr mod 1024) + rw. *)
Theorem transfer_address_bytes :
  forall (H : Headers) (msgs : list i2c_msg) (addr : Z) (w : world),
    0 < SOC_I2C_FIFO_LEN < 255 ->
    Forall (fun m => 0 <= len m < 2 ^ 32) msgs ->
    exists r,
      i2c_esp32_transfer msgs addr w = Some r /\
      (fst (value r) = OK ->
       addr_bytes (calls r) =
         flat_map
           (fun m =>
              if Z.land (flags m) I2C_MSG_RESTART =? 0 then []
              else
                let rw := if Z.land (flags m) I2C_MSG_RW_MASK =? I2C_MSG_READ
                          then 1 else 0 in
                if Z.land (dev_config (drv w)) I2C_ADDR_10_BITS =? 0
                then [2 * (addr mod 128) + rw]
                else [(2 * (addr mod 1024) + rw) mod 256;
                      (2 * (addr mod 1024) + rw) / 256])
           (snd (transfer_validate msgs))).
Proof.
  intros H msgs addr w Hfifo Hlens.
  destruct msgs as [|m tl].
  { eexists; split; [reflexivity|]. cbn. auto. }
  unfold i2c_esp32_transfer.
  destruct (transfer_validate_shape H (m :: tl)) as (Hc & Hl & Hb).
  destruct (transfer_validate (m :: tl)) as [rv msgs1]. cbn [fst snd] in *.
  destruct Hc as [-> | ->]; cbn [is_err].
  - assert (Hlens1 : Forall (fun m => 0 <= len m < 2 ^ 32) msgs1).
    { rewrite Forall_forall in *. intros x Hx.
      apply (in_map len) in Hx. rewrite Hl in Hx.
      apply in_map_iff in Hx. destruct Hx as (y & <- & Hy). auto. }
    destruct (transfer_loop_frame Hfifo msgs1
                (shifted_addr (dev_config (drv w)) addr) w Hlens1)
      as (rl & Hloop & _ & _ & _ & Hok & _).
    rewrite (transfer_locked_frame H msgs1 addr w rl Hloop).
    eexists; split; [reflexivity|]. cbn [value calls]. intros Hv.
    destruct (Hok Hv) as [_ Hab].
    change (k_sem_take transfer_sem K_FOREVER :: calls rl ++ [k_sem_give transfer_sem])
      with ([k_sem_take transfer_sem K_FOREVER] ++ calls rl ++ [k_sem_give transfer_sem]).
    rewrite !addr_bytes_app, Hab. cbn [addr_bytes flat_map app].
    rewrite app_nil_r. apply flat_map_ext. intros a.
    apply addr_phase_bytes_value.
  - eexists; split; [reflexivity|]. cbn. intros; discriminate.
Qed.

Lemma transfer_address_bytes_witness :
  exists r,
    @i2c_esp32_transfer esp32_headers
       [mk_msg 1000 1 0; mk_msg 2000 2 5] 0x1D2
       (world0 (repeat (Some I2C_INTR_EVENT_TRANS_DONE) 2)) = Some r /\
    (fst (value r) = OK ->
     addr_bytes (calls r) =
       flat_map
         (fun m =>
            if Z.land (flags m) (@I2C_MSG_RESTART esp32_headers) =? 0 then []
            else
              let rw := if Z.land (flags m) (@I2C_MSG_RW_MASK esp32_headers)
                           =? @I2C_MSG_READ esp32_headers
                        then 1 else 0 in
              if Z.land (dev_config (drv (world0 (repeat (Some I2C_INTR_EVENT_TRANS_DONE) 2))))
                        (@I2C_ADDR_10_BITS esp32_headers) =? 0
              then [2 * (0x1D2 mod 128) + rw]
              else [(2 * (0x1D2 mod 1024) + rw) mod 256;
                    (2 * (0x1D2 mod 1024) + rw) / 256])
         (snd (@transfer_validate esp32_headers
                 [mk_msg 1000 1 0; mk_msg 2000 2 5]))).
Proof.
  apply (transfer_address_bytes esp32_headers
           [mk_msg 1000 1 0; mk_msg 2000 2 5] 0x1D2
           (world0 (repeat (Some I2C_INTR_EVENT_TRANS_DONE) 2))).
  - cbn; lia.
  - repeat constructor; cbn; lia.
Defined.

(** The address 0x52 on the bus: 0xA4 for the write, 0xA5 for the read; in
    10-bit mode the address 0x152 goes out as 0xA4 0x02 and 0xA5 0x02. *)
Example address_bytes_of_0x52 :
  option_map (fun r => (fst (value r), addr_bytes (calls r)))
    (@i2c_esp32_transfer esp32_headers
       [mk_msg 1000 1 0; mk_msg 2000 2 5] 0x52
       (world0 (repeat (Some I2C_INTR_EVENT_TRANS_DONE) 2))) =
  Some (OK, [0xA4; 0xA5]) /\
  option_map (fun r => (fst (value r), addr_bytes (calls r)))
    (@i2c_esp32_transfer esp32_headers
       [mk_msg 1000 1 0; mk_msg 2000 2 5] 0x152
       (mk_world (mk_data I2C_STATUS_IDLE 1 0 0) []
                 (repeat (Some I2C_INTR_EVENT_TRANS_DONE) 2))) =
  Some (OK, [0xA4; 0x02; 0xA5; 0x02]).
Proof. vm_compute. split; reflexivity. Qed.

(** ** Pins, bus recovery and initialization *)

Section BoardProperties.
Import Board.

Lemma clear_bus_loop_spec (pins : i2c_esp32_pins) (sda_level : nat -> Z) :
  forall (fuel : nat) (i : Z) (k : nat),
  0 <= i -> I2C_CLR_BUS_SCL_NUM - i <= Z.of_nat fuel ->
  exists n : nat,
    i + Z.of_nat n <= Z.max i I2C_CLR_BUS_SCL_NUM /\
    (forall j, (j < n)%nat -> sda_level (k + j)%nat = 0) /\
    (i + Z.of_nat n < I2C_CLR_BUS_SCL_NUM -> sda_level (k + n)%nat <> 0) /\
    Board.clear_bus_loop pins sda_level fuel i k =
      Some (concat (repeat (gpio_pin_get sda_gpio (pin (sda pins)) 0
                              :: Board.scl_pulse pins) n)
            ++ [gpio_pin_get sda_gpio (pin (sda pins)) (sda_level (k + n)%nat)]).
Proof.
  induction fuel as [|fuel IH]; intros i k Hi Hfuel;
    cbn [Board.clear_bus_loop];
    destruct (Z.eqb_spec (sda_level k) 0) as [Hv|Hv];
    [destruct (Z.ltb_spec i I2C_CLR_BUS_SCL_NUM) as [Hlt|Hge] | |
     destruct (Z.ltb_spec i I2C_CLR_BUS_SCL_NUM) as [Hlt|Hge] | ];
    unfold I2C_CLR_BUS_SCL_NUM in *;
    try (exists 0%nat; rewrite Nat.add_0_r;
         repeat split; intros; first [lia | reflexivity]).
  destruct (IH (i + 1) (S k)) as (n & Hn & Hlow & Hhigh & ->); [lia | lia |].
  exists (S n). repeat split.
  - lia.
  - intros [|j] Hj; [rewrite Nat.add_0_r; exact Hv|].
    replace (k + S j)%nat with (S k + j)%nat by lia.
    apply Hlow. lia.
  - intros Hlt'. replace (k + S n)%nat with (S k + n)%nat by lia.
    apply Hhigh. lia.
  - replace (k + S n)%nat with (S k + n)%nat by lia.
    rewrite Hv. cbn [repeat concat]. rewrite <- !app_assoc.
    reflexivity.
Qed.

(** What the bus clear does, for every behaviour of the SDA line. *)
Lemma clear_bus_spec (C : Caps) (config : i2c_esp32_config)
    (pins : i2c_esp32_pins) (sda_level : nat -> Z) :
  exists (n : nat) (cs : list board_call),
    Board.i2c_master_clear_bus config pins sda_level = Some cs /\
    (n <= 9)%nat /\
    (forall j, (j < n)%nat -> sda_level j = 0) /\
    ((n < 9)%nat -> sda_level n <> 0) /\
    cs =
      (if SOC_I2C_SUPPORT_HW_CLR_BUS
       then [i2c_hal_master_clr_bus; drv_call i2c_hal_update_config]
       else
         [gpio_pin_configure scl_gpio (pin (scl pins))
            [GPIO_OUTPUT; GPIO_OPEN_DRAIN];
          gpio_pin_configure sda_gpio (pin (sda pins))
            [GPIO_OUTPUT; GPIO_OPEN_DRAIN; GPIO_INPUT];
          gpio_pin_set scl_gpio (pin (scl pins)) 0;
          gpio_pin_set sda_gpio (pin (sda pins)) 1;
          esp_rom_delay_us 5]
         ++ concat (repeat (gpio_pin_get sda_gpio (pin (sda pins)) 0
                              :: Board.scl_pulse pins) n)
         ++ [gpio_pin_get sda_gpio (pin (sda pins)) (sda_level n);
             gpio_pin_set sda_gpio (pin (sda pins)) 0;
             gpio_pin_set scl_gpio (pin (scl pins)) 1;
             esp_rom_delay_us 5;
             gpio_pin_set sda_gpio (pin (sda pins)) 1]
         ++ snd (Board.i2c_esp32_config_pin config pins)
         ++ [drv_call i2c_hal_update_config]).
Proof.
  destruct (clear_bus_loop_spec pins sda_level
              (Z.to_nat (I2C_CLR_BUS_SCL_NUM + 1)) 0 0)
    as (n & Hn & Hlow & Hhigh & Hloop);
    [lia | unfold I2C_CLR_BUS_SCL_NUM; lia |].
  unfold I2C_CLR_BUS_SCL_NUM in Hn, Hhigh.
  unfold Board.i2c_master_clear_bus.
  destruct SOC_I2C_SUPPORT_HW_CLR_BUS.
  - exists n. eexists. repeat split; try reflexivity.
    + lia.
    + exact Hlow.
    + intros Hlt. apply (Hhigh ltac:(lia)).
  - rewrite Hloop. exists n. eexists. repeat split.
    + lia.
    + exact Hlow.
    + intros Hlt. apply (Hhigh ltac:(lia)).
    + cbn [Nat.add]. rewrite <- !app_assoc. reflexivity.
Qed.

Lemma count_app (p : board_call -> bool) (a b : list board_call) :
  Board.count p (a ++ b) = (Board.count p a + Board.count p b)%nat.
Proof. unfold Board.count. now rewrite filter_app, length_app. Qed.

Lemma timing_read_app (a b : list board_call) :
  timing_read (a ++ b) = timing_read a ++ timing_read b.
Proof. apply flat_map_app. Qed.

Lemma timing_written_app (a b : list board_call) :
  timing_written (a ++ b) = timing_written a ++ timing_written b.
Proof. apply flat_map_app. Qed.

Lemma pulses_reads (pins : i2c_esp32_pins) (n : nat) :
  Board.count is_sda_read
    (concat (repeat (gpio_pin_get sda_gpio (pin (sda pins)) 0
                       :: Board.scl_pulse pins) n)) = n.
Proof.
  induction n as [|n IH]; [reflexivity|].
  cbn [repeat concat]. rewrite count_app, IH. reflexivity.
Qed.

Lemma pulses_clear_calls (pins : i2c_esp32_pins) (n : nat) :
  Forall (fun c => is_clear_bus_call c = true)
    (concat (repeat (gpio_pin_get sda_gpio (pin (sda pins)) 0
                       :: Board.scl_pulse pins) n)).
Proof.
  induction n as [|n IH]; [constructor|].
  cbn [repeat concat]. apply Forall_app. split; [|exact IH].
  repeat constructor.
Qed.

Lemma config_pin_calls (C : Caps) (config : i2c_esp32_config)
    (pins : i2c_esp32_pins) :
  Forall (fun c => is_pin_call c = true)
    (snd (Board.i2c_esp32_config_pin config pins)) /\
  Board.count is_sda_read (snd (Board.i2c_esp32_config_pin config pins)) = 0%nat /\
  (fst (Board.i2c_esp32_config_pin config pins) = OK <->
   index config < SOC_I2C_NUM) /\
  (fst (Board.i2c_esp32_config_pin config pins) <> OK ->
   Board.i2c_esp32_config_pin config pins = (ERR EINVAL, [])).
Proof.
  unfold Board.i2c_esp32_config_pin.
  destruct (Z.geb_spec (index config) SOC_I2C_NUM) as [Hge|Hlt]; cbn [fst snd].
  - repeat split; try constructor; try discriminate; intros; lia.
  - repeat split; try (repeat constructor); try discriminate; intros;
      try lia; congruence.
Qed.

(** A bus clear ends, reads SDA at most ten times and stays with the pins,
    the delays and the configuration update. *)
Lemma clear_bus_log (C : Caps) (config : i2c_esp32_config)
    (pins : i2c_esp32_pins) (sda_level : nat -> Z) :
  exists cs,
    Board.i2c_master_clear_bus config pins sda_level = Some cs /\
    Forall (fun c => is_clear_bus_call c = true) cs /\
    (Board.count is_sda_read cs <= 10)%nat.
Proof.
  destruct (clear_bus_spec C config pins sda_level)
    as (n & cs & Hrun & Hn & _ & _ & Hcs).
  exists cs. split; [exact Hrun|].
  destruct (config_pin_calls C config pins) as (Hpin & Hreads & _).
  destruct SOC_I2C_SUPPORT_HW_CLR_BUS; subst cs.
  - split; [repeat constructor | cbn; lia].
  - split.
    + repeat (apply Forall_app; split);
        try (repeat constructor; fail);
        try apply pulses_clear_calls.
      eapply Forall_impl; [|exact Hpin].
      intros [] Hc; cbn in Hc |- *; congruence.
    + rewrite !count_app, pulses_reads, Hreads. cbn. lia.
Qed.

(** X12.  Clearing the bus by hand: SCL is pulsed once for every low reading
    of SDA, up to nine pulses, and the pulsing stops at the first reading
    that is not low; then follow the STOP condition (SDA low, SCL high, SDA
    high), the pin configuration and the configuration update.  SDA is
    read at most ten times, so the clear always ends.  Where the hardware
    clears the bus no pin is touched. *)
Theorem clear_bus_pulses_until_released :
  forall (C : Caps) (config : i2c_esp32_config) (pins : i2c_esp32_pins)
         (sda_level : nat -> Z),
  exists (n : nat) (cs : list board_call),
    Board.i2c_master_clear_bus config pins sda_level = Some cs /\
    (n <= 9)%nat /\
    (forall j, (j < n)%nat -> sda_level j = 0) /\
    ((n < 9)%nat -> sda_level n <> 0) /\
    (Board.count is_sda_read cs <= 10)%nat /\
    cs =
      (if SOC_I2C_SUPPORT_HW_CLR_BUS
       then [i2c_hal_master_clr_bus; drv_call i2c_hal_update_config]
       else
         [gpio_pin_configure scl_gpio (pin (scl pins))
            [GPIO_OUTPUT; GPIO_OPEN_DRAIN];
          gpio_pin_configure sda_gpio (pin (sda pins))
            [GPIO_OUTPUT; GPIO_OPEN_DRAIN; GPIO_INPUT];
          gpio_pin_set scl_gpio (pin (scl pins)) 0;
          gpio_pin_set sda_gpio (pin (sda pins)) 1;
          esp_rom_delay_us 5]
         ++ concat (repeat (gpio_pin_get sda_gpio (pin (sda pins)) 0
                              :: Board.scl_pulse pins) n)
         ++ [gpio_pin_get sda_gpio (pin (sda pins)) (sda_level n);
             gpio_pin_set sda_gpio (pin (sda pins)) 0;
             gpio_pin_set scl_gpio (pin (scl pins)) 1;
             esp_rom_delay_us 5;
             gpio_pin_set sda_gpio (pin (sda pins)) 1]
         ++ snd (Board.i2c_esp32_config_pin config pins)
         ++ [drv_call i2c_hal_update_config]).
Proof.
  intros C config pins sda_level.
  destruct (clear_bus_spec C config pins sda_level)
    as (n & cs & Hrun & Hn & Hlow & Hhigh & Hcs).
  destruct (clear_bus_log C config pins sda_level) as (cs' & Hrun' & _ & Hreads).
  assert (cs' = cs) by congruence. subst cs'.
  exists n, cs. repeat split; assumption.
Qed.

(** A slave that holds SDA low for three clocks: three pulses, four
    readings. *)
Example clear_bus_three_pulses :
  let pins := mk_pins (mk_pin None 29 29 22) (mk_pin None 30 30 21) 49 in
  let config := mk_config 0 false false 16 100000 in
  option_map (fun cs => (Board.count is_sda_read cs, Board.count is_scl_high cs))
    (@Board.i2c_master_clear_bus esp32_caps config pins
       (fun k => if (k <? 3)%nat then 0 else 1))
  = Some (4%nat, 5%nat).
Proof. vm_compute. reflexivity. Qed.

Lemma clear_call_facts (cs : list board_call) :
  Forall (fun c => is_clear_bus_call c = true) cs ->
  timing_read cs = [] /\ timing_written cs = [] /\
  Forall (fun c => is_lock_call c = false) cs /\
  Board.count is_clock_call cs = 0%nat.
Proof.
  induction 1 as [|c cs Hc _ (IHr & IHw & IHl & IHc)].
  - repeat split; constructor.
  - change (c :: cs) with ([c] ++ cs).
    rewrite timing_read_app, timing_written_app, count_app, IHr, IHw, IHc.
    destruct c as [| | | | | | | | | | | | | | | | | | | | | | |c'];
      try discriminate Hc;
      try (repeat split; try reflexivity; constructor;
           [reflexivity | exact IHl]).
    destruct c'; try discriminate Hc.
    repeat split; try reflexivity. constructor; [reflexivity | exact IHl].
Qed.

Lemma fsm_reset_log (C : Caps) (config : i2c_esp32_config)
    (pins : i2c_esp32_pins) (t : bus_timing) (sda_level : nat -> Z) :
  exists clear reset,
    Board.i2c_master_clear_bus config pins sda_level = Some clear /\
    Board.i2c_hw_fsm_reset config pins t sda_level = Some reset /\
    Forall (fun c => is_clear_bus_call c = true) clear /\
    (Board.count is_sda_read clear <= 10)%nat /\
    Forall (fun c => is_lock_call c = false) reset /\
    timing_written reset = timing_read reset /\
    Board.count is_sda_read reset = Board.count is_sda_read clear /\
    reset =
      (if SOC_I2C_SUPPORT_HW_FSM_RST
       then i2c_hal_master_fsm_rst :: clear
            ++ [drv_call i2c_hal_update_config]
       else
         [i2c_hal_get_scl_timing (scl_high_period t) (scl_low_period t);
          i2c_hal_get_start_timing (scl_rstart_setup t) (scl_start_hold t);
          i2c_hal_get_stop_timing (scl_stop_setup t) (scl_stop_hold t);
          i2c_hal_get_sda_timing (sda_sample t) (sda_hold t);
          i2c_hal_get_tout (timeout t);
          i2c_hal_get_filter (u8 (filter_cfg t));
          clock_control_off]
         ++ clear
         ++ [clock_control_on;
             drv_call (i2c_hal_master_init (index config));
             drv_call i2c_hal_disable_intr_mask;
             drv_call i2c_hal_clr_intsts_mask;
             i2c_hal_set_scl_timing (scl_high_period t) (scl_low_period t);
             i2c_hal_set_start_timing (scl_rstart_setup t) (scl_start_hold t);
             i2c_hal_set_stop_timing (scl_stop_setup t) (scl_stop_hold t);
             i2c_hal_set_sda_timing (sda_sample t) (sda_hold t);
             i2c_hal_set_tout (timeout t);
             drv_call (i2c_hal_set_filter (u8 (filter_cfg t)));
             drv_call i2c_hal_update_config]) /\
    (if SOC_I2C_SUPPORT_HW_FSM_RST
     then Board.count is_clock_call reset = 0%nat /\
          timing_read reset = []
     else
       timing_read reset =
         [(SCL, scl_high_period t, scl_low_period t);
          (START, scl_rstart_setup t, scl_start_hold t);
          (STOP, scl_stop_setup t, scl_stop_hold t);
          (SDA, sda_sample t, sda_hold t);
          (TOUT, timeout t, 0);
          (FILTER, u8 (filter_cfg t), 0)]).
Proof.
  destruct (clear_bus_log C config pins sda_level)
    as (clear & Hrun & Hcalls & Hten).
  destruct (clear_call_facts clear Hcalls) as (Hr & Hw & Hl & Hc).
  exists clear. unfold Board.i2c_hw_fsm_reset. rewrite Hrun.
  destruct SOC_I2C_SUPPORT_HW_FSM_RST; eexists;
    (split; [reflexivity|]); (split; [reflexivity|]);
    (split; [exact Hcalls|]); (split; [exact Hten|]).
  - repeat split.
    + apply Forall_app; split; [repeat constructor|].
      apply Forall_app; split; [exact Hl | repeat constructor].
    + rewrite !timing_read_app, !timing_written_app, Hr, Hw. reflexivity.
    + rewrite !count_app. cbn. lia.
    + rewrite !count_app, Hc. reflexivity.
    + rewrite !timing_read_app, Hr. reflexivity.
  - repeat split.
    + apply Forall_app; split; [repeat constructor|].
      apply Forall_app; split; [exact Hl | repeat constructor].
    + rewrite !timing_read_app, !timing_written_app, Hr, Hw. reflexivity.
    + rewrite !count_app. cbn. lia.
    + rewrite !timing_read_app, Hr. reflexivity.
Qed.

(** X13.  Bus recovery always ends and returns 0, whatever the SDA line
    does.  It takes the transaction lock first and gives it back last, and
    does not touch the lock in between.  Where the FSM is reset by hand, the
    six timing registers are read first, in the order SCL, start, stop, SDA,
    timeout, filter; then the clock is switched off, the bus is cleared and
    the clock is switched on again; then the controller is initialized and
    its interrupts are masked and cleared; and only then the six registers
    are written, in the same order, each with the value that was read from
    it, before the final configuration update.  The bus clear in between
    makes pin, delay and update calls only, so no timing register is
    written before the controller has been initialized.  Where the hardware
    resets the FSM, recovery is the FSM reset, the bus clear and the update:
    the clock is left alone and no timing register is read or written.  SDA
    is read at most ten times. *)
Theorem recover_restores_timing_and_lock :
  forall (C : Caps) (config : i2c_esp32_config) (pins : i2c_esp32_pins)
         (t : bus_timing) (sda_level : nat -> Z),
  exists cs mid clear,
    Board.i2c_esp32_recover config pins t sda_level = Some (OK, cs) /\
    Board.i2c_master_clear_bus config pins sda_level = Some clear /\
    cs = drv_call (k_sem_take transfer_sem K_FOREVER) :: mid
         ++ [drv_call (k_sem_give transfer_sem)] /\
    Forall (fun c => is_lock_call c = false) mid /\
    mid =
      (if SOC_I2C_SUPPORT_HW_FSM_RST
       then i2c_hal_master_fsm_rst :: clear
            ++ [drv_call i2c_hal_update_config]
       else
         [i2c_hal_get_scl_timing (scl_high_period t) (scl_low_period t);
          i2c_hal_get_start_timing (scl_rstart_setup t) (scl_start_hold t);
          i2c_hal_get_stop_timing (scl_stop_setup t) (scl_stop_hold t);
          i2c_hal_get_sda_timing (sda_sample t) (sda_hold t);
          i2c_hal_get_tout (timeout t);
          i2c_hal_get_filter (u8 (filter_cfg t));
          clock_control_off]
         ++ clear
         ++ [clock_control_on;
             drv_call (i2c_hal_master_init (index config));
             drv_call i2c_hal_disable_intr_mask;
             drv_call i2c_hal_clr_intsts_mask;
             i2c_hal_set_scl_timing (scl_high_period t) (scl_low_period t);
             i2c_hal_set_start_timing (scl_rstart_setup t) (scl_start_hold t);
             i2c_hal_set_stop_timing (scl_stop_setup t) (scl_stop_hold t);
             i2c_hal_set_sda_timing (sda_sample t) (sda_hold t);
             i2c_hal_set_tout (timeout t);
             drv_call (i2c_hal_set_filter (u8 (filter_cfg t)));
             drv_call i2c_hal_update_config]) /\
    Forall (fun c => is_clear_bus_call c = true) clear /\
    timing_written cs = timing_read cs /\
    (Board.count is_sda_read cs <= 10)%nat /\
    (if SOC_I2C_SUPPORT_HW_FSM_RST
     then Board.count is_clock_call cs = 0%nat /\ timing_read cs = []
     else
       timing_read cs =
         [(SCL, scl_high_period t, scl_low_period t);
          (START, scl_rstart_setup t, scl_start_hold t);
          (STOP, scl_stop_setup t, scl_stop_hold t);
          (SDA, sda_sample t, sda_hold t);
          (TOUT, timeout t, 0);
          (FILTER, u8 (filter_cfg t), 0)]).
Proof.
  intros C config pins t sda_level.
  destruct (fsm_reset_log C config pins t sda_level)
    as (clear & reset & Hclear & Hreset & Hcalls & Hten & Hlock & Htiming
        & Hreads & Hshape & Hkind).
  unfold Board.i2c_esp32_recover. rewrite Hreset.
  exists ([drv_call (k_sem_take transfer_sem K_FOREVER)] ++ reset
          ++ [drv_call (k_sem_give transfer_sem)]), reset, clear.
  split; [reflexivity|]. split; [exact Hclear|]. split; [reflexivity|].
  split; [exact Hlock|]. split; [exact Hshape|]. split; [exact Hcalls|].
  rewrite !timing_read_app, !timing_written_app, !count_app.
  cbn [timing_read timing_written flat_map app Board.count filter is_sda_read
       is_clock_call length Nat.add].
  rewrite !app_nil_r.
  split; [exact Htiming|]. split; [lia|].
  destruct SOC_I2C_SUPPORT_HW_FSM_RST.
  - destruct Hkind as [Hclock Hnone]. split; [lia | exact Hnone].
  - exact Hkind.
Qed.

Lemma configure_summary (H : Headers) (config : i2c_esp32_config)
    (dev_cfg : Z) (w : world) :
  exists r,
    i2c_esp32_configure config dev_cfg w = Some r /\
    (value r = OK \/ value r = ERR ENOTSUP) /\
    (value r = OK <->
     Z.land dev_cfg I2C_MODE_MASTER <> 0 /\ bitrate config <> 0) /\
    irq_line (drv (after r)) = irq_line (drv w) /\
    (value r = OK ->
     exists pre, calls r = pre ++ [irq_enable (irq_line (drv w))]).
Proof.
  destruct config as [idx tx rx dflt rate].
  destruct w as [[st cfg i line] busy answers].
  unfold i2c_esp32_configure.
  destruct (Z.eqb_spec (Z.land dev_cfg I2C_MODE_MASTER) 0) as [Hm|Hm].
  - ran. repeat split; auto; try tauto; intros; try discriminate; tauto.
  - cbn [bitrate]. destruct (Z.eqb_spec rate 0) as [->|Hrate].
    + ran. repeat split; auto; try tauto; intros; try discriminate; tauto.
    + ran. repeat split; auto; try tauto.
      intros _. eexists [_; _; _; _; _; _]. reflexivity.
Qed.

Lemma count_drv_calls (p : board_call -> bool) (l : list call) :
  (forall c, p (drv_call c) = false) ->
  Board.count p (map drv_call l) = 0%nat.
Proof.
  intros Hp. induction l as [|c l IH]; [reflexivity|].
  unfold Board.count in *. cbn [map filter]. rewrite Hp. exact IH.
Qed.

(** X14.  Initialization returns 0, -EINVAL or -ENOTSUP.  It returns -EINVAL
    exactly when the board is not wired up: a GPIO name is missing, a GPIO
    device is not found, or the controller index is not below the number of
    controllers; then the status, the configuration, the command index and
    the interrupt line are unchanged, the clock is not switched on, no
    interrupt is allocated and the controller is not touched (with a name
    missing nothing is called at all, with a device missing no pin is
    touched).  The GPIO device fields are written as soon as the names are
    there: the SCL field takes what the binding answered, NULL included,
    and so does the SDA field once the SCL device was found; they keep these
    values on every exit.  When the board is wired up the clock is switched
    on once, one interrupt is allocated and its line is stored, also when
    the default configuration is then refused with -ENOTSUP.  It returns 0
    exactly when the board is wired up, the default configuration has the
    master bit and the bitrate is not zero; its last call then enables the
    line that was allocated. *)
Theorem init_outcomes :
  forall (H : Headers) (C : Caps) (config : i2c_esp32_config)
         (pins : i2c_esp32_pins) (bound_scl bound_sda : option Z) (line : Z)
         (g : i2c_esp32_gpios) (w : world),
  let wired :=
    gpio_name (scl pins) <> None /\ gpio_name (sda pins) <> None /\
    bound_scl <> None /\ bound_sda <> None /\ index config < SOC_I2C_NUM in
  exists ret g' w' cs,
    Board.i2c_esp32_init config pins bound_scl bound_sda line g w
      = Some (ret, g', w', cs) /\
    (ret = OK \/ ret = ERR EINVAL \/ ret = ERR ENOTSUP) /\
    (ret = ERR EINVAL <-> ~ wired) /\
    (ret = OK <->
     wired /\ Z.land (default_config config) I2C_MODE_MASTER <> 0 /\
     bitrate config <> 0) /\
    g' = match gpio_name (scl pins), gpio_name (sda pins) with
         | Some _, Some _ =>
           mk_gpios bound_scl
                    (match bound_scl with
                     | None => sda_gpio_dev g
                     | Some _ => bound_sda
                     end)
         | _, _ => g
         end /\
    (ret = ERR EINVAL ->
     w' = w /\ Board.count is_clock_call cs = 0%nat /\
     Board.count is_intr_alloc cs = 0%nat /\
     Board.count is_drv_call cs = 0%nat) /\
    (gpio_name (scl pins) = None \/ gpio_name (sda pins) = None -> cs = []) /\
    (bound_scl = None \/ bound_sda = None ->
     Board.count is_pin_call cs = 0%nat) /\
    (ret <> ERR EINVAL ->
     irq_line (drv w') = line /\ Board.count is_clock_call cs = 1%nat /\
     Board.count is_intr_alloc cs = 1%nat) /\
    (ret = OK -> exists pre, cs = pre ++ [drv_call (irq_enable line)]).
Proof.
  intros H C config [[scl_name so si sp] [sda_name ao ai ap] src]
         bound_scl bound_sda line [gscl gsda] w wired.
  subst wired. unfold Board.i2c_esp32_init.
  cbn [gpio_name scl sda scl_gpio_dev sda_gpio_dev].
  destruct scl_name as [scl_name|], sda_name as [sda_name|];
    try (do 4 eexists; split; [reflexivity|];
         repeat split; auto; intros; try discriminate; try tauto;
         intuition congruence).
  destruct bound_scl as [dscl|];
    [| do 4 eexists; split; [reflexivity|];
       repeat split; auto; intros; try discriminate; try tauto;
       intuition congruence].
  destruct bound_sda as [dsda|];
    [| do 4 eexists; split; [reflexivity|];
       repeat split; auto; intros; try discriminate; try tauto;
       intuition congruence].
  unfold Board.i2c_esp32_config_pin.
  destruct (Z.geb_spec (index config) SOC_I2C_NUM) as [Hge|Hlt]; cbn [is_err].
  - do 4 eexists; split; [reflexivity|].
    repeat split; auto; intros; try discriminate; try tauto;
      try (intuition (congruence || lia)).
  - match goal with
    | |- context [i2c_esp32_configure ?c ?d ?w0] =>
      destruct (configure_summary H c d w0)
        as (r & -> & Hcode & Hok & Hline & Hlast)
    end.
    cbn [drv irq_line] in Hline, Hlast.
    do 4 eexists; split; [reflexivity|].
    assert (Hne : value r <> ERR EINVAL)
      by (destruct Hcode as [-> | ->]; discriminate).
    cbn [Board.pin Board.sig_out Board.sig_in scl sda irq_source].
    repeat split; auto; intros; try discriminate; try tauto;
      try (exfalso; intuition (congruence || lia));
      try (apply Hok; assumption);
      try (apply Hok; tauto);
      try (rewrite !count_app, count_drv_calls by reflexivity; reflexivity).
    destruct (Hlast ltac:(assumption)) as (pre & ->).
    rewrite map_app, !app_assoc. eexists. reflexivity.
Qed.

End BoardProperties.

Section BoardExamples.
Import Board String.

(** An ESP32 board with both GPIO devices present and a 100 kHz bus. *)
Example init_wired_board :
  let pins := mk_pins (mk_pin (Some "GPIO_0"%string) 29 29 22)
                      (mk_pin (Some "GPIO_0"%string) 30 30 21) 49 in
  let config := mk_config 0 false false 16 100000 in
  option_map
    (fun '(ret, g, w, cs) =>
       (ret, g, irq_line (drv w), last cs clock_control_off))
    (@Board.i2c_esp32_init esp32_caps config pins esp32_headers
       (Some 1) (Some 1) 7 (mk_gpios None None) (world0 []))
  = Some (OK, mk_gpios (Some 1) (Some 1), 7, drv_call (irq_enable 7)).
Proof. vm_compute. reflexivity. Qed.

(** The same board without its GPIO device: -EINVAL after one call, and the
    SCL field has been overwritten with NULL. *)
Example init_without_gpio_device :
  let pins := mk_pins (mk_pin (Some "GPIO_0"%string) 29 29 22)
                      (mk_pin (Some "GPIO_0"%string) 30 30 21) 49 in
  let config := mk_config 0 false false 16 100000 in
  @Board.i2c_esp32_init esp32_caps config pins esp32_headers
    None (Some 1) 7 (mk_gpios (Some 5) (Some 6)) (world0 [])
  = Some (ERR EINVAL, mk_gpios None (Some 6), world0 [],
          [device_get_binding "GPIO_0"%string None]).
Proof. vm_compute. reflexivity. Qed.

End BoardExamples.
